(** * VoicePay hybrid planner: the tiered routing and validation core

    A shallow embedding of [main.py] (schema index, type coercion, call
    normalizer and validator, complexity estimator, payment-context
    extractor, heuristic planners, candidate scorer, fallback policy and
    the routing orchestrator [generate_hybrid]) together with the default
    tool catalog [PAYMENT_TOOLS] of [service/app.py].

    Conventions of the embedding:
    - Python values are the inductive [value]; dictionaries are association
      lists in insertion order; Python [float] is the primitive binary64
      [float]; Python [int] is [Z].
    - A Python [str] is a [string] whose characters are read as the code
      points U+0000..U+00FF; the character classes below are the Unicode
      ones of [str.isspace], [str.isdigit], [str.lower] and of the regular
      expression escapes restricted to that range.
    - A call that can raise returns a [result]; [Raise e] propagates like
      an uncaught Python exception. *)

From Stdlib Require Import ZArith NArith List String Ascii Bool Lia Floats.
From Stdlib Require Import DecimalString.
Import ListNotations.

Set Warnings "-inexact-float,-register-all".
Set Implicit Arguments.

(* ================================================================= *)
(** ** Exceptions as data *)

Inductive exn : Type :=
| AttributeError
| TypeError
| ValueError
| OverflowError.

Inductive result (A : Type) : Type :=
| Ok (a : A)
| Raise (e : exn).

Arguments Ok {A} a.
Arguments Raise {A} e.

Definition bind {A B : Type} (c : result A) (f : A -> result B) : result B :=
  match c with
  | Ok a => f a
  | Raise e => Raise e
  end.

Notation "x <- c1 ;; c2" := (bind c1 (fun x => c2))
  (at level 61, c1 at next level, right associativity).
Notation "' pat <- c1 ;; c2" := (bind c1 (fun x => match x with pat => c2 end))
  (at level 61, pat pattern, c1 at next level, right associativity).

(** Monadic traversal of a list, left to right: the shape of a Python
    [for] loop whose body can raise. *)
Fixpoint mapM {A B : Type} (f : A -> result B) (l : list A) : result (list B) :=
  match l with
  | [] => Ok []
  | x :: l' =>
      y <- f x ;;
      ys <- mapM f l' ;;
      Ok (y :: ys)
  end.

Fixpoint foldM {A S : Type} (f : S -> A -> result S) (l : list A) (s : S)
  : result S :=
  match l with
  | [] => Ok s
  | x :: l' =>
      s' <- f s x ;;
      foldM f l' s'
  end.

(* ================================================================= *)
(** ** Python values *)

Inductive value : Type :=
| VNone
| VBool (b : bool)
| VInt (n : Z)
| VFloat (f : float)
| VStr (s : string)
| VList (l : list value)
| VDict (d : list (string * value)).

(** [JsonDict = Dict[str, Any]]. *)
Definition dict : Type := list (string * value).

Fixpoint dict_lookup (d : dict) (k : string) : option value :=
  match d with
  | [] => None
  | (k', v) :: d' => if String.eqb k' k then Some v else dict_lookup d' k
  end.

(** [d.get(k, default)] *)
Definition dict_get (d : dict) (k : string) (default : value) : value :=
  match dict_lookup d k with
  | Some v => v
  | None => default
  end.

(** [k in d] *)
Definition dict_mem (d : dict) (k : string) : bool :=
  match dict_lookup d k with
  | Some _ => true
  | None => false
  end.

(** [d[k] = v]: an existing key keeps its place, a new key goes last. *)
Fixpoint dict_set (d : dict) (k : string) (v : value) : dict :=
  match d with
  | [] => [(k, v)]
  | (k', v') :: d' =>
      if String.eqb k' k then (k', v) :: d' else (k', v') :: dict_set d' k v
  end.

(** [x.get(k, default)] on an arbitrary object: only a dict has [get]. *)
Definition py_get (x : value) (k : string) (default : value) : result value :=
  match x with
  | VDict d => Ok (dict_get d k default)
  | _ => Raise AttributeError
  end.

Definition isinstance_dict (x : value) : bool :=
  match x with VDict _ => true | _ => false end.

Definition isinstance_list (x : value) : bool :=
  match x with VList _ => true | _ => false end.

Definition isinstance_str (x : value) : bool :=
  match x with VStr _ => true | _ => false end.

(** [x == "literal"] for a string literal. *)
Definition eq_str (x : value) (lit : string) : bool :=
  match x with
  | VStr s => String.eqb s lit
  | _ => false
  end.

(** [type(x).__name__] *)
Definition type_name (x : value) : string :=
  match x with
  | VNone => "NoneType"
  | VBool _ => "bool"
  | VInt _ => "int"
  | VFloat _ => "float"
  | VStr _ => "str"
  | VList _ => "list"
  | VDict _ => "dict"
  end.

(** Truth value testing, [bool(x)]. *)
Definition truthy (x : value) : bool :=
  match x with
  | VNone => false
  | VBool b => b
  | VInt n => negb (Z.eqb n 0)
  | VFloat f => negb (PrimFloat.eqb f 0%float)
  | VStr s => negb (String.eqb s "")
  | VList l => match l with [] => false | _ => true end
  | VDict d => match d with [] => false | _ => true end
  end.

(** [a or b] *)
Definition py_or (a b : value) : value := if truthy a then a else b.

(* ================================================================= *)
(** ** Characters and strings *)

Definition code (c : ascii) : N := N_of_ascii c.

Definition in_range (lo hi : N) (c : ascii) : bool :=
  (N.leb lo (code c) && N.leb (code c) hi)%bool.

(** [str.isspace], the class [\s] and the characters removed by
    [str.strip()]: U+0009..000D, U+001C..0020, U+0085, U+00A0. *)
Definition is_space (c : ascii) : bool :=
  in_range 9 13 c || in_range 28 32 c || N.eqb (code c) 133
  || N.eqb (code c) 160.

(** The class [\d] (Unicode category Nd): only the ASCII digits below
    U+0100. *)
Definition is_decimal (c : ascii) : bool := in_range 48 57 c.

(** [str.isdigit] on one character: the ASCII digits and the superscripts
    U+00B2, U+00B3, U+00B9. *)
Definition is_digit_char (c : ascii) : bool :=
  in_range 48 57 c || in_range 178 179 c || N.eqb (code c) 185.

Definition is_ascii_alpha (c : ascii) : bool :=
  in_range 65 90 c || in_range 97 122 c.

(** The class [\w]: alphanumeric characters and the underscore. *)
Definition is_word (c : ascii) : bool :=
  in_range 48 57 c || in_range 65 90 c || N.eqb (code c) 95
  || in_range 97 122 c || N.eqb (code c) 170 || in_range 178 179 c
  || N.eqb (code c) 181 || in_range 185 186 c || in_range 188 190 c
  || in_range 192 214 c || in_range 216 246 c || in_range 248 255 c.

(** [str.lower] on one character: A-Z and U+00C0..00DE except U+00D7. *)
Definition lower_char (c : ascii) : ascii :=
  if in_range 65 90 c || in_range 192 214 c || in_range 216 222 c
  then ascii_of_N (code c + 32)
  else c.

Definition chars (s : string) : list ascii := list_ascii_of_string s.
Definition text (l : list ascii) : string := string_of_list_ascii l.

(** [s.lower()] *)
Definition lower (s : string) : string := text (map lower_char (chars s)).

Fixpoint drop_while (p : ascii -> bool) (l : list ascii) : list ascii :=
  match l with
  | [] => []
  | c :: l' => if p c then drop_while p l' else l
  end.

Definition strip_with (p : ascii -> bool) (l : list ascii) : list ascii :=
  rev (drop_while p (rev (drop_while p l))).

(** [s.strip()] *)
Definition strip (s : string) : string := text (strip_with is_space (chars s)).

Fixpoint starts_with (needle hay : list ascii) : bool :=
  match needle, hay with
  | [], _ => true
  | _ :: _, [] => false
  | a :: needle', b :: hay' => Ascii.eqb a b && starts_with needle' hay'
  end.

Fixpoint occurs (needle hay : list ascii) : bool :=
  starts_with needle hay ||
  match hay with
  | [] => false
  | _ :: hay' => occurs needle hay'
  end.

(** [needle in hay] on strings. *)
Definition contains (needle hay : string) : bool :=
  occurs (chars needle) (chars hay).

(** [s.count(c)] for a one-character string [c]. *)
Definition count_char (c : ascii) (s : string) : nat :=
  List.length (filter (Ascii.eqb c) (chars s)).

(** [s.isdigit()]: nonempty and every character a digit. *)
Definition isdigit (s : string) : bool :=
  match chars s with
  | [] => false
  | l => forallb is_digit_char l
  end.

(** [sep.join(parts)] for a list of strings. *)
Fixpoint join (sep : string) (parts : list string) : string :=
  match parts with
  | [] => ""
  | [p] => p
  | p :: ps => (p ++ sep ++ join sep ps)%string
  end.

(** [" ".join(items)]: every item has to be a [str]. *)
Definition join_values (sep : string) (items : list value) : result string :=
  parts <- mapM (fun v => match v with
                          | VStr s => Ok s
                          | _ => Raise TypeError
                          end) items ;;
  Ok (join sep parts).

(* ================================================================= *)
(** ** Numbers *)

(** The binary64 value nearest to an integer (ties to even). *)
Definition float_of_Z (n : Z) : float :=
  SF2Prim (binary_normalize prec emax n 0 false).

(** The correctly rounded binary64 value of [(-1)^neg * m * 10^e]. *)
Definition float_of_decimal (neg : bool) (m : Z) (e : Z) : float :=
  match m with
  | Zpos p =>
      if Z.leb 0 e
      then SF2Prim (binary_normalize prec emax
                      (if neg then - (m * 10 ^ e) else m * 10 ^ e)%Z 0 false)
      else SF2Prim (SFdiv prec emax (S754_finite neg p 0)
                      (S754_finite false (Z.to_pos (10 ^ (- e))) 0))
  | _ => if neg then neg_zero else zero
  end.

Definition digit_val (c : ascii) : Z := (Z.of_N (code c) - 48)%Z.

Definition digits_val (l : list ascii) : Z :=
  fold_left (fun acc c => (acc * 10 + digit_val c)%Z) l 0%Z.

(** The longest prefix of [l] whose characters satisfy [p], and the rest. *)
Fixpoint span (p : ascii -> bool) (l : list ascii) : list ascii * list ascii :=
  match l with
  | [] => ([], [])
  | c :: l' =>
      if p c then let '(a, b) := span p l' in (c :: a, b) else ([], l)
  end.

(** Underscores in a numeric literal: each one has a digit on both sides.
    Returns the text without them, [None] when one is misplaced. *)
Fixpoint strip_underscores (prev : option ascii) (l : list ascii)
  : option (list ascii) :=
  let digit_before :=
    match prev with Some p => is_decimal p | None => false end in
  match l with
  | [] => Some []
  | c :: l' =>
      if Ascii.eqb c "_"
      then if digit_before
           then match l' with
                | d :: _ => if is_decimal d
                            then strip_underscores (Some c) l'
                            else None
                | [] => None
                end
           else None
      else option_map (cons c) (strip_underscores (Some c) l')
  end.

Definition is_char (a : ascii) (c : ascii) : bool := Ascii.eqb a c.

(** An optional sign; [true] for minus. *)
Definition take_sign (l : list ascii) : bool * list ascii :=
  match l with
  | c :: l' =>
      if is_char "-" c then (true, l')
      else if is_char "+" c then (false, l')
      else (false, l)
  | [] => (false, l)
  end.

(** [digits [. digits]] or [. digits], then an optional exponent
    [e|E [sign] digits]; the whole text has to be consumed. *)
Definition parse_decimal (neg : bool) (l : list ascii) : option float :=
  let '(ip, r1) := span is_decimal l in
  let '(fp, r2) :=
    match r1 with
    | c :: r => if is_char "." c then span is_decimal r else ([], r1)
    | [] => ([], r1)
    end in
  match ip ++ fp with
  | [] => None
  | ds =>
      let m := digits_val ds in
      let scale := Z.of_nat (List.length fp) in
      match r2 with
      | [] => Some (float_of_decimal neg m (- scale)%Z)
      | c :: r =>
          if is_char "e" c || is_char "E" c
          then let '(eneg, r') := take_sign r in
               match span is_decimal r' with
               | (d :: ds', []) =>
                   let x := digits_val (d :: ds') in
                   Some (float_of_decimal neg m
                           ((if eneg then - x else x) - scale)%Z)
               | _ => None
               end
          else None
      end
  end.

(** The characters [float()] strips at both ends of a [str]. *)
Definition is_float_space (c : ascii) : bool :=
  in_range 9 13 c || N.eqb (code c) 32 || N.eqb (code c) 133
  || N.eqb (code c) 160.

(** [float(s)] for a [str]; [None] is [ValueError]. *)
Definition float_of_string (s : string) : option float :=
  match strip_underscores None (strip_with is_float_space (chars s)) with
  | None => None
  | Some l =>
      let '(neg, body) := take_sign l in
      let word := text (map lower_char body) in
      if String.eqb word "inf" || String.eqb word "infinity"
      then Some (if neg then neg_infinity else infinity)
      else if String.eqb word "nan" then Some nan
      else parse_decimal neg body
  end.

(** CPython's default limit on the digits of an integer literal
    ([sys.get_int_max_str_digits()]). *)
Definition int_max_str_digits : nat := 4300.

(** [int(s)] for a [str] on which [s.isdigit()] holds: the superscript
    digits are not decimal digits, and a longer text than the limit is
    refused. *)
Definition int_of_digit_string (s : string) : result Z :=
  if forallb is_decimal (chars s)
  then if Nat.ltb int_max_str_digits (String.length s)
       then Raise ValueError
       else Ok (digits_val (chars s))
  else Raise ValueError.

(** [float(x)] for an arbitrary object. *)
Definition py_float (x : value) : result float :=
  match x with
  | VFloat f => Ok f
  | VInt n =>
      let f := float_of_Z n in
      if is_infinity f then Raise OverflowError else Ok f
  | VBool b => Ok (if b then 1%float else 0%float)
  | VStr s =>
      match float_of_string s with
      | Some f => Ok f
      | None => Raise ValueError
      end
  | VNone | VList _ | VDict _ => Raise TypeError
  end.

(** [max(a, b)] and [min(a, b)] on floats: the first argument is kept
    unless the second compares strictly beyond it. *)
Definition py_max (a b : float) : float := if PrimFloat.ltb a b then b else a.
Definition py_min (a b : float) : float := if PrimFloat.ltb b a then b else a.

(** [len(l)] as a float operand. *)
Definition float_of_len {A : Type} (l : list A) : float :=
  float_of_Z (Z.of_nat (List.length l)).

(* ================================================================= *)
(** ** Regular expressions

    The fragment of [re] the program uses, with the backtracking
    semantics of the library: alternatives are tried left to right,
    repetitions are greedy, and a search returns the leftmost match. *)

Module Regex.

Inductive regex : Type :=
| Lit (c : ascii)                                      (* one given character *)
| Class (p : ascii -> bool)                            (* one character of a class *)
| Many (p : ascii -> bool) (lo : nat) (hi : option nat) (* greedy p{lo,hi} *)
| Seq (r1 r2 : regex)
| Alt (r1 r2 : regex)
| Opt (r : regex)                                      (* greedy r? *)
| WordBoundary                                         (* \b *)
| Group (r : regex).                                   (* capturing group 1 *)

(** A position in the subject: the character before it and what remains. *)
Definition position : Type := (option ascii * list ascii)%type.

Definition at_word_boundary (pos : position) : bool :=
  let before := match fst pos with Some c => is_word c | None => false end in
  let after := match snd pos with c :: _ => is_word c | [] => false end in
  xorb before after.

Definition or_else {A : Type} (a b : option A) : option A :=
  match a with Some _ => a | None => b end.

(** Greedy bounded repetition of a character class. *)
Fixpoint many {A : Type} (p : ascii -> bool) (lo : nat) (hi : option nat)
  (prev : option ascii) (rest : list ascii)
  (k : position -> option A) : option A :=
  let stop := match lo with O => k (prev, rest) | S _ => None end in
  match rest with
  | c :: rest' =>
      if p c && negb (match hi with Some O => true | _ => false end)
      then or_else (many p (pred lo) (option_map pred hi) (Some c) rest' k) stop
      else stop
  | [] => stop
  end.

(** [run r pos cap k]: match [r] at [pos], then continue with [k]; [cap]
    is the text of group 1 so far. *)
Fixpoint run {A : Type} (r : regex) (pos : position) (cap : option (list ascii))
  (k : position -> option (list ascii) -> option A) : option A :=
  match r with
  | Lit c =>
      match snd pos with
      | d :: rest => if Ascii.eqb c d then k (Some d, rest) cap else None
      | [] => None
      end
  | Class p =>
      match snd pos with
      | d :: rest => if p d then k (Some d, rest) cap else None
      | [] => None
      end
  | Many p lo hi => many p lo hi (fst pos) (snd pos) (fun pos' => k pos' cap)
  | Seq r1 r2 => run r1 pos cap (fun pos' cap' => run r2 pos' cap' k)
  | Alt r1 r2 => or_else (run r1 pos cap k) (run r2 pos cap k)
  | Opt r1 => or_else (run r1 pos cap k) (k pos cap)
  | WordBoundary => if at_word_boundary pos then k pos cap else None
  | Group r1 =>
      run r1 pos cap
        (fun pos' _ =>
           k pos' (Some (firstn (List.length (snd pos) - List.length (snd pos'))
                           (snd pos))))
  end.

(** A match starting exactly at [pos]: where it ends and group 1. *)
Definition match_at (r : regex) (pos : position)
  : option (position * option (list ascii)) :=
  run r pos None (fun pos' cap => Some (pos', cap)).

(** [re.search]: the leftmost match. *)
Fixpoint search_from (r : regex) (prev : option ascii) (rest : list ascii)
  : option (position * option (list ascii)) :=
  or_else (match_at r (prev, rest))
    match rest with
    | c :: rest' => search_from r (Some c) rest'
    | [] => None
    end.

Definition search (r : regex) (s : string)
  : option (position * option (list ascii)) :=
  search_from r None (chars s).

(** [re.search(r, s).group(1)], when there is a match and the group took
    part in it. *)
Definition search_group1 (r : regex) (s : string) : option string :=
  match search r s with
  | Some (_, Some g) => Some (text g)
  | _ => None
  end.

(** [len(re.findall(r, s))]: the matches are taken left to right without
    overlap; [skip] counts the characters of the last match still to pass. *)
Fixpoint count_from (r : regex) (prev : option ascii) (rest : list ascii)
  (skip : nat) : nat :=
  let next (n : nat) :=
    match rest with
    | c :: rest' => count_from r (Some c) rest' n
    | [] => O
    end in
  match skip with
  | S skip' => next skip'
  | O =>
      match match_at r (prev, rest) with
      | Some ((_, rest_after), _) =>
          S (next (pred (List.length rest - List.length rest_after)))
      | None => next O
      end
  end.

Definition findall_count (r : regex) (s : string) : nat :=
  count_from r None (chars s) O.

Definition lits (s : string) : regex :=
  match chars s with
  | [] => Many (fun _ => false) 0 (Some 0)
  | c :: l => fold_left (fun r d => Seq r (Lit d)) l (Lit c)
  end.

(** [\$\s*\d+|\b\d+\s*(usd|dollars?)\b] *)
Definition money_mention : regex :=
  Alt (Seq (Lit "$") (Seq (Many is_space 0 None) (Many is_decimal 1 None)))
      (Seq WordBoundary
         (Seq (Many is_decimal 1 None)
            (Seq (Many is_space 0 None)
               (Seq (Group (Alt (lits "usd")
                               (Seq (lits "dollar") (Opt (Lit "s")))))
                    WordBoundary)))).

(** [\$\s*(\d+(?:\.\d+)?)] *)
Definition dollar_amount : regex :=
  Seq (Lit "$")
    (Seq (Many is_space 0 None)
       (Group (Seq (Many is_decimal 1 None)
                 (Opt (Seq (Lit ".") (Many is_decimal 1 None)))))).

(** [\bto\s+([a-zA-Z][a-zA-Z0-9_ ]{1,30})] *)
Definition to_payee : regex :=
  Seq WordBoundary
    (Seq (lits "to")
       (Seq (Many is_space 1 None)
          (Group (Seq (Class is_ascii_alpha)
                    (Many (fun c => is_ascii_alpha c || is_decimal c
                                    || is_char "_" c || is_char " " c)
                       1 (Some 30)))))).

End Regex.

(* ================================================================= *)
(** ** Hashing and keys of the tool index *)

(** [hash(x)] is defined for everything but lists and dicts. *)
Definition hashable (x : value) : bool :=
  match x with
  | VList _ | VDict _ => false
  | _ => true
  end.

(** [n == f] for an [int] and a [float]: exact comparison of the values. *)
Definition int_eq_float (n : Z) (f : float) : bool :=
  match Prim2SF f with
  | S754_zero _ => Z.eqb n 0
  | S754_finite s m e =>
      let mag := if s then Z.neg m else Z.pos m in
      if Z.leb 0 e then Z.eqb n (mag * 2 ^ e)
      else Z.eqb (mag mod 2 ^ (- e)) 0 && Z.eqb n (mag / 2 ^ (- e))
  | _ => false
  end.

(** [a == b] on hashable values, the equality a dict compares keys with
    (a NaN key is never found again by value). *)
Definition key_eqb (a b : value) : bool :=
  let as_int (x : value) : option Z :=
    match x with
    | VBool c => Some (if c then 1%Z else 0%Z)
    | VInt n => Some n
    | _ => None
    end in
  match a, b with
  | VNone, VNone => true
  | VStr s, VStr t => String.eqb s t
  | VFloat f, VFloat g => PrimFloat.eqb f g
  | VFloat f, _ => match as_int b with Some n => int_eq_float n f | None => false end
  | _, VFloat g => match as_int a with Some n => int_eq_float n g | None => false end
  | _, _ =>
      match as_int a, as_int b with
      | Some n, Some m => Z.eqb n m
      | _, _ => false
      end
  end.

(** [key in d] for a [Dict[str, Any]] and an arbitrary key. *)
Definition py_in_dict (key : value) (d : dict) : result bool :=
  match key with
  | VStr s => Ok (dict_mem d s)
  | VList _ | VDict _ => Raise TypeError
  | _ => Ok false
  end.

(* ================================================================= *)
(** ** Data model *)

(** [@dataclass class _ToolSpec] *)
Record _ToolSpec : Type := {
  ts_name : value;
  ts_properties : dict;
  ts_required : list value
}.

(** [Dict[str, _ToolSpec]], keyed by whatever the catalog gives as name. *)
Definition tool_index : Type := list (value * _ToolSpec).

Fixpoint index_lookup (index : tool_index) (name : value) : option _ToolSpec :=
  match index with
  | [] => None
  | (k, spec) :: index' =>
      if key_eqb k name then Some spec else index_lookup index' name
  end.

Fixpoint index_store (index : tool_index) (name : value) (spec : _ToolSpec)
  : tool_index :=
  match index with
  | [] => [(name, spec)]
  | (k, old) :: index' =>
      if key_eqb k name then (k, spec) :: index'
      else (k, old) :: index_store index' name spec
  end.

(** [index[name] = spec] *)
Definition index_set (index : tool_index) (name : value) (spec : _ToolSpec)
  : result tool_index :=
  if hashable name then Ok (index_store index name spec) else Raise TypeError.

(** [index.get(name)] *)
Definition index_get (index : tool_index) (name : value)
  : result (option _ToolSpec) :=
  if hashable name then Ok (index_lookup index name) else Raise TypeError.

(** ["literal" in index] *)
Definition index_mem (index : tool_index) (lit : string) : bool :=
  match index_lookup index (VStr lit) with
  | Some _ => true
  | None => false
  end.

(** An entry of [missing_required]: [{"tool": ..., "missing": [...]}]. *)
Record MissingRequired : Type := {
  mr_tool : value;
  mr_missing : list value
}.

(** An entry of [arg_type_issues]. *)
Record ArgTypeIssue : Type := {
  ati_tool : value;
  ati_argument : string;
  ati_expected_type : value;
  ati_actual_type : string
}.

(** The dict [_validate_calls] returns. *)
Record Validation : Type := {
  valid : bool;
  missing_required : list MissingRequired;
  unknown_tool : list string;
  arg_type_issues : list ArgTypeIssue
}.

(** The dict [_estimate_complexity] returns. *)
Record Complexity : Type := {
  label : string;
  signal_hits : nat;
  punctuation_hits : nat
}.

(** The dict [_call_local_planner] returns. *)
Record LocalResult : Type := {
  function_calls : list value;
  confidence : float;
  local_latency_ms : float;
  tool_rag_top_k : Z;
  repair_mode : bool
}.

(** [local["function_calls"] = calls] *)
Definition set_function_calls (r : LocalResult) (calls : list value)
  : LocalResult :=
  {| function_calls := calls;
     confidence := confidence r;
     local_latency_ms := local_latency_ms r;
     tool_rag_top_k := tool_rag_top_k r;
     repair_mode := repair_mode r |}.

(** The dict [_call_cloud_planner] returns. *)
Record CloudResult : Type := {
  cloud_function_calls : list value;
  cloud_confidence : float
}.

(** The dict [generate_hybrid] returns. *)
Record RoutingDecision : Type := {
  source : string;
  route_reason : string;
  planned_calls : list value;          (* "function_calls" *)
  planned_confidence : float;          (* "confidence" *)
  validation : Validation;
  local_time_ms : float;
  latency_ms : float;
  total_time_ms : float
}.

(** A call [{"name": name, "arguments": args}]. *)
Definition mk_call (name : value) (args : dict) : value :=
  VDict [("name"%string, name); ("arguments"%string, VDict args)].

(* ================================================================= *)
(** ** The program *)

Section Program.

(** What the program reads from the interpreter and the process and does
    not define itself. *)

(** [str(x)] for a float, a list or a dict. *)
Variable repr : value -> string.
(** [time.perf_counter()]: the value of the n-th reading of a request. *)
Variable perf_counter : nat -> float.
(** [os.getenv(name)] *)
Variable getenv : string -> option string.
(** [json.loads(s)]; [None] when it raises. *)
Variable json_loads : string -> option value.

(** [str(x)] *)
Definition py_str (x : value) : result string :=
  match x with
  | VStr s => Ok s
  | VNone => Ok "None"%string
  | VBool b => Ok (if b then "True" else "False")%string
  | VInt n =>
      if Nat.ltb int_max_str_digits
           (String.length (NilZero.string_of_int (Z.to_int (Z.abs n))))
      then Raise ValueError
      else Ok (NilZero.string_of_int (Z.to_int n))
  | _ => Ok (repr x)
  end.

(** *** Tool schema index *)

Definition _tool_index (tools : list value) : result tool_index :=
  foldM
    (fun index tool =>
       fn <- (if isinstance_dict tool
              then py_get tool "function" (VDict [])
              else Ok (VDict [])) ;;
       name <- py_get fn "name" VNone ;;
       params <- py_get fn "parameters" (VDict []) ;;
       properties <- (if isinstance_dict params
                      then py_get params "properties" (VDict [])
                      else Ok (VDict [])) ;;
       required <- (if isinstance_dict params
                    then py_get params "required" (VList [])
                    else Ok (VList [])) ;;
       if truthy name
       then index_set index name
              {| ts_name := name;
                 ts_properties :=
                   match properties with VDict d => d | _ => [] end;
                 ts_required :=
                   match required with VList l => l | _ => [] end |}
       else Ok index)
    tools [].

(** *** Type coercion *)

Definition _is_type_compatible (v : value) (expected_type : value) : bool :=
  match expected_type with
  | VNone => true
  | _ =>
      if eq_str expected_type "string" then isinstance_str v
      else if eq_str expected_type "number"
      then match v with VInt _ | VFloat _ => true | _ => false end
      else if eq_str expected_type "integer"
      then match v with VInt _ => true | _ => false end
      else if eq_str expected_type "boolean"
      then match v with VBool _ => true | _ => false end
      else if eq_str expected_type "array" then isinstance_list v
      else if eq_str expected_type "object" then isinstance_dict v
      else true
  end.

Definition one_of (s : string) (options : list string) : bool :=
  existsb (String.eqb s) options.

Definition _coerce_argument (v : value) (expected_type : value)
  : result (value * bool) :=
  if _is_type_compatible v expected_type then Ok (v, true)
  else
    match v with
    | VStr s =>
        if eq_str expected_type "number"
        then match float_of_string s with
             | Some f => Ok (VFloat f, true)
             | None => Ok (v, false)
             end
        else if eq_str expected_type "integer" && isdigit s
        then n <- int_of_digit_string s ;; Ok (VInt n, true)
        else if eq_str expected_type "boolean"
        then let lower := lower (strip s) in
             if one_of lower ["true"; "yes"; "1"]%string
             then Ok (VBool true, true)
             else if one_of lower ["false"; "no"; "0"]%string
             then Ok (VBool false, true)
             else Ok (v, false)
        else Ok (v, false)
    | _ => Ok (v, false)
    end.

(** *** Call normalizer *)

(** [call.get("arguments", {})], replaced by [{}] when it is no dict. *)
Definition call_arguments (call : value) : result dict :=
  args <- py_get call "arguments" (VDict []) ;;
  Ok (match args with VDict d => d | _ => [] end).

Definition _normalize_calls (function_calls : list value) (tools : list value)
  : result (list value) :=
  index <- _tool_index tools ;;
  mapM
    (fun call =>
       name <- py_get call "name" VNone ;;
       args <- call_arguments call ;;
       spec <- index_get index name ;;
       match spec with
       | Some spec =>
           next_args <-
             foldM
               (fun next_args kv =>
                  let '(key, v) := kv in
                  let expected_type :=
                    if dict_mem (ts_properties spec) key
                    then match dict_get (ts_properties spec) key VNone with
                         | VDict schema => dict_get schema "type" VNone
                         | _ => VNone
                         end
                    else VNone in
                  cr <- _coerce_argument v expected_type ;;
                  Ok (dict_set next_args key (fst cr)))
               args [] ;;
           Ok (mk_call name next_args)
       | None => Ok (mk_call name args)
       end)
    function_calls.

(** *** Call validator *)

(** [[key for key in required if key not in args]] *)
Fixpoint missing_keys (required : list value) (args : dict)
  : result (list value) :=
  match required with
  | [] => Ok []
  | key :: required' =>
      present <- py_in_dict key args ;;
      rest <- missing_keys required' args ;;
      Ok (if present then rest else key :: rest)
  end.

(** The three accumulators of the validation loop. *)
Record Issues : Type := {
  acc_unknown_tool : list string;
  acc_missing_required : list MissingRequired;
  acc_arg_type_issues : list ArgTypeIssue
}.

Definition no_issues : Issues :=
  {| acc_unknown_tool := []; acc_missing_required := [];
     acc_arg_type_issues := [] |}.

(** The inner loop over [args.items()]. *)
Definition check_arguments (name : value) (spec : _ToolSpec) (args : dict)
  (issues : list ArgTypeIssue) : result (list ArgTypeIssue) :=
  foldM
    (fun issues kv =>
       let '(arg_name, arg_value) := kv in
       let schema := dict_get (ts_properties spec) arg_name (VDict []) in
       let expected_type :=
         match schema with
         | VDict d => dict_get d "type" VNone
         | _ => VNone
         end in
       cr <- _coerce_argument arg_value expected_type ;;
       if snd cr then Ok issues
       else Ok (issues ++
                  [{| ati_tool := name;
                      ati_argument := arg_name;
                      ati_expected_type := expected_type;
                      ati_actual_type := type_name arg_value |}]))
    args issues.

(** One iteration of the loop over the calls. *)
Definition validate_step (index : tool_index) (acc : Issues) (call : value)
  : result Issues :=
  name <- py_get call "name" VNone ;;
  args <- call_arguments call ;;
  spec <- index_get index name ;;
  match spec with
  | None =>
      shown <- py_str name ;;
      Ok {| acc_unknown_tool := acc_unknown_tool acc ++ [shown];
            acc_missing_required := acc_missing_required acc;
            acc_arg_type_issues := acc_arg_type_issues acc |}
  | Some spec =>
      missing <- missing_keys (ts_required spec) args ;;
      let missing_required :=
        match missing with
        | [] => acc_missing_required acc
        | _ => acc_missing_required acc
                 ++ [{| mr_tool := name; mr_missing := missing |}]
        end in
      issues <- check_arguments name spec args (acc_arg_type_issues acc) ;;
      Ok {| acc_unknown_tool := acc_unknown_tool acc;
            acc_missing_required := missing_required;
            acc_arg_type_issues := issues |}
  end.

Definition is_empty {A : Type} (l : list A) : bool :=
  match l with [] => true | _ => false end.

Definition _validate_calls (function_calls : list value) (tools : list value)
  : result Validation :=
  index <- _tool_index tools ;;
  acc <- foldM (validate_step index) function_calls no_issues ;;
  Ok {| valid := is_empty (acc_unknown_tool acc)
                 && is_empty (acc_missing_required acc)
                 && is_empty (acc_arg_type_issues acc);
        missing_required := acc_missing_required acc;
        unknown_tool := acc_unknown_tool acc;
        arg_type_issues := acc_arg_type_issues acc |}.

(** *** Complexity estimator *)

(** [m.get("content", "") for m in messages
     if isinstance(m, dict) and m.get("role") == "user"] *)
Definition user_contents (messages : list value) : list value :=
  flat_map
    (fun m =>
       match m with
       | VDict d =>
           if eq_str (dict_get d "role" VNone) "user"
           then [dict_get d "content" (VStr "")]
           else []
       | _ => []
       end)
    messages.

(** [" ".join(...)] over the user contents. *)
Definition user_text (messages : list value) : result string :=
  join_values " " (user_contents messages).

Definition signals : list string :=
  [" and "; " then "; " after that "; " also "; " plus "; " while "]%string.

Definition count_signals (user_text : string) : nat :=
  List.length (filter (fun token => contains token user_text) signals).

Definition count_punctuation (user_text : string) : nat :=
  count_char "," user_text + count_char ";" user_text.

Definition money_mentions (user_text : string) : nat :=
  Regex.findall_count Regex.money_mention user_text.

Definition _estimate_complexity (messages : list value) : result Complexity :=
  joined <- user_text messages ;;
  let user_text := lower joined in
  let signal_hits := count_signals user_text in
  let punctuation_hits := count_punctuation user_text in
  let has_multiple_money_mentions := Nat.ltb 1 (money_mentions user_text) in
  let multi_intent :=
    Nat.leb 2 signal_hits || Nat.leb 2 punctuation_hits
    || has_multiple_money_mentions in
  Ok {| label := if multi_intent then "multi_intent" else "single_intent";
        signal_hits := signal_hits;
        punctuation_hits := punctuation_hits |}.

(** *** Payment context extractor *)

(** [float(m.group(1))] *)
Definition float_of_group (g : string) : result float :=
  match float_of_string g with
  | Some f => Ok f
  | None => Raise ValueError
  end.

Definition _extract_payment_context (messages : list value)
  (payment_context : option dict) : result dict :=
  let ctx := match payment_context with Some d => d | None => [] end in
  joined <- user_text messages ;;
  let text := lower joined in
  ctx <- match Regex.search_group1 Regex.dollar_amount text with
         | Some g =>
             if negb (dict_mem ctx "amount")
             then amount <- float_of_group g ;;
                  Ok (dict_set ctx "amount" (VFloat amount))
             else Ok ctx
         | None => Ok ctx
         end ;;
  let ctx := if contains "new payee" text && negb (dict_mem ctx "new_payee")
             then dict_set ctx "new_payee" (VBool true) else ctx in
  let ctx := if contains "first time" text
                && negb (dict_mem ctx "first_time_payee")
             then dict_set ctx "first_time_payee" (VBool true) else ctx in
  Ok ctx.

(** *** Fallback decision policy *)

(** [float(payment_context.get("amount", 0.0) or 0.0)] *)
Definition context_amount (payment_context : dict) : result float :=
  py_float (py_or (dict_get payment_context "amount" (VFloat 0%float))
              (VFloat 0%float)).

(** [bool(payment_context.get("new_payee")
          or payment_context.get("first_time_payee"))] *)
Definition context_new_payee (payment_context : dict) : bool :=
  truthy (py_or (dict_get payment_context "new_payee" VNone)
            (dict_get payment_context "first_time_payee" VNone)).

(** [not bool(payment_context.get("biometric_strong", True))] *)
Definition context_weak_auth (payment_context : dict) : bool :=
  negb (truthy (dict_get payment_context "biometric_strong" (VBool true))).

Definition _needs_cloud_fallback (local_result : LocalResult)
  (validation : Validation) (complexity : Complexity)
  (payment_context : dict) : result bool :=
  let confidence := confidence local_result in
  if negb (valid validation) then Ok true
  else if String.eqb (label complexity) "multi_intent"
          && Nat.ltb (List.length (function_calls local_result)) 2
  then Ok true
  else
    amount <- context_amount payment_context ;;
    let high_amount := PrimFloat.leb 500%float amount in
    let new_payee := context_new_payee payment_context in
    let weak_auth := context_weak_auth payment_context in
    let high_risk := high_amount || new_payee || weak_auth in
    let min_conf := if high_risk then 0.995%float else 0.96%float in
    Ok (PrimFloat.ltb confidence min_conf).

(** *** Heuristic planners *)

(** Returns [(amount, payee)]. *)
Definition _extract_simple_payment (text : string) : result (float * string) :=
  amount <- match Regex.search_group1 Regex.dollar_amount (lower text) with
            | Some g => float_of_group g
            | None => Ok 20%float
            end ;;
  let payee := match Regex.search_group1 Regex.to_payee text with
               | Some g => strip g
               | None => "unknown"%string
               end in
  Ok (amount, payee).

Definition _heuristic_local_calls (messages : list value) (tools : list value)
  (repair_mode : bool) : result (list value * float) :=
  text <- user_text messages ;;
  index <- _tool_index tools ;;
  payload <- _extract_simple_payment text ;;
  let '(amount, payee) := payload in
  let calls :=
    (if index_mem index "resolve_payee"
     then [mk_call (VStr "resolve_payee") [("payee_name"%string, VStr payee)]]
     else [])
    ++ (if index_mem index "risk_assess_transaction"
        then [mk_call (VStr "risk_assess_transaction")
                [("amount"%string, VFloat amount);
                 ("payee"%string, VStr payee)]]
        else [])
    ++ (if index_mem index "create_payment_intent"
        then [mk_call (VStr "create_payment_intent")
                [("amount"%string, VFloat amount);
                 ("currency"%string, VStr "usd");
                 ("payee"%string, VStr payee)]]
        else [])
    ++ (if index_mem index "confirm_payment"
        then [mk_call (VStr "confirm_payment")
                [("confirm"%string, VBool true)]]
        else []) in
  calls <- match calls, tools with
           | [], first_tool :: _ =>
               fn <- py_get first_tool "function" (VDict []) ;;
               first <- py_get fn "name" VNone ;;
               Ok (if truthy first then [mk_call first []] else [])
           | _, _ => Ok calls
           end ;;
  let confidence := 0.93%float in
  let confidence := if repair_mode then 0.965%float else confidence in
  let confidence := if contains "?" text
                    then (confidence - 0.04)%float else confidence in
  let confidence := if contains "and" (lower text)
                    then (confidence - 0.03)%float else confidence in
  Ok (calls, py_max 0%float (py_min 0.999%float confidence)).

(** [readings] is the number of clock readings made before the call. *)
Definition _call_local_planner (readings : nat) (messages : list value)
  (tools : list value) (tool_rag_top_k : Z) (repair_mode : bool)
  : result LocalResult :=
  let start := perf_counter readings in
  planned <- _heuristic_local_calls messages tools repair_mode ;;
  let '(calls, confidence) := planned in
  let elapsed_ms :=
    ((perf_counter (S readings) - start) * 1000)%float in
  Ok {| function_calls := calls;
        confidence := confidence;
        local_latency_ms := elapsed_ms;
        tool_rag_top_k := tool_rag_top_k;
        repair_mode := repair_mode |}.

(** The [try] block of [_call_cloud_planner]: whatever it raises is
    swallowed, and the heuristic path follows. *)
Definition cloud_override : option CloudResult :=
  match getenv "VOICEPAY_CLOUD_JSON" with
  | Some s =>
      if negb (String.eqb s "")
      then match json_loads s with
           | Some (VDict data) =>
               match dict_get data "function_calls" VNone with
               | VList calls =>
                   match py_float (dict_get data "confidence"
                                     (VFloat 0.99%float)) with
                   | Ok c => Some {| cloud_function_calls := calls;
                                     cloud_confidence := c |}
                   | Raise _ => None
                   end
               | _ => None
               end
           | _ => None
           end
      else None
  | None => None
  end.

Definition _call_cloud_planner (messages : list value) (tools : list value)
  : result CloudResult :=
  match cloud_override with
  | Some cloud => Ok cloud
  | None =>
      planned <- _heuristic_local_calls messages tools true ;;
      let '(calls, confidence) := planned in
      Ok {| cloud_function_calls := calls;
            cloud_confidence := py_max 0.99%float confidence |}
  end.

(** *** Candidate scorer *)

Definition _candidate_score (validation : Validation) (confidence : float)
  (complexity : Complexity) : float :=
  let score := confidence in
  let score := if valid validation then (score + 0.2)%float else score in
  let score :=
    (score - 0.08 * float_of_len (missing_required validation))%float in
  let score :=
    (score - 0.05 * float_of_len (arg_type_issues validation))%float in
  let score := if String.eqb (label complexity) "multi_intent"
               then (score - 0.03)%float else score in
  score.

(** [b if score_b >= score_a else a] *)
Definition best_of {A : Type} (score_a score_b : float) (a b : A) : A :=
  if PrimFloat.leb score_a score_b then b else a.

(** *** Routing orchestrator *)

Definition elapsed_ms (start : float) (readings : nat) : float :=
  ((perf_counter readings - start) * 1000)%float.

Definition generate_hybrid (messages : list value) (tools : list value)
  (confidence_threshold : float) : result RoutingDecision :=
  let start := perf_counter 0 in
  payment_context <- _extract_payment_context messages None ;;
  complexity <- _estimate_complexity messages ;;
  (* Pass 1: local planner with normal RAG. *)
  local_a <- _call_local_planner 1 messages tools 2 false ;;
  calls_a <- _normalize_calls (function_calls local_a) tools ;;
  let local_a := set_function_calls local_a calls_a in
  validation_a <- _validate_calls (function_calls local_a) tools ;;
  fallback_a <-
    _needs_cloud_fallback local_a validation_a complexity payment_context ;;
  let threshold_a := py_max confidence_threshold 0.96%float in
  if negb fallback_a && PrimFloat.leb threshold_a (confidence local_a)
  then
    let total_ms := elapsed_ms start 3 in
    Ok {| source := "on-device";
          route_reason := "pass1-accepted";
          planned_calls := function_calls local_a;
          planned_confidence := confidence local_a;
          validation := validation_a;
          local_time_ms := local_latency_ms local_a;
          latency_ms := total_ms;
          total_time_ms := total_ms |}
  else
    (* Pass 2: local repair. *)
    local_b <- _call_local_planner 3 messages tools 0 true ;;
    calls_b <- _normalize_calls (function_calls local_b) tools ;;
    let local_b := set_function_calls local_b calls_b in
    validation_b <- _validate_calls (function_calls local_b) tools ;;
    fallback_b <-
      _needs_cloud_fallback local_b validation_b complexity payment_context ;;
    let threshold_b := py_max (confidence_threshold - 0.02)%float 0.95%float in
    let score_a := _candidate_score validation_a (confidence local_a) complexity in
    let score_b := _candidate_score validation_b (confidence local_b) complexity in
    let best_local := best_of score_a score_b local_a local_b in
    let best_validation := best_of score_a score_b validation_a validation_b in
    if negb fallback_b
       && PrimFloat.leb threshold_b (confidence best_local)
       && valid best_validation
    then
      let total_ms := elapsed_ms start 5 in
      Ok {| source := "on-device";
            route_reason := "pass2-repair-accepted";
            planned_calls := function_calls best_local;
            planned_confidence := confidence best_local;
            validation := best_validation;
            local_time_ms :=
              (local_latency_ms local_a + local_latency_ms local_b)%float;
            latency_ms := total_ms;
            total_time_ms := total_ms |}
    else
      (* Cloud fallback. *)
      cloud <- _call_cloud_planner messages tools ;;
      calls_c <- _normalize_calls (cloud_function_calls cloud) tools ;;
      cloud_validation <- _validate_calls calls_c tools ;;
      let total_ms := elapsed_ms start 5 in
      Ok {| source := "cloud (fallback)";
            route_reason := "local-uncertain-or-invalid";
            planned_calls := calls_c;
            planned_confidence := cloud_confidence cloud;
            validation := cloud_validation;
            local_time_ms :=
              (local_latency_ms local_a + local_latency_ms local_b)%float;
            latency_ms := total_ms;
            total_time_ms := total_ms |}.

End Program.

(* ================================================================= *)
(** ** The default tool catalog ([service/app.py]) *)

(** A descriptor [{"type": "function", "function": {"name": ...,
    "description": ..., "parameters": {"type": "object",
    "properties": {arg: {"type": t}, ...}, "required": [...]}}}]. *)
Definition tool_descriptor (name description : string)
  (properties : list (string * string)) (required : list string) : value :=
  VDict
    [("type", VStr "function");
     ("function",
      VDict
        [("name", VStr name);
         ("description", VStr description);
         ("parameters",
          VDict
            [("type", VStr "object");
             ("properties",
              VDict (map (fun kt => (fst kt, VDict [("type", VStr (snd kt))]))
                       properties));
             ("required", VList (map VStr required))])])]%string.

Definition PAYMENT_TOOLS : list value :=
  [ tool_descriptor "resolve_payee"
      "Resolve recipient from spoken payee name"
      [("payee_name", "string")] ["payee_name"];
    tool_descriptor "verify_voice_match"
      "Verify speaker against enrolled voice profile"
      [("speaker_id", "string"); ("confidence", "number")] ["speaker_id"];
    tool_descriptor "check_biometric_status"
      "Read biometric challenge status from mobile client"
      [("biometric_ok", "boolean")] ["biometric_ok"];
    tool_descriptor "risk_assess_transaction"
      "Assess fraud and transaction risk before payment"
      [("amount", "number"); ("payee", "string"); ("biometric_ok", "boolean")]
      ["amount"; "payee"];
    tool_descriptor "create_payment_intent"
      "Create a payment intent in Stripe test mode"
      [("amount", "number"); ("currency", "string"); ("payee", "string")]
      ["amount"; "currency"; "payee"];
    tool_descriptor "confirm_payment"
      "Confirm user approval before charging"
      [("confirm", "boolean")] ["confirm"];
    tool_descriptor "charge_payment_testmode"
      "Charge saved payment method in Stripe test mode"
      [("amount", "number"); ("currency", "string");
       ("payment_method_id", "string")]
      ["amount"; "currency"] ]%string.

(** [[{"role": "user", "content": transcript}]], as [pay_plan] builds it. *)
Definition user_message (transcript : string) : list value :=
  [VDict [("role", VStr "user"); ("content", VStr transcript)]]%string.

(* ================================================================= *)
(** ** Vocabulary of the specification *)

(** *** Stages of the orchestrator

    The two local passes of [generate_hybrid] run the same four steps
    (plan, normalize, validate, fallback policy), and the cloud stage is
    its last block; they are named here so that statements can speak of
    "the pass-1 candidate" or "the cloud stage". *)

Section Stages.

Variable repr : value -> string.
Variable perf_counter : nat -> float.
Variable getenv : string -> option string.
Variable json_loads : string -> option value.

(** Candidate, its validation and its fallback flag. *)
Definition local_pass (readings : nat) (messages tools : list value)
  (tool_rag_top_k : Z) (repair_mode : bool) (complexity : Complexity)
  (payment_context : dict) : result (LocalResult * Validation * bool) :=
  planned <- _call_local_planner perf_counter readings messages tools
               tool_rag_top_k repair_mode ;;
  calls <- _normalize_calls (function_calls planned) tools ;;
  let candidate := set_function_calls planned calls in
  validation <- _validate_calls repr (function_calls candidate) tools ;;
  fallback <-
    _needs_cloud_fallback candidate validation complexity payment_context ;;
  Ok (candidate, validation, fallback).

(** The acceptance test of pass 1. *)
Definition pass1_accepts (confidence_threshold : float)
  (local_a : LocalResult) (fallback_a : bool) : bool :=
  negb fallback_a
  && PrimFloat.leb (py_max confidence_threshold 0.96%float) (confidence local_a).

(** theta_b *)
Definition threshold_b (confidence_threshold : float) : float :=
  py_max (confidence_threshold - 0.02)%float 0.95%float.

(** The acceptance test of pass 2, as the program evaluates it. *)
Definition pass2_accepts (confidence_threshold : float)
  (complexity : Complexity) (local_a : LocalResult) (validation_a : Validation)
  (local_b : LocalResult) (validation_b : Validation) (fallback_b : bool)
  : bool :=
  let score_a := _candidate_score validation_a (confidence local_a) complexity in
  let score_b := _candidate_score validation_b (confidence local_b) complexity in
  negb fallback_b
  && PrimFloat.leb (threshold_b confidence_threshold)
       (confidence (best_of score_a score_b local_a local_b))
  && valid (best_of score_a score_b validation_a validation_b).

(** The last block of [generate_hybrid]. *)
Definition cloud_stage (messages tools : list value)
  (local_a local_b : LocalResult) : result RoutingDecision :=
  cloud <- _call_cloud_planner getenv json_loads messages tools ;;
  calls_c <- _normalize_calls (cloud_function_calls cloud) tools ;;
  cloud_validation <- _validate_calls repr calls_c tools ;;
  let total_ms := elapsed_ms perf_counter (perf_counter 0) 5 in
  Ok {| source := "cloud (fallback)";
        route_reason := "local-uncertain-or-invalid";
        planned_calls := calls_c;
        planned_confidence := cloud_confidence cloud;
        validation := cloud_validation;
        local_time_ms :=
          (local_latency_ms local_a + local_latency_ms local_b)%float;
        latency_ms := total_ms;
        total_time_ms := total_ms |}.

(** *** The validator, call by call

    What one call contributes to the three issue collections, following
    the wording of the specification. *)

Record CallReport : Type := {
  rep_unknown_tool : list string;
  rep_missing_required : list MissingRequired;
  rep_arg_type_issues : list ArgTypeIssue
}.

(** The declared type of an argument: the ["type"] of its schema. *)
Definition declared_type (spec : _ToolSpec) (arg_name : string) : value :=
  match dict_get (ts_properties spec) arg_name (VDict []) with
  | VDict schema => dict_get schema "type" VNone
  | _ => VNone
  end.

(** One entry for an argument that fails coercion, none otherwise. *)
Definition spec_argument_issue (name : value) (spec : _ToolSpec)
  (kv : string * value) : result (list ArgTypeIssue) :=
  cr <- _coerce_argument (snd kv) (declared_type spec (fst kv)) ;;
  Ok (if snd cr then []
      else [{| ati_tool := name;
               ati_argument := fst kv;
               ati_expected_type := declared_type spec (fst kv);
               ati_actual_type := type_name (snd kv) |}]).

Definition spec_check_call (index : tool_index) (call : value)
  : result CallReport :=
  name <- py_get call "name" VNone ;;
  args <- call_arguments call ;;
  spec <- index_get index name ;;
  match spec with
  | None =>
      (* unknown tool: its name is reported and nothing else is checked *)
      shown <- py_str repr name ;;
      Ok {| rep_unknown_tool := [shown];
            rep_missing_required := [];
            rep_arg_type_issues := [] |}
  | Some spec =>
      missing <- missing_keys (ts_required spec) args ;;
      issues <- mapM (spec_argument_issue name spec) args ;;
      Ok {| rep_unknown_tool := [];
            rep_missing_required :=
              if is_empty missing then []
              else [{| mr_tool := name; mr_missing := missing |}];
            rep_arg_type_issues := List.concat issues |}
  end.

(** The validation result of a list of reports: the three collections in
    call order, and [valid] when all of them are empty. *)
Definition spec_validation (reports : list CallReport) : Validation :=
  let unknown := flat_map rep_unknown_tool reports in
  let missing := flat_map rep_missing_required reports in
  let issues := flat_map rep_arg_type_issues reports in
  {| valid := is_empty unknown && is_empty missing && is_empty issues;
     missing_required := missing;
     unknown_tool := unknown;
     arg_type_issues := issues |}.

End Stages.

(** "required minus present": whether an argument key is supplied. *)
Definition key_present (args : dict) (key : value) : bool :=
  match key with
  | VStr s => dict_mem args s
  | _ => false
  end.

(** *** The fallback policy in the words of the specification *)

Definition spec_high_risk (amount : float) (payment_context : dict) : bool :=
  PrimFloat.leb 500%float amount
  || truthy (dict_get payment_context "new_payee" VNone)
  || truthy (dict_get payment_context "first_time_payee" VNone)
  || negb (truthy (dict_get payment_context "biometric_strong" (VBool true))).

Definition spec_floor (high_risk : bool) : float :=
  if high_risk then 0.995%float else 0.96%float.

(** Fewer than two calls for a multi-intent request. *)
Definition under_decomposed (local_result : LocalResult)
  (complexity : Complexity) : bool :=
  String.eqb (label complexity) "multi_intent"
  && Nat.ltb (List.length (function_calls local_result)) 2.

(** *** A quiet world for concrete runs: no override in the environment,
    a clock that stands still. *)

Definition plain_repr (x : value) : string := type_name x.
Definition still_clock (n : nat) : float := 0%float.
Definition empty_env (name : string) : option string := None.
Definition no_json (s : string) : option value := None.

(** The four calls the heuristic planner proposes against the default
    catalog. *)
Definition payment_plan (payee : string) (amount : float) : list value :=
  [ mk_call (VStr "resolve_payee") [("payee_name", VStr payee)];
    mk_call (VStr "risk_assess_transaction")
      [("amount", VFloat amount); ("payee", VStr payee)];
    mk_call (VStr "create_payment_intent")
      [("amount", VFloat amount); ("currency", VStr "usd");
       ("payee", VStr payee)];
    mk_call (VStr "confirm_payment") [("confirm", VBool true)] ]%string.

(** A catalog whose only tool asks for an argument the heuristic planner
    never supplies: every plan against it is invalid. *)
Definition demanding_tools : list value :=
  [ tool_descriptor "resolve_payee" "Resolve recipient"
      [("payee_name", "string"); ("account", "string")]
      ["payee_name"; "account"] ]%string.

(** A catalog whose descriptor carries a string where the function
    record belongs. *)
Definition stray_function_tools : list value :=
  [VDict [("function", VStr "resolve_payee")]]%string.

(** Three calls for the validator: an unknown tool, a mistyped argument,
    and missing required arguments. *)
Definition sample_calls : list value :=
  [ mk_call (VStr "transfer_funds") [];
    mk_call (VStr "confirm_payment") [("confirm", VStr "maybe")];
    mk_call (VStr "create_payment_intent") [("amount", VStr "12.5")] ]%string.

(** A candidate with the first [n] calls of a plan and a given confidence. *)
Definition sample_candidate (n : nat) (c : float) : LocalResult :=
  {| function_calls := firstn n (payment_plan "Bob" 750);
     confidence := c;
     local_latency_ms := 0;
     tool_rag_top_k := 2;
     repair_mode := false |}.

Definition clean_validation : Validation :=
  {| valid := true; missing_required := []; unknown_tool := [];
     arg_type_issues := [] |}.

Definition flawed_validation : Validation :=
  {| valid := false; missing_required := [];
     unknown_tool := ["transfer_funds"%string]; arg_type_issues := [] |}.

Definition complexity_of (l : string) : Complexity :=
  {| label := l; signal_hits := 0; punctuation_hits := 0 |}.

(** *** The confidence of the heuristic planner

    The arithmetic at the end of [_heuristic_local_calls], as a function
    of the repair flag and of the two tests on the text. *)
Definition heuristic_confidence (repair_mode has_question has_and : bool)
  : float :=
  let confidence := 0.93%float in
  let confidence := if repair_mode then 0.965%float else confidence in
  let confidence := if has_question then (confidence - 0.04)%float
                    else confidence in
  let confidence := if has_and then (confidence - 0.03)%float
                    else confidence in
  py_max 0%float (py_min 0.999%float confidence).

(** *** The two on-device results of [generate_hybrid] *)

Definition pass1_decision (perf_counter : nat -> float)
  (local_a : LocalResult) (validation_a : Validation) : RoutingDecision :=
  {| source := "on-device";
     route_reason := "pass1-accepted";
     planned_calls := function_calls local_a;
     planned_confidence := confidence local_a;
     validation := validation_a;
     local_time_ms := local_latency_ms local_a;
     latency_ms := elapsed_ms perf_counter (perf_counter 0) 3;
     total_time_ms := elapsed_ms perf_counter (perf_counter 0) 3 |}.

Definition pass2_decision (perf_counter : nat -> float)
  (local_a local_b best_local : LocalResult) (best_validation : Validation)
  : RoutingDecision :=
  {| source := "on-device";
     route_reason := "pass2-repair-accepted";
     planned_calls := function_calls best_local;
     planned_confidence := confidence best_local;
     validation := best_validation;
     local_time_ms :=
       (local_latency_ms local_a + local_latency_ms local_b)%float;
     latency_ms := elapsed_ms perf_counter (perf_counter 0) 5;
     total_time_ms := elapsed_ms perf_counter (perf_counter 0) 5 |}.

(** *** Reports added to the accumulators of the validation loop *)

Definition add_report (acc : Issues) (r : CallReport) : Issues :=
  {| acc_unknown_tool := acc_unknown_tool acc ++ rep_unknown_tool r;
     acc_missing_required :=
       acc_missing_required acc ++ rep_missing_required r;
     acc_arg_type_issues :=
       acc_arg_type_issues acc ++ rep_arg_type_issues r |}.

(** *** Payment contexts derived from the text alone *)

(** Where an entry of such a context comes from: [t] is the lowercased
    user text. *)
Definition text_derived (t : string) (k : string) (v : value) : Prop :=
  (k = "amount"%string /\
   exists g f, Regex.search_group1 Regex.dollar_amount t = Some g
               /\ float_of_string g = Some f /\ v = VFloat f)
  \/ (k = "new_payee"%string /\ v = VBool true
      /\ contains "new payee" t = true)
  \/ (k = "first_time_payee"%string /\ v = VBool true
      /\ contains "first time" t = true).

Definition text_context (amount : option float) (new_payee first_time : bool)
  : dict :=
  (match amount with
   | Some f => [("amount"%string, VFloat f)]
   | None => []
   end)
  ++ (if new_payee then [("new_payee"%string, VBool true)] else [])
  ++ (if first_time then [("first_time_payee"%string, VBool true)] else []).

(** *** The counters of the complexity estimator, in the words of the
    specification *)

(** 1 when the token occurs in the text, 0 otherwise. *)
Definition token_hit (token t : string) : nat :=
  if contains token t then 1 else 0.

(** The commas and semicolons of a text. *)
Definition commas_and_semicolons (t : string) : nat :=
  List.length
    (filter (fun c => Ascii.eqb c "," || Ascii.eqb c ";") (chars t)).

(** The dollar signs directly followed by a digit. *)
Fixpoint dollar_digit_pairs (l : list ascii) : nat :=
  match l with
  | c :: rest =>
      (match rest with
       | d :: _ => if Ascii.eqb c "$" && is_decimal d then 1 else 0
       | [] => 0
       end) + dollar_digit_pairs rest
  | [] => 0
  end.

(** The dollar mentions of a text that are written as a dollar sign and a
    digit with nothing between them. *)
Definition dollar_mentions (s : string) : nat := dollar_digit_pairs (chars s).

(** Whether a match of [r] can contain the character [c]. *)
Fixpoint admits (r : Regex.regex) (c : ascii) : bool :=
  match r with
  | Regex.Lit d => Ascii.eqb d c
  | Regex.Class p => p c
  | Regex.Many p _ _ => p c
  | Regex.Seq r1 r2 => admits r1 c || admits r2 c
  | Regex.Alt r1 r2 => admits r1 c || admits r2 c
  | Regex.Opt r1 => admits r1 c
  | Regex.WordBoundary => false
  | Regex.Group r1 => admits r1 c
  end.

(** The boundary messages of the specification: one signal token, one
    comma and one dollar mention, and the same with one more of each. *)
Definition one_of_each : string := "send $5 to Bob and say thanks, ok".
Definition second_signal : string := "send $5 to Bob and then say thanks, ok".
Definition second_comma : string := "send $5 to Bob and say thanks, ok, bye".
Definition second_dollar : string := "send $5 to Bob and $6 to Al, ok".
Definition second_worded : string := "send $5 to Bob and 6 usd to Al, ok".

(** *** Normalization and validation, call by call *)

(** The argument keys of a call are distinct, as the keys of a Python dict
    are. *)
Definition distinct_argument_keys (call : value) : Prop :=
  forall args, call_arguments call = Ok args -> NoDup (map fst args).

(** One argument after normalization against the schema of its tool. *)
Definition coerced_argument (spec : _ToolSpec) (kv : string * value)
  : result (string * value) :=
  cr <- _coerce_argument (snd kv) (declared_type spec (fst kv)) ;;
  Ok (fst kv, fst cr).

(** The body of the loop of [_normalize_calls]. *)
Definition normalized_call (index : tool_index) (call : value) : result value :=
  name <- py_get call "name" VNone ;;
  args <- call_arguments call ;;
  spec <- index_get index name ;;
  match spec with
  | Some spec =>
      next_args <-
        foldM
          (fun next_args kv =>
             let '(key, v) := kv in
             let expected_type :=
               if dict_mem (ts_properties spec) key
               then match dict_get (ts_properties spec) key VNone with
                    | VDict schema => dict_get schema "type" VNone
                    | _ => VNone
                    end
               else VNone in
             cr <- _coerce_argument v expected_type ;;
             Ok (dict_set next_args key (fst cr)))
          args [] ;;
      Ok (mk_call name next_args)
  | None => Ok (mk_call name args)
  end.

(** What normalization does to one call: same name, same keys in the same
    order; arguments verbatim for an unknown tool, otherwise each one
    either unchanged or compatible with its declared type. *)
Definition normalized_from (index : tool_index) (call call' : value) : Prop :=
  exists (name : value) (args args' : dict),
    py_get call "name" VNone = Ok name
    /\ call_arguments call = Ok args
    /\ call' = mk_call name args'
    /\ map fst args' = map fst args
    /\ match index_lookup index name with
       | None => args' = args
       | Some spec =>
           Forall2
             (fun kv kv' =>
                snd kv' = snd kv
                \/ _is_type_compatible (snd kv') (declared_type spec (fst kv))
                   = true)
             args args'
       end.

(** A call that passes every check of the validator against [index]. *)
Definition call_checks (index : tool_index) (call : value) : Prop :=
  exists (name : value) (args : dict) (spec : _ToolSpec),
    py_get call "name" VNone = Ok name
    /\ call_arguments call = Ok args
    /\ index_lookup index name = Some spec
    /\ (forall key, In key (ts_required spec) -> key_present args key = true)
    /\ (forall k v, In (k, v) args ->
          exists v', _coerce_argument v (declared_type spec k) = Ok (v', true)).

(** Two calls as a speech front end would send them: every argument is a
    text. *)
Definition spoken_calls : list value :=
  [ mk_call (VStr "create_payment_intent")
      [("amount", VStr "12.5"); ("currency", VStr "usd");
       ("payee", VStr "Bob")];
    mk_call (VStr "confirm_payment") [("confirm", VStr "yes")] ]%string.

(** The same calls with the argument types the default catalog declares. *)
Definition typed_calls : list value :=
  [ mk_call (VStr "create_payment_intent")
      [("amount", VFloat 12.5); ("currency", VStr "usd");
       ("payee", VStr "Bob")];
    mk_call (VStr "confirm_payment") [("confirm", VBool true)] ]%string.

(** A call to a tool the default catalog does not have. *)
Definition stray_calls : list value :=
  [mk_call (VStr "transfer_funds") []]%string.

(** The index of the default catalog. *)
Definition payment_index : tool_index :=
  match _tool_index PAYMENT_TOOLS with
  | Ok index => index
  | Raise _ => []
  end.

(** *** Amount texts *)

(** Digits, optionally followed by a point and more digits: the texts
    group 1 of [Regex.dollar_amount] can capture. *)
Definition decimal_text (g : list ascii) : Prop :=
  exists ds : list ascii,
    ds <> [] /\ forallb is_decimal ds = true
    /\ (g = ds
        \/ exists fs : list ascii,
             fs <> [] /\ forallb is_decimal fs = true
             /\ g = (ds ++ "."%char :: fs)%list).

(* ================================================================= *)
(** ** The payment service ([service/app.py]) *)

(** The integer nearest to [m * 2^e], ties to even. *)
Definition round_half_even (m : Z) (e : Z) : Z :=
  if Z.leb 0 e then (m * 2 ^ e)%Z
  else
    let d := (2 ^ (- e))%Z in
    let q := (m / d)%Z in
    match Z.compare (2 * (m mod d)) d with
    | Lt => q
    | Gt => (q + 1)%Z
    | Eq => if Z.even q then q else (q + 1)%Z
    end.

(** [round(x)] for a float. *)
Definition py_round (x : float) : result Z :=
  match Prim2SF x with
  | S754_zero _ => Ok 0%Z
  | S754_finite s m e =>
      let n := round_half_even (Zpos m) e in
      Ok (if s then (- n)%Z else n)
  | S754_infinity _ => Raise OverflowError
  | S754_nan => Raise ValueError
  end.

(** [round(x, 2)]: the float nearest to the two-place decimal nearest to
    [x] (ties to even); zeros, infinities and NaN round to themselves. *)
Definition py_round2 (x : float) : float :=
  match Prim2SF x with
  | S754_finite s m e =>
      float_of_decimal s (round_half_even (Zpos m * 100) e) (-2)
  | _ => x
  end.

(** [s[start:]] *)
Definition str_from (start : nat) (s : string) : string :=
  substring start (String.length s - start) s.

(** [str(u)] for a UUID whose [hex] is [h]. *)
Definition uuid_str (h : string) : string :=
  (substring 0 8 h ++ "-" ++ substring 8 4 h ++ "-" ++ substring 12 4 h
   ++ "-" ++ substring 16 4 h ++ "-" ++ str_from 20 h)%string.

(** [{**d, **payload}]: the entries of [payload] are written into [d] in
    their order. *)
Definition dict_update (d payload : dict) : dict :=
  fold_left (fun acc kv => dict_set acc (fst kv) (snd kv)) payload d.

(** The arguments of [stripe.PaymentIntent.create] that vary, with the
    key the module was given. *)
Record StripeRequest : Type := {
  sr_api_key : string;
  sr_amount : Z;
  sr_currency : string;
  sr_payment_method : value
}.

(** What the call does: it returns an intent, or it raises and [str(exc)]
    is the message. *)
Inductive StripeReply : Type :=
| Intent (fields : dict)
| StripeRaises (message : string).

(** [os.getenv("STRIPE_SECRET_KEY", "")] *)
Definition stripe_key (getenv : string -> option string) : string :=
  match getenv "STRIPE_SECRET_KEY"%string with
  | Some s => s
  | None => ""%string
  end.

Section Service.

Variable repr : value -> string.
Variable perf_counter : nat -> float.
Variable getenv : string -> option string.
Variable json_loads : string -> option value.
(** [uuid.uuid4().hex] of the n-th UUID drawn during a request. *)
Variable uuid4 : nat -> string.
(** [import stripe]: the message of the exception it raises, or the
    behaviour of [stripe.PaymentIntent.create]. *)
Variable import_stripe : string + (StripeRequest -> StripeReply).

(** [readings] and [draws] count the clock readings and the UUIDs drawn
    before the call. *)
Definition _response (readings draws : nat) (success : bool) (payload : dict)
  (started : float) (error : value) : dict :=
  dict_update
    [("success"%string, VBool success);
     ("error"%string, error);
     ("request_id"%string, VStr (uuid_str (uuid4 draws)));
     ("latency_ms"%string,
      VFloat (py_round2 ((perf_counter readings - started) * 1000)%float))]
    payload.

Fixpoint _extract_amount_from_calls (function_calls : list value)
  : result float :=
  match function_calls with
  | [] => Ok 20%float
  | call :: rest =>
      args <- py_get call "arguments" (VDict []) ;;
      match args with
      | VDict d =>
          match dict_lookup d "amount" with
          | Some x =>
              match py_float x with
              | Ok amount => Ok amount
              | Raise TypeError | Raise ValueError =>
                  _extract_amount_from_calls rest
              | Raise e => Raise e
              end
          | None => _extract_amount_from_calls rest
          end
      | _ => _extract_amount_from_calls rest
      end
  end.

Definition mock_result (draws : nat) (amount : float) (currency : string)
  : dict :=
  [("executor"%string, VStr "mock");
   ("status"%string, VStr "succeeded");
   ("payment_id"%string, VStr ("mock_" ++ substring 0 12 (uuid4 draws)));
   ("amount"%string, VFloat amount);
   ("currency"%string, VStr currency)].

(** The [except] branch: [dict(mock_result)] with the status replaced and
    the message added. *)
Definition mock_fallback (draws : nat) (amount : float) (currency : string)
  (message : string) : dict :=
  dict_set
    (dict_set (mock_result draws amount currency) "status"
       (VStr "succeeded_with_mock_fallback"))
    "error" (VStr message).

(** The [try] block. *)
Definition stripe_charge (draws : nat) (key : string)
  (amount : float) (currency : string) (payment_context : dict) : dict :=
  match import_stripe with
  | inl message => mock_fallback draws amount currency message
  | inr create =>
      match py_round (amount * 100)%float with
      | Ok cents =>
          match create {| sr_api_key := key;
                          sr_amount := cents;
                          sr_currency := currency;
                          sr_payment_method :=
                            dict_get payment_context "payment_method_id"
                              (VStr "pm_card_visa") |} with
          | Intent intent =>
              [("executor"%string, VStr "stripe-testmode");
               ("status"%string, dict_get intent "status" (VStr "unknown"));
               ("payment_id"%string, dict_get intent "id" (VStr ""));
               ("amount"%string, VFloat amount);
               ("currency"%string, VStr currency)]
          | StripeRaises message =>
              mock_fallback draws amount currency message
          end
      | Raise OverflowError =>
          mock_fallback draws amount currency
            "cannot convert float infinity to integer"
      | Raise _ =>
          mock_fallback draws amount currency
            "cannot convert float NaN to integer"
      end
  end.

Definition _execute_with_stripe_or_mock (draws : nat)
  (function_calls : list value) (payment_context : dict) : result dict :=
  default <- _extract_amount_from_calls function_calls ;;
  amount <- py_float (dict_get payment_context "amount" (VFloat default)) ;;
  currency <- py_str repr (dict_get payment_context "currency" (VStr "usd")) ;;
  if negb (String.prefix "sk_test_" (stripe_key getenv))
  then Ok (mock_result draws amount currency)
  else Ok (stripe_charge draws (stripe_key getenv) amount currency
             payment_context).

(** The clock readings [generate_hybrid] makes before it returns. *)
Definition planner_readings (plan : RoutingDecision) : nat :=
  if String.eqb (route_reason plan) "pass1-accepted" then 4 else 6.

(** [pay_plan(req)] with [req.transcript]; [req.payment_context] is not
    read. *)
Definition pay_plan (transcript : string) : result dict :=
  let started := perf_counter 0 in
  let messages := user_message transcript in
  plan <- generate_hybrid repr (fun n => perf_counter (S n)) getenv
            json_loads messages PAYMENT_TOOLS 0.99%float ;;
  let payload :=
    [("transcript"%string, VStr transcript);
     ("source"%string, VStr (source plan));
     ("route_reason"%string, VStr (route_reason plan));
     ("function_calls"%string, VList (planned_calls plan));
     ("planner_latency_ms"%string, VFloat (latency_ms plan))] in
  Ok (_response (S (planner_readings plan)) 0 true payload started VNone).

Definition pay_execute (function_calls : list value) (payment_context : dict)
  : result dict :=
  let started := perf_counter 0 in
  execution <- _execute_with_stripe_or_mock 0 function_calls payment_context ;;
  Ok (_response 1 1 true execution started VNone).

End Service.

(** *** Sample runs of the service *)

(** A call whose amount is an integer beyond the range of a float. *)
Definition huge_amount_calls : list value :=
  [mk_call (VStr "create_payment_intent")
     [("amount", VInt (10 ^ 400)); ("currency", VStr "usd")]]%string.

Definition test_key_env (name : string) : option string :=
  if String.eqb name "STRIPE_SECRET_KEY" then Some "sk_test_51"%string
  else None.

Definition live_env (name : string) : option string :=
  if String.eqb name "STRIPE_SECRET_KEY" then Some "sk_live_51"%string
  else None.

Definition zero_uuid (n : nat) : string :=
  "00000000000000000000000000000000"%string.

Definition stripe_declines : string + (StripeRequest -> StripeReply) :=
  inr (fun _ => StripeRaises "Your card was declined.").

Definition stripe_accepts : string + (StripeRequest -> StripeReply) :=
  inr (fun request =>
         Intent [("id", VStr "pi_1"); ("status", VStr "succeeded");
                 ("amount", VInt (sr_amount request))]%string).

(* ================================================================= *)
(** * Properties *)

Unset Implicit Arguments.
Local Open Scope string_scope.

(** Case analysis on the keys compared by a dictionary lookup. *)
Ltac lookup_cases :=
  repeat match goal with
  | H : context [String.eqb ?a ?b] |- _ =>
      destruct (String.eqb_spec a b); [subst|]
  | H : Some _ = Some _ |- _ => inversion H; clear H; subst
  | H : None = Some _ |- _ => discriminate H
  end.

(** ** Basic facts *)

Lemma bind_ok {A B : Type} (c : result A) (f : A -> result B) (b : B) :
  bind c f = Ok b -> exists a, c = Ok a /\ f a = Ok b.
Proof. destruct c as [a|e]; simpl; [eauto | discriminate]. Qed.

Lemma eq_str_true (t : value) (lit : string) :
  eq_str t lit = true -> t = VStr lit.
Proof.
  destruct t; simpl; try discriminate.
  intros H. apply String.eqb_eq in H. now subst.
Qed.

Lemma truthy_py_or (a b : value) : truthy (py_or a b) = truthy a || truthy b.
Proof. unfold py_or. destruct (truthy a) eqn:H; simpl; [exact H | reflexivity]. Qed.

Lemma is_empty_true {A : Type} (l : list A) : is_empty l = true <-> l = [].
Proof. destruct l; cbn; split; congruence. Qed.

Lemma best_of_same {A : Type} (sa sb : float) (x : A) : best_of sa sb x x = x.
Proof. unfold best_of. now destruct (PrimFloat.leb sa sb). Qed.

(** ** The order on binary64 values *)

Lemma SFcompare_antisym (a b : spec_float) :
  SFcompare b a = option_map CompOpp (SFcompare a b).
Proof.
  destruct a as [sa|sa| |sa ma ea], b as [sb|sb| |sb mb eb]; simpl;
    try destruct sa; try destruct sb; try reflexivity.
  - rewrite (Z.compare_antisym ea eb).
    destruct (ea ?= eb)%Z; simpl; try reflexivity.
    now rewrite (Pos.compare_cont_antisym ma mb Eq).
  - rewrite (Z.compare_antisym ea eb).
    destruct (ea ?= eb)%Z; simpl; try reflexivity.
    rewrite (Pos.compare_cont_antisym ma mb Eq). simpl.
    now destruct (Pos.compare_cont Eq ma mb).
Qed.

Lemma SFcompare_defined (a b : spec_float) :
  SFcompare a a <> None -> SFcompare b b <> None -> SFcompare a b <> None.
Proof.
  destruct a as [sa|sa| |sa ma ea], b as [sb|sb| |sb mb eb]; simpl;
    congruence.
Qed.

Lemma is_nan_false (x : float) :
  is_nan x = false -> SFcompare (Prim2SF x) (Prim2SF x) <> None.
Proof.
  unfold is_nan. rewrite eqb_spec. unfold SFeqb.
  destruct (SFcompare _ _); [congruence | discriminate].
Qed.

Lemma float_eqb_leb (a b : float) :
  PrimFloat.eqb a b = true -> PrimFloat.leb a b = true.
Proof.
  rewrite eqb_spec, leb_spec. unfold SFeqb, SFleb.
  destruct (SFcompare _ _) as [[]|]; auto.
Qed.

Lemma float_leb_false_ltb (a b : float) :
  is_nan a = false -> is_nan b = false ->
  PrimFloat.leb a b = false -> PrimFloat.ltb b a = true.
Proof.
  intros Ha Hb. apply is_nan_false in Ha, Hb.
  pose proof (SFcompare_defined _ _ Ha Hb) as Hd.
  rewrite leb_spec, ltb_spec. unfold SFleb, SFltb.
  rewrite (SFcompare_antisym (Prim2SF a) (Prim2SF b)).
  destruct (SFcompare (Prim2SF a) (Prim2SF b)) as [[]|]; simpl; congruence.
Qed.

Lemma float_ltb_leb_false (a b : float) :
  PrimFloat.ltb b a = true -> PrimFloat.leb a b = false.
Proof.
  rewrite leb_spec, ltb_spec. unfold SFleb, SFltb.
  rewrite (SFcompare_antisym (Prim2SF a) (Prim2SF b)).
  destruct (SFcompare (Prim2SF a) (Prim2SF b)) as [[]|]; simpl; congruence.
Qed.

(** ** Type coercion *)

Example coerce_integer_text :
  _coerce_argument (VStr "42") (VStr "integer") = Ok (VInt 42, true).
Proof. reflexivity. Qed.

Example coerce_number_text :
  _coerce_argument (VStr "3.14") (VStr "number") = Ok (VFloat 3.14, true).
Proof. vm_compute. reflexivity. Qed.

Example coerce_boolean_words :
  _coerce_argument (VStr "yes") (VStr "boolean") = Ok (VBool true, true)
  /\ _coerce_argument (VStr "no") (VStr "boolean") = Ok (VBool false, true).
Proof. split; reflexivity. Qed.

Example coerce_number_failure :
  _coerce_argument (VStr "abc") (VStr "number") = Ok (VStr "abc", false).
Proof. reflexivity. Qed.

(** C8. Coercion is idempotent: when [_coerce_argument v t] succeeds with
    the value [v'], coercing [v'] against the same type [t] returns [v']
    unchanged, again with [ok = true]. *)
Theorem coerce_idempotent (v t v' : value) :
  _coerce_argument v t = Ok (v', true) ->
  _coerce_argument v' t = Ok (v', true).
Proof.
  unfold _coerce_argument at 1.
  destruct (_is_type_compatible v t) eqn:Hc.
  - intros H. injection H as ->. unfold _coerce_argument. now rewrite Hc.
  - destruct v; try discriminate.
    destruct (eq_str t "number") eqn:Hn.
    { apply eq_str_true in Hn. subst t.
      destruct (float_of_string s); intros H; inversion H; subst. reflexivity. }
    destruct (eq_str t "integer" && isdigit s) eqn:Hi.
    { apply andb_prop in Hi. destruct Hi as [Hi _].
      apply eq_str_true in Hi. subst t.
      destruct (int_of_digit_string s); simpl; intros H; inversion H; subst.
      reflexivity. }
    destruct (eq_str t "boolean") eqn:Hb; try discriminate.
    apply eq_str_true in Hb. subst t.
    destruct (one_of _ _).
    { intros H; inversion H; subst. reflexivity. }
    destruct (one_of _ _); intros H; inversion H; subst. reflexivity.
Qed.

Lemma coerce_idempotent_witness :
  _coerce_argument (VStr "42") (VStr "integer") = Ok (VInt 42, true)
  /\ _coerce_argument (VInt 42) (VStr "integer") = Ok (VInt 42, true).
Proof.
  split;
    [reflexivity
    | apply (coerce_idempotent (VStr "42") (VStr "integer") (VInt 42));
      reflexivity].
Defined.

(** ** Candidate selection *)

(** C9. When the scores of the two local candidates are equal, the
    pass-2 candidate and its validation are selected; for comparable
    scores the pass-1 candidate is selected only when its score is strictly
    greater, and then it is. *)
Theorem tie_break_prefers_repair (validation_a validation_b : Validation)
  (local_a local_b : LocalResult) (complexity : Complexity) :
  let score_a := _candidate_score validation_a (confidence local_a) complexity in
  let score_b := _candidate_score validation_b (confidence local_b) complexity in
  let chosen := (best_of score_a score_b local_a local_b,
                 best_of score_a score_b validation_a validation_b) in
  (PrimFloat.eqb score_a score_b = true -> chosen = (local_b, validation_b))
  /\ (is_nan score_a = false -> is_nan score_b = false ->
      chosen <> (local_b, validation_b) ->
      PrimFloat.ltb score_b score_a = true)
  /\ (PrimFloat.ltb score_b score_a = true -> chosen = (local_a, validation_a)).
Proof.
  intros score_a score_b chosen. subst chosen. unfold best_of.
  split; [|split].
  - intros H. now rewrite (float_eqb_leb _ _ H).
  - intros Ha Hb Hne. apply float_leb_false_ltb; trivial.
    destruct (PrimFloat.leb score_a score_b); congruence.
  - intros H. now rewrite (float_ltb_leb_false _ _ H).
Qed.

Lemma tie_break_prefers_repair_witness :
  let single := complexity_of "single_intent" in
  let score c := _candidate_score clean_validation c single in
  (best_of (score 0.9%float) (score 0.9%float)
     (sample_candidate 4 0.9) (sample_candidate 3 0.9)
   = sample_candidate 3 0.9)
  /\ PrimFloat.ltb (score 0.9%float) (score 0.95%float) = true.
Proof.
  intros single score. split.
  - apply (f_equal fst
             (proj1 (tie_break_prefers_repair clean_validation clean_validation
                       (sample_candidate 4 0.9) (sample_candidate 3 0.9) single)
                eq_refl)).
  - apply (proj1 (proj2 (tie_break_prefers_repair
                           clean_validation clean_validation
                           (sample_candidate 4 0.95) (sample_candidate 3 0.9)
                           single))).
    + reflexivity.
    + reflexivity.
    + intros H.
      apply (f_equal (fun p => List.length (function_calls (fst p)))) in H.
      vm_compute in H. discriminate H.
Defined.

(** ** Fallback decision policy *)

(** A zero is below the high-amount bound, so reading a zero amount as
    "no amount" does not change the risk test. *)
Lemma float_zero_not_high (a : float) :
  PrimFloat.eqb a 0 = true -> PrimFloat.leb 500 a = false.
Proof.
  rewrite eqb_spec, leb_spec. unfold SFeqb, SFleb.
  destruct (Prim2SF a) as [s|s| |s m e]; try (destruct s); cbn;
    try reflexivity; try discriminate.
Qed.

Lemma high_amount_or_zero (a : float) :
  PrimFloat.leb 500 (if PrimFloat.eqb a 0 then 0%float else a)
  = PrimFloat.leb 500 a.
Proof.
  destruct (PrimFloat.eqb a 0) eqn:E; [|reflexivity].
  now rewrite (float_zero_not_high a E).
Qed.

(** C3. The fallback policy answers true when the validation is invalid,
    and when the request is multi-intent with fewer than two calls;
    otherwise it answers [confidence < floor], where the floor is 0.995
    when the amount is at least 500, or [new_payee] or [first_time_payee]
    holds, or [biometric_strong] does not, and 0.96 otherwise.  The amount
    is the ["amount"] entry of the payment context: 0.0 when there is
    none, the entry itself when it is a float, its value when it is an
    integer.  An amount of at least 500 alone gives the floor 0.995, and
    so does amount 750 with [new_payee] set; the caller's confidence
    threshold is no input of the policy. *)
Theorem needs_cloud_fallback_policy (local_result : LocalResult)
  (validation : Validation) (complexity : Complexity) (payment_context : dict) :
  (valid validation = false ->
   _needs_cloud_fallback local_result validation complexity payment_context
   = Ok true)
  /\ (label complexity = "multi_intent" ->
      List.length (function_calls local_result) < 2 ->
      _needs_cloud_fallback local_result validation complexity payment_context
      = Ok true)
  /\ (valid validation = true ->
      under_decomposed local_result complexity = false ->
      (dict_lookup payment_context "amount" = None ->
       _needs_cloud_fallback local_result validation complexity payment_context
       = Ok (PrimFloat.ltb (confidence local_result)
               (spec_floor (spec_high_risk 0 payment_context))))
      /\ (forall amount : float,
            dict_lookup payment_context "amount" = Some (VFloat amount) ->
            _needs_cloud_fallback local_result validation complexity
              payment_context
            = Ok (PrimFloat.ltb (confidence local_result)
                    (spec_floor (spec_high_risk amount payment_context))))
      /\ (forall n : Z,
            dict_lookup payment_context "amount" = Some (VInt n) ->
            is_infinity (float_of_Z n) = false ->
            _needs_cloud_fallback local_result validation complexity
              payment_context
            = Ok (PrimFloat.ltb (confidence local_result)
                    (spec_floor
                       (spec_high_risk (float_of_Z n) payment_context))))
      /\ (forall amount : float,
            dict_lookup payment_context "amount" = Some (VFloat amount) ->
            PrimFloat.leb 500 amount = true ->
            _needs_cloud_fallback local_result validation complexity
              payment_context
            = Ok (PrimFloat.ltb (confidence local_result) 0.995%float))
      /\ (dict_lookup payment_context "amount" = Some (VFloat 750) ->
          truthy (dict_get payment_context "new_payee" VNone) = true ->
          _needs_cloud_fallback local_result validation complexity
            payment_context
          = Ok (PrimFloat.ltb (confidence local_result) 0.995%float))).
Proof.
  split; [|split].
  - unfold _needs_cloud_fallback. intros ->. reflexivity.
  - unfold _needs_cloud_fallback. intros Hl Hn.
    destruct (valid validation); simpl; trivial.
    rewrite Hl. simpl. apply Nat.ltb_lt in Hn. now rewrite Hn.
  - unfold under_decomposed. intros Hv Hu.
    assert (Hgen : forall amount : float,
              context_amount payment_context = Ok amount ->
              _needs_cloud_fallback local_result validation complexity
                payment_context
              = Ok (PrimFloat.ltb (confidence local_result)
                      (spec_floor (spec_high_risk amount payment_context)))).
    { intros amount Ha. unfold _needs_cloud_fallback.
      rewrite Hv, Hu, Ha. simpl.
      unfold spec_high_risk, spec_floor, context_new_payee, context_weak_auth.
      now rewrite truthy_py_or, orb_assoc. }
    assert (Hfloat : forall amount : float,
              dict_lookup payment_context "amount" = Some (VFloat amount) ->
              _needs_cloud_fallback local_result validation complexity
                payment_context
              = Ok (PrimFloat.ltb (confidence local_result)
                      (spec_floor (spec_high_risk amount payment_context)))).
    { intros amount Hl.
      rewrite (Hgen (if PrimFloat.eqb amount 0 then 0%float else amount)).
      - unfold spec_high_risk. now rewrite high_amount_or_zero.
      - unfold context_amount, dict_get, py_or. rewrite Hl. cbn [truthy].
        destruct (PrimFloat.eqb amount 0); reflexivity. }
    split; [|split; [exact Hfloat|split; [|split]]].
    + intros Hl. apply Hgen. unfold context_amount, dict_get. rewrite Hl.
      reflexivity.
    + intros n Hl Hfin.
      destruct (Z.eqb_spec n 0) as [->|Hn].
      * rewrite (Hgen 0%float); [reflexivity|].
        unfold context_amount, dict_get. rewrite Hl. reflexivity.
      * apply Hgen. unfold context_amount, dict_get, py_or. rewrite Hl.
        cbn [truthy]. apply Z.eqb_neq in Hn. rewrite Hn. cbn [negb py_float].
        now rewrite Hfin.
    + intros amount Hl Hhigh. rewrite (Hfloat amount Hl).
      unfold spec_high_risk. now rewrite Hhigh.
    + intros Hl Hn. rewrite (Hfloat _ Hl).
      unfold spec_high_risk. now rewrite Hn, !orb_true_r.
Qed.

Lemma needs_cloud_fallback_policy_witness :
  _needs_cloud_fallback (sample_candidate 4 0.999) flawed_validation
    (complexity_of "single_intent") [] = Ok true
  /\ _needs_cloud_fallback (sample_candidate 1 0.999) clean_validation
       (complexity_of "multi_intent") [] = Ok true
  /\ _needs_cloud_fallback (sample_candidate 4 0.97) clean_validation
       (complexity_of "multi_intent") [] = Ok false
  /\ _needs_cloud_fallback (sample_candidate 4 0.99) clean_validation
       (complexity_of "single_intent") [("amount", VFloat 750)] = Ok true
  /\ _needs_cloud_fallback (sample_candidate 4 0.99) clean_validation
       (complexity_of "single_intent") [("amount", VFloat 499.99)] = Ok false
  /\ _needs_cloud_fallback (sample_candidate 4 0.99) clean_validation
       (complexity_of "single_intent") [("amount", VInt 500)] = Ok true
  /\ _needs_cloud_fallback (sample_candidate 4 0.99) clean_validation
       (complexity_of "single_intent")
       [("amount", VFloat 750); ("new_payee", VBool true)] = Ok true.
Proof.
  split; [|split; [|split; [|split; [|split; [|split]]]]].
  - apply (proj1 (needs_cloud_fallback_policy
                    (sample_candidate 4 0.999) flawed_validation
                    (complexity_of "single_intent") [])).
    reflexivity.
  - apply (proj1 (proj2 (needs_cloud_fallback_policy
                           (sample_candidate 1 0.999) clean_validation
                           (complexity_of "multi_intent") []))).
    + reflexivity.
    + simpl. lia.
  - rewrite (proj1 (proj2 (proj2 (needs_cloud_fallback_policy
                                    (sample_candidate 4 0.97) clean_validation
                                    (complexity_of "multi_intent") []))
                      eq_refl eq_refl) eq_refl).
    reflexivity.
  - rewrite (proj1 (proj2 (proj2 (proj2 (proj2 (proj2
               (needs_cloud_fallback_policy
                  (sample_candidate 4 0.99) clean_validation
                  (complexity_of "single_intent") [("amount", VFloat 750)]))
               eq_refl eq_refl)))) 750%float eq_refl eq_refl).
    reflexivity.
  - rewrite (proj1 (proj2 (proj2 (proj2
               (needs_cloud_fallback_policy
                  (sample_candidate 4 0.99) clean_validation
                  (complexity_of "single_intent") [("amount", VFloat 499.99)]))
               eq_refl eq_refl)) 499.99%float eq_refl).
    reflexivity.
  - rewrite (proj1 (proj2 (proj2 (proj2 (proj2
               (needs_cloud_fallback_policy
                  (sample_candidate 4 0.99) clean_validation
                  (complexity_of "single_intent") [("amount", VInt 500)]))
               eq_refl eq_refl))) 500%Z eq_refl eq_refl).
    reflexivity.
  - rewrite (proj2 (proj2 (proj2 (proj2 (proj2 (proj2
               (needs_cloud_fallback_policy
                  (sample_candidate 4 0.99) clean_validation
                  (complexity_of "single_intent")
                  [("amount", VFloat 750); ("new_payee", VBool true)]))
               eq_refl eq_refl)))) eq_refl eq_refl).
    reflexivity.
Defined.

(** ** Complexity estimator *)

(** *** What a match of a pattern consumes *)

Lemma many_inv {A : Type} (p : ascii -> bool) (k : Regex.position -> option A)
  (x : A) (rest : list ascii) :
  forall (lo : nat) (hi : option nat) (prev : option ascii),
    Regex.many p lo hi prev rest k = Some x ->
    exists (taken rest' : list ascii) (prev' : option ascii),
      rest = (taken ++ rest')%list
      /\ forallb p taken = true
      /\ lo <= List.length taken
      /\ k (prev', rest') = Some x.
Proof.
  induction rest as [|c rest IH]; intros lo hi prev H.
  - cbn in H. destruct lo; [|discriminate].
    exists [], [], prev. repeat split; trivial.
  - cbn [Regex.many] in H.
    assert (Hstop : match lo with
                    | O => k (prev, c :: rest)
                    | S _ => None
                    end = Some x ->
              exists (taken rest' : list ascii) (prev' : option ascii),
                c :: rest = (taken ++ rest')%list
                /\ forallb p taken = true
                /\ lo <= List.length taken
                /\ k (prev', rest') = Some x).
    { destruct lo; [|discriminate]. intros Hk.
      exists [], (c :: rest), prev. repeat split; trivial. }
    destruct (p c && negb match hi with Some O => true | _ => false end)
      eqn:Hc; [|now apply Hstop].
    unfold Regex.or_else in H.
    destruct (Regex.many p (Nat.pred lo) (option_map Nat.pred hi) (Some c)
                rest k) as [y|] eqn:Hm; [|now apply Hstop].
    injection H as ->.
    destruct (IH _ _ _ Hm) as [taken [rest' [prev' [-> [Hp [Hlo Hk]]]]]].
    apply andb_prop in Hc. destruct Hc as [Hc _].
    exists (c :: taken), rest', prev'. cbn. rewrite Hc, Hp.
    repeat split; trivial. lia.
Qed.

Lemma forallb_weaken {A : Type} (p q : A -> bool) (l : list A) :
  (forall x, p x = true -> q x = true) ->
  forallb p l = true -> forallb q l = true.
Proof.
  intros H. induction l as [|x l IH]; cbn; [reflexivity|].
  intros Hp. apply andb_prop in Hp. destruct Hp as [Hx Hl].
  now rewrite (H x Hx), (IH Hl).
Qed.

(** What a successful run has consumed. *)
Lemma run_inv {A : Type} (r : Regex.regex) :
  forall (pos : Regex.position) (cap : option (list ascii))
         (k : Regex.position -> option (list ascii) -> option A) (x : A),
    Regex.run r pos cap k = Some x ->
    exists (matched : list ascii) (pos' : Regex.position)
           (cap' : option (list ascii)),
      snd pos = (matched ++ snd pos')%list
      /\ forallb (admits r) matched = true
      /\ k pos' cap' = Some x.
Proof.
  induction r as [c|p|p lo hi|r1 IH1 r2 IH2|r1 IH1 r2 IH2|r1 IH1| |r1 IH1];
    intros pos cap k x H; cbn [Regex.run] in H.
  - destruct (snd pos) as [|d rest] eqn:E; [discriminate|].
    destruct (Ascii.eqb c d) eqn:Ec; [|discriminate].
    exists [d], (Some d, rest), cap. cbn. now rewrite Ec.
  - destruct (snd pos) as [|d rest] eqn:E; [discriminate|].
    destruct (p d) eqn:Ep; [|discriminate].
    exists [d], (Some d, rest), cap. cbn. now rewrite Ep.
  - apply many_inv in H.
    destruct H as [taken [rest' [prev' [E [Hp [_ Hk]]]]]].
    exists taken, (prev', rest'), cap. auto.
  - apply IH1 in H. destruct H as [m1 [pos1 [cap1 [E1 [H1 H]]]]].
    apply IH2 in H. destruct H as [m2 [pos2 [cap2 [E2 [H2 H]]]]].
    exists (m1 ++ m2)%list, pos2, cap2. split; [|split; [|exact H]].
    + now rewrite E1, E2, app_assoc.
    + rewrite forallb_app. cbn [admits].
      rewrite (forallb_weaken (admits r1) _ m1);
        [|intros c ->; reflexivity|exact H1].
      rewrite (forallb_weaken (admits r2) _ m2); [reflexivity| |exact H2].
      intros c ->. apply orb_true_r.
  - unfold Regex.or_else in H.
    destruct (Regex.run r1 pos cap k) as [y|] eqn:E.
    + injection H as ->. apply IH1 in E.
      destruct E as [m [pos' [cap' [E1 [H1 H]]]]].
      exists m, pos', cap'. split; [exact E1|]. split; [|exact H].
      cbn [admits]. apply (forallb_weaken (admits r1)); [|exact H1].
      intros c ->. reflexivity.
    + apply IH2 in H. destruct H as [m [pos' [cap' [E1 [H1 H]]]]].
      exists m, pos', cap'. split; [exact E1|]. split; [|exact H].
      cbn [admits]. apply (forallb_weaken (admits r2)); [|exact H1].
      intros c ->. apply orb_true_r.
  - unfold Regex.or_else in H.
    destruct (Regex.run r1 pos cap k) as [y|] eqn:E.
    + injection H as ->. apply IH1 in E.
      destruct E as [m [pos' [cap' [E1 [H1 H]]]]].
      exists m, pos', cap'. auto.
    + exists [], pos, cap. auto.
  - destruct (Regex.at_word_boundary pos); [|discriminate].
    exists [], pos, cap. auto.
  - apply IH1 in H. destruct H as [m [pos' [cap' [E1 [H1 H]]]]].
    eexists m, pos', _. split; [exact E1|]. split; [exact H1|exact H].
Qed.

Lemma run_alt {A : Type} (r1 r2 : Regex.regex) (pos : Regex.position)
  (cap : option (list ascii))
  (k : Regex.position -> option (list ascii) -> option A) :
  Regex.run (Regex.Alt r1 r2) pos cap k
  = Regex.or_else (Regex.run r1 pos cap k) (Regex.run r2 pos cap k).
Proof. reflexivity. Qed.

Lemma run_seq_lit {A : Type} (c : ascii) (r : Regex.regex)
  (pos : Regex.position) (cap : option (list ascii))
  (k : Regex.position -> option (list ascii) -> option A) :
  Regex.run (Regex.Seq (Regex.Lit c) r) pos cap k
  = match snd pos with
    | d :: rest =>
        if Ascii.eqb c d then Regex.run r (Some d, rest) cap k else None
    | [] => None
    end.
Proof. reflexivity. Qed.

(** *** Money mentions *)

Lemma money_mention_no_dollar (c : ascii) :
  admits (Regex.Seq (Regex.Many is_space 0 None) (Regex.Many is_decimal 1 None))
    c = true
  \/ admits (Regex.Seq Regex.WordBoundary
       (Regex.Seq (Regex.Many is_decimal 1 None)
          (Regex.Seq (Regex.Many is_space 0 None)
             (Regex.Seq (Regex.Group
                           (Regex.Alt (Regex.lits "usd")
                              (Regex.Seq (Regex.lits "dollar")
                                 (Regex.Opt (Regex.Lit "s")))))
                Regex.WordBoundary)))) c = true ->
  negb (Ascii.eqb c "$") = true.
Proof.
  destruct (Ascii.eqb_spec c "$") as [->|_]; [|reflexivity].
  intros [H|H]; vm_compute in H; discriminate H.
Qed.

(** A money mention holds no dollar sign after its first character. *)
Lemma money_mention_tail (prev : option ascii) (rest : list ascii)
  (pos' : Regex.position) (cap : option (list ascii)) :
  Regex.match_at Regex.money_mention (prev, rest) = Some (pos', cap) ->
  exists matched : list ascii,
    rest = (matched ++ snd pos')%list
    /\ forallb (fun c => negb (Ascii.eqb c "$")) (tl matched) = true.
Proof.
  unfold Regex.match_at, Regex.money_mention. rewrite run_alt.
  match goal with
  | |- Regex.or_else ?a _ = _ -> _ => destruct a as [y|] eqn:E1
  end; unfold Regex.or_else.
  - intros H. injection H as ->. rewrite run_seq_lit in E1. cbn [snd] in E1.
    destruct rest as [|d rest1]; [discriminate|].
    destruct (Ascii.eqb "$" d); [|discriminate].
    apply run_inv in E1. destruct E1 as [m [p2 [c2 [E [Hm Hk]]]]].
    injection Hk as <- _. cbn [snd] in E.
    exists (d :: m). split; [now rewrite E|]. cbn [tl].
    apply (forallb_weaken _ _ m
             (fun c H => money_mention_no_dollar c (or_introl H))).
    exact Hm.
  - intros H.
    apply run_inv in H. destruct H as [m [p2 [c2 [E [Hm Hk]]]]].
    injection Hk as <- _. cbn [snd] in E.
    exists m. split; [exact E|].
    assert (Hall : forallb (fun c => negb (Ascii.eqb c "$")) m = true).
    { apply (forallb_weaken _ _ m
               (fun c H => money_mention_no_dollar c (or_intror H))).
      exact Hm. }
    destruct m as [|a m]; [reflexivity|]. cbn [tl].
    cbn in Hall. now apply andb_prop in Hall.
Qed.

Lemma decimal_not_space (d : ascii) :
  is_decimal d = true -> is_space d = false.
Proof.
  destruct d as [[] [] [] [] [] [] [] []]; cbv; intros H;
    try discriminate H; reflexivity.
Qed.

Lemma many_unbounded_total {A : Type} (p : ascii -> bool)
  (k : Regex.position -> option A) (rest : list ascii) :
  (forall pos, k pos <> None) ->
  forall prev : option ascii, Regex.many p 0 None prev rest k <> None.
Proof.
  intros Hk. induction rest as [|c rest IH]; intros prev; cbn [Regex.many].
  - apply Hk.
  - destruct (p c && negb false); [|apply Hk].
    unfold Regex.or_else. cbn [Nat.pred option_map].
    destruct (Regex.many p 0 None (Some c) rest k) eqn:E;
      [discriminate | apply Hk].
Qed.

(** A dollar sign directly followed by a digit starts a money mention. *)
Lemma money_mention_at_dollar (prev : option ascii) (d : ascii)
  (rest : list ascii) :
  is_decimal d = true ->
  Regex.match_at Regex.money_mention (prev, "$"%char :: d :: rest) <> None.
Proof.
  intros Hd. unfold Regex.match_at, Regex.money_mention.
  cbn [Regex.run snd fst]. unfold Regex.or_else at 1.
  match goal with
  | |- match ?a with Some _ => ?a | None => _ end <> None =>
      assert (Hsome : a <> None); [|destruct a; [discriminate | contradiction]]
  end.
  change (Ascii.eqb "$" "$") with true. cbv iota.
  cbn [Regex.many]. rewrite (decimal_not_space d Hd). cbn [andb].
  cbn [fst snd Regex.many]. rewrite Hd. cbn [andb negb].
  unfold Regex.or_else. cbn [Nat.pred option_map].
  match goal with
  | |- match ?a with Some _ => ?a | None => _ end <> None =>
      assert (Hm : a <> None);
        [apply many_unbounded_total; discriminate
        |destruct a; [discriminate | contradiction]]
  end.
Qed.

Lemma dollar_digit_pairs_cons (c : ascii) (l : list ascii) :
  dollar_digit_pairs (c :: l) <= S (dollar_digit_pairs l).
Proof.
  cbn [dollar_digit_pairs]. destruct l as [|d l]; [lia|].
  destruct (Ascii.eqb c "$" && is_decimal d); lia.
Qed.

Lemma dollar_digit_pairs_other (c : ascii) (l : list ascii) :
  Ascii.eqb c "$" = false ->
  dollar_digit_pairs (c :: l) = dollar_digit_pairs l.
Proof.
  intros H. cbn [dollar_digit_pairs]. rewrite H.
  destruct l; reflexivity.
Qed.

(** [findall] counts at least the dollar signs directly followed by a
    digit: no earlier match can swallow one of them. *)
Lemma money_count_lower_bound (rest : list ascii) :
  forall (prev : option ascii) (skip : nat),
    forallb (fun c => negb (Ascii.eqb c "$")) (firstn skip rest) = true ->
    dollar_digit_pairs rest
    <= Regex.count_from Regex.money_mention prev rest skip.
Proof.
  induction rest as [|c rest IH]; intros prev skip Hskip.
  - cbn. lia.
  - destruct skip as [|skip].
    + cbn [Regex.count_from].
      destruct (Regex.match_at Regex.money_mention (prev, c :: rest))
        as [[[p' rest_after] cap]|] eqn:Hm.
      * destruct (money_mention_tail _ _ _ _ Hm) as [matched [E Htl]].
        cbn [snd] in E.
        pose proof (dollar_digit_pairs_cons c rest) as Hc.
        destruct matched as [|m matched].
        -- cbn [app] in E. subst rest_after.
           rewrite Nat.sub_diag. cbn [Nat.pred].
           specialize (IH (Some c) 0 eq_refl). lia.
        -- cbn [app tl] in E, Htl. injection E as <- ->.
           replace (Nat.pred (List.length (c :: matched ++ rest_after)
                              - List.length rest_after))
             with (List.length matched)
             by (cbn [List.length]; rewrite length_app; lia).
           assert (Hs : forallb (fun c => negb (Ascii.eqb c "$"))
                          (firstn (List.length matched)
                             (matched ++ rest_after)) = true).
           { rewrite firstn_app, Nat.sub_diag, firstn_all. cbn [firstn].
             now rewrite app_nil_r. }
           specialize (IH (Some c) _ Hs). lia.
      * specialize (IH (Some c) 0 eq_refl).
        destruct (Ascii.eqb c "$") eqn:Ec.
        -- apply Ascii.eqb_eq in Ec. subst c.
           destruct rest as [|d rest']; [cbn; lia|].
           destruct (is_decimal d) eqn:Ed.
           ++ exfalso. now apply (money_mention_at_dollar prev d rest' Ed).
           ++ cbn [dollar_digit_pairs] in *.
              change (Ascii.eqb "$" "$") with true. rewrite Ed.
              cbn [andb]. exact IH.
        -- now rewrite (dollar_digit_pairs_other c rest Ec).
    + cbn [firstn forallb] in Hskip. apply andb_prop in Hskip.
      destruct Hskip as [Hc Hrest]. apply negb_true_iff in Hc.
      cbn [Regex.count_from].
      rewrite (dollar_digit_pairs_other c rest Hc).
      now apply IH.
Qed.

Lemma money_mentions_lower_bound (t : string) :
  dollar_mentions t <= money_mentions t.
Proof.
  unfold dollar_mentions, money_mentions, Regex.findall_count.
  now apply money_count_lower_bound.
Qed.

Lemma count_punctuation_chars (t : string) :
  count_punctuation t = commas_and_semicolons t.
Proof.
  unfold count_punctuation, count_char, commas_and_semicolons.
  induction (chars t) as [|c l IH]; [reflexivity|].
  cbn [filter]. rewrite (Ascii.eqb_sym "," c), (Ascii.eqb_sym ";" c).
  destruct (Ascii.eqb_spec c ",") as [->|Hc].
  - cbn [orb List.length] in *. change (Ascii.eqb "," ";") with false.
    cbv iota. lia.
  - destruct (Ascii.eqb c ";"); cbn [orb List.length] in *; lia.
Qed.

Lemma count_signals_tokens (t : string) :
  count_signals t
  = token_hit " and " t + token_hit " then " t + token_hit " after that " t
    + token_hit " also " t + token_hit " plus " t + token_hit " while " t.
Proof.
  unfold count_signals, signals, token_hit. cbn [filter].
  destruct (contains " and " t), (contains " then " t),
    (contains " after that " t), (contains " also " t),
    (contains " plus " t), (contains " while " t); reflexivity.
Qed.

(** C7. The label is [multi_intent] exactly when the lowercased user text
    has two or more signal tokens, or two or more commas and semicolons,
    or more than one money mention, and [single_intent] otherwise.  The
    signal hits are the tokens of the list that occur in the text, each
    counted once; the punctuation hits are its commas and semicolons; the
    money mentions are at least the dollar signs directly followed by a
    digit, so two of those make the text [multi_intent].  A message with
    one signal token, one comma and one dollar mention is
    [single_intent], and a second signal token, a second comma or a second
    money mention (written with a dollar sign or with "usd") makes it
    [multi_intent]. *)
Theorem estimate_complexity_thresholds :
  (forall (messages : list value) (joined : string),
     user_text messages = Ok joined ->
     let t := lower joined in
     exists c : Complexity,
       _estimate_complexity messages = Ok c
       /\ signal_hits c
          = token_hit " and " t + token_hit " then " t
            + token_hit " after that " t + token_hit " also " t
            + token_hit " plus " t + token_hit " while " t
       /\ punctuation_hits c = commas_and_semicolons t
       /\ (label c = "multi_intent" <->
           2 <= signal_hits c \/ 2 <= punctuation_hits c
           \/ 1 < money_mentions t)
       /\ (label c = "single_intent" <->
           ~ (2 <= signal_hits c \/ 2 <= punctuation_hits c
              \/ 1 < money_mentions t))
       /\ (signal_hits c = 1 -> punctuation_hits c = 1 ->
           money_mentions t = 1 -> label c = "single_intent")
       /\ (signal_hits c = 2 \/ punctuation_hits c = 2
           \/ money_mentions t = 2 -> label c = "multi_intent")
       /\ dollar_mentions t <= money_mentions t
       /\ (2 <= dollar_mentions t -> label c = "multi_intent"))
  /\ (money_mentions (lower one_of_each) = 1
      /\ _estimate_complexity (user_message one_of_each)
         = Ok {| label := "single_intent"; signal_hits := 1;
                 punctuation_hits := 1 |})
  /\ (money_mentions (lower second_signal) = 1
      /\ _estimate_complexity (user_message second_signal)
         = Ok {| label := "multi_intent"; signal_hits := 2;
                 punctuation_hits := 1 |})
  /\ (money_mentions (lower second_comma) = 1
      /\ _estimate_complexity (user_message second_comma)
         = Ok {| label := "multi_intent"; signal_hits := 1;
                 punctuation_hits := 2 |})
  /\ (money_mentions (lower second_dollar) = 2
      /\ _estimate_complexity (user_message second_dollar)
         = Ok {| label := "multi_intent"; signal_hits := 1;
                 punctuation_hits := 1 |})
  /\ (money_mentions (lower second_worded) = 2
      /\ _estimate_complexity (user_message second_worded)
         = Ok {| label := "multi_intent"; signal_hits := 1;
                 punctuation_hits := 1 |}).
Proof.
  split; [|repeat split; vm_compute; reflexivity].
  intros messages joined Hj t. unfold _estimate_complexity. rewrite Hj.
  cbn [bind]. fold t.
  eexists. split; [reflexivity|]. cbn [label signal_hits punctuation_hits].
  split; [apply count_signals_tokens|].
  split; [apply count_punctuation_chars|].
  pose proof (money_mentions_lower_bound t) as Hlow.
  assert (Hm : (Nat.leb 2 (count_signals t) || Nat.leb 2 (count_punctuation t)
                || Nat.ltb 1 (money_mentions t)) = true <->
               2 <= count_signals t \/ 2 <= count_punctuation t
               \/ 1 < money_mentions t).
  { rewrite !orb_true_iff, !Nat.leb_le, Nat.ltb_lt. tauto. }
  destruct (Nat.leb 2 (count_signals t) || Nat.leb 2 (count_punctuation t)
            || Nat.ltb 1 (money_mentions t)) eqn:E.
  - assert (H : 2 <= count_signals t \/ 2 <= count_punctuation t
                \/ 1 < money_mentions t) by now apply Hm.
    split; [split; [intros _; exact H | reflexivity]|].
    split; [split; [discriminate | intros Hn; contradiction]|].
    split; [intros; lia|].
    split; [reflexivity|]. split; [exact Hlow | reflexivity].
  - assert (H : ~ (2 <= count_signals t \/ 2 <= count_punctuation t
                   \/ 1 < money_mentions t)).
    { intros H. apply Hm in H. discriminate. }
    split; [split; [discriminate | intros Hn; contradiction]|].
    split; [split; [intros _; exact H | reflexivity]|].
    split; [reflexivity|].
    split; [intros Hb; exfalso; apply H; lia|].
    split; [exact Hlow|]. intros Hb. exfalso. apply H. lia.
Qed.

Lemma estimate_complexity_thresholds_witness :
  (exists c : Complexity,
     _estimate_complexity (user_message one_of_each) = Ok c
     /\ label c = "single_intent")
  /\ (exists c : Complexity,
        _estimate_complexity (user_message second_signal) = Ok c
        /\ label c = "multi_intent")
  /\ (exists c : Complexity,
        _estimate_complexity (user_message second_comma) = Ok c
        /\ label c = "multi_intent")
  /\ (exists c : Complexity,
        _estimate_complexity (user_message second_dollar) = Ok c
        /\ label c = "multi_intent").
Proof.
  split; [|split; [|split]].
  - destruct (proj1 estimate_complexity_thresholds
                (user_message one_of_each) one_of_each eq_refl)
      as [c [Hc [Hs [Hp [_ [_ [Hsingle _]]]]]]].
    exists c. split; [exact Hc|].
    apply Hsingle; [rewrite Hs | rewrite Hp |]; vm_compute; reflexivity.
  - destruct (proj1 estimate_complexity_thresholds
                (user_message second_signal) second_signal eq_refl)
      as [c [Hc [Hs [Hp [_ [_ [_ [Hmulti _]]]]]]]].
    exists c. split; [exact Hc|].
    apply Hmulti. left. rewrite Hs. vm_compute. reflexivity.
  - destruct (proj1 estimate_complexity_thresholds
                (user_message second_comma) second_comma eq_refl)
      as [c [Hc [Hs [Hp [_ [_ [_ [Hmulti _]]]]]]]].
    exists c. split; [exact Hc|].
    apply Hmulti. right. left. rewrite Hp. vm_compute. reflexivity.
  - destruct (proj1 estimate_complexity_thresholds
                (user_message second_dollar) second_dollar eq_refl)
      as [c [Hc [_ [_ [_ [_ [_ [_ [_ Hdollars]]]]]]]]].
    exists c. split; [exact Hc|].
    apply Hdollars. vm_compute. lia.
Defined.

Example boundary_second_signal :
  _estimate_complexity (user_message "send $5 to Bob and then say thanks, ok")
  = Ok {| label := "multi_intent"; signal_hits := 2; punctuation_hits := 1 |}.
Proof. vm_compute. reflexivity. Qed.

Example boundary_second_comma :
  _estimate_complexity (user_message "send $5 to Bob and say thanks, ok, bye")
  = Ok {| label := "multi_intent"; signal_hits := 1; punctuation_hits := 2 |}.
Proof. vm_compute. reflexivity. Qed.

Example boundary_second_money_mention :
  _estimate_complexity (user_message "send $5 to Bob and $6 to Al, ok")
  = Ok {| label := "multi_intent"; signal_hits := 1; punctuation_hits := 1 |}.
Proof. vm_compute. reflexivity. Qed.

(** A signal token counts once however often it occurs. *)
Example boundary_repeated_signal :
  _estimate_complexity
    (user_message "send $5 to Bob and Al and say thanks, ok")
  = Ok {| label := "single_intent"; signal_hits := 1; punctuation_hits := 1 |}.
Proof. vm_compute. reflexivity. Qed.

Example scenario3_is_multi_intent :
  _estimate_complexity
    (user_message "first pay rent and then also send $20 to Bob")
  = Ok {| label := "multi_intent"; signal_hits := 3; punctuation_hits := 0 |}.
Proof. vm_compute. reflexivity. Qed.

(** ** Payment context extractor *)

Lemma extract_payment_context_shape (messages : list value) (ctx : dict) :
  _extract_payment_context messages None = Ok ctx ->
  exists joined : string,
    user_text messages = Ok joined
    /\ exists amount : option float,
         match Regex.search_group1 Regex.dollar_amount (lower joined) with
         | Some g => float_of_string g = amount /\ amount <> None
         | None => amount = None
         end
         /\ ctx = text_context amount (contains "new payee" (lower joined))
                    (contains "first time" (lower joined)).
Proof.
  unfold _extract_payment_context. intros H.
  apply bind_ok in H. destruct H as [joined [Hj H]].
  exists joined. split; [exact Hj|].
  set (t := lower joined) in *.
  apply bind_ok in H. destruct H as [ctx0 [H0 H]].
  destruct (Regex.search_group1 Regex.dollar_amount t) as [g|].
  - cbn in H0. unfold float_of_group in H0.
    destruct (float_of_string g) as [f|]; [|discriminate H0].
    cbn in H0. inversion H0; subst ctx0; clear H0.
    exists (Some f). split; [split; [reflexivity | discriminate]|].
    destruct (contains "new payee" t), (contains "first time" t);
      cbn in H; inversion H; reflexivity.
  - inversion H0; subst ctx0; clear H0.
    exists None. split; [reflexivity|].
    destruct (contains "new payee" t), (contains "first time" t);
      cbn in H; inversion H; reflexivity.
Qed.

(** A context extracted with no caller context: every entry is derived
    from the user text, there is no [biometric_strong] key, so [weak_auth]
    is false, and the risk test can hold only through a text-derived
    amount of at least 500 or through the phrases "new payee" and
    "first time". *)
Lemma extracted_context_from_text (messages : list value) (ctx : dict) :
  _extract_payment_context messages None = Ok ctx ->
  exists joined : string,
    user_text messages = Ok joined
    /\ (forall k v, dict_lookup ctx k = Some v ->
                    text_derived (lower joined) k v)
    /\ dict_mem ctx "biometric_strong" = false
    /\ context_weak_auth ctx = false
    /\ exists amount : float,
         context_amount ctx = Ok amount
         /\ (PrimFloat.leb 500 amount || context_new_payee ctx
             || context_weak_auth ctx = true ->
             (PrimFloat.leb 500 amount = true
              /\ exists g,
                   Regex.search_group1 Regex.dollar_amount (lower joined)
                   = Some g
                   /\ float_of_string g = Some amount)
             \/ contains "new payee" (lower joined) = true
             \/ contains "first time" (lower joined) = true).
Proof.
  intros H. apply extract_payment_context_shape in H.
  destruct H as [joined [Hj [amount [Ha ->]]]].
  exists joined. split; [exact Hj|].
  set (t := lower joined) in *.
  split.
  { intros k v Hl. unfold text_derived.
    assert (Hsome : forall f, amount = Some f ->
              exists g, Regex.search_group1 Regex.dollar_amount t = Some g
                        /\ float_of_string g = Some f).
    { intros f ->.
      destruct (Regex.search_group1 Regex.dollar_amount t) as [g|];
        [destruct Ha as [Ha _]; eauto | discriminate Ha]. }
    clear Ha.
    destruct amount as [f|];
      [destruct (Hsome f eq_refl) as [g [Hg Hfl]] |]; clear Hsome;
      destruct (contains "new payee" t), (contains "first time" t);
      unfold text_context in Hl; cbn [app dict_lookup] in Hl;
      lookup_cases; eauto 10. }
  split.
  { destruct amount, (contains "new payee" t), (contains "first time" t);
      reflexivity. }
  split.
  { destruct amount, (contains "new payee" t), (contains "first time" t);
      reflexivity. }
  destruct amount as [f|].
  - destruct (Regex.search_group1 Regex.dollar_amount t) as [g|];
      [destruct Ha as [Ha _] | discriminate].
    assert (Hamt : context_amount
                     (text_context (Some f) (contains "new payee" t)
                        (contains "first time" t))
                   = Ok (if PrimFloat.eqb f 0 then 0%float else f)).
    { destruct (contains "new payee" t), (contains "first time" t);
        unfold context_amount, py_or; cbn;
        destruct (PrimFloat.eqb f 0); reflexivity. }
    rewrite Hamt. eexists. split; [reflexivity|].
    destruct (contains "new payee" t); [auto|].
    destruct (contains "first time" t); [auto|].
    cbn. rewrite !orb_false_r.
    destruct (PrimFloat.eqb f 0).
    + intros Hr. vm_compute in Hr. discriminate Hr.
    + intros Hr. left. eauto.
  - exists 0%float. split.
    { destruct (contains "new payee" t), (contains "first time" t);
        reflexivity. }
    destruct (contains "new payee" t); [auto|].
    destruct (contains "first time" t); [auto|].
    intros Hr. vm_compute in Hr. discriminate Hr.
Qed.

(** ** Call validator *)

Lemma check_arguments_spec (name : value) (spec : _ToolSpec) (args : dict) :
  forall issues : list ArgTypeIssue,
    check_arguments name spec args issues =
    (entries <- mapM (spec_argument_issue name spec) args ;;
     Ok (issues ++ List.concat entries)%list).
Proof.
  unfold check_arguments.
  induction args as [|[arg_name arg_value] args IH]; intros issues.
  - cbn. now rewrite app_nil_r.
  - cbn [foldM mapM]. unfold spec_argument_issue at 1.
    cbn [fst snd]. fold (declared_type spec arg_name).
    destruct (_coerce_argument arg_value (declared_type spec arg_name))
      as [[coerced ok]|e]; cbn [bind snd]; [|reflexivity].
    destruct ok; cbn [bind]; rewrite IH;
      destruct (mapM (spec_argument_issue name spec) args); cbn;
      try reflexivity.
    now rewrite <- app_assoc.
Qed.

Lemma validate_step_spec (repr : value -> string) (index : tool_index)
  (acc : Issues) (call : value) :
  validate_step repr index acc call =
  (r <- spec_check_call repr index call ;; Ok (add_report acc r)).
Proof.
  unfold validate_step, spec_check_call.
  destruct (py_get call "name" VNone) as [name|]; cbn [bind]; [|reflexivity].
  destruct (call_arguments call) as [args|]; cbn [bind]; [|reflexivity].
  destruct (index_get index name) as [[spec|]|]; cbn [bind]; [| |reflexivity].
  - destruct (missing_keys (ts_required spec) args) as [missing|];
      cbn [bind]; [|reflexivity].
    rewrite check_arguments_spec.
    destruct (mapM (spec_argument_issue name spec) args) as [entries|];
      cbn [bind]; [|reflexivity].
    unfold add_report. cbn. rewrite app_nil_r.
    destruct missing; cbn; now rewrite ?app_nil_r.
  - destruct (py_str repr name); cbn [bind]; [|reflexivity].
    unfold add_report. cbn. now rewrite !app_nil_r.
Qed.

Lemma validate_loop_spec (repr : value -> string) (index : tool_index)
  (calls : list value) :
  forall acc : Issues,
    foldM (validate_step repr index) calls acc =
    (reports <- mapM (spec_check_call repr index) calls ;;
     Ok (fold_left add_report reports acc)).
Proof.
  induction calls as [|call calls IH]; intros acc; [reflexivity|].
  cbn [foldM mapM]. rewrite validate_step_spec.
  destruct (spec_check_call repr index call) as [r|]; cbn [bind];
    [|reflexivity].
  rewrite IH.
  destruct (mapM (spec_check_call repr index) calls); reflexivity.
Qed.

Lemma fold_add_report (reports : list CallReport) :
  forall acc : Issues,
    fold_left add_report reports acc =
    {| acc_unknown_tool :=
         (acc_unknown_tool acc ++ flat_map rep_unknown_tool reports)%list;
       acc_missing_required :=
         (acc_missing_required acc
          ++ flat_map rep_missing_required reports)%list;
       acc_arg_type_issues :=
         (acc_arg_type_issues acc
          ++ flat_map rep_arg_type_issues reports)%list |}.
Proof.
  induction reports as [|r reports IH]; intros acc; cbn.
  - rewrite !app_nil_r. now destruct acc.
  - rewrite IH. cbn. now rewrite <- !app_assoc.
Qed.

Lemma validate_valid_iff (repr : value -> string) (calls tools : list value)
  (v : Validation) :
  _validate_calls repr calls tools = Ok v ->
  (valid v = true <->
   unknown_tool v = [] /\ missing_required v = [] /\ arg_type_issues v = []).
Proof.
  unfold _validate_calls. intros H.
  apply bind_ok in H. destruct H as [index [_ H]].
  apply bind_ok in H. destruct H as [acc [_ H]].
  inversion H; subst v; clear H. cbn.
  rewrite !andb_true_iff, !is_empty_true. tauto.
Qed.

Lemma missing_keys_filter (required : list value) (args : dict) :
  forallb hashable required = true ->
  missing_keys required args
  = Ok (filter (fun key => negb (key_present args key)) required).
Proof.
  induction required as [|key required IH]; [reflexivity|].
  cbn [forallb missing_keys filter]. intros H.
  apply andb_prop in H. destruct H as [Hk H].
  rewrite (IH H).
  destruct key; try discriminate Hk; cbn; try reflexivity.
  now destruct (dict_mem args s).
Qed.

(** C6. The validator checks every call: its result is assembled from
    one report per call, in call order.  A call naming an unknown tool
    contributes its name to [unknown_tool] and nothing else; a known one
    contributes [{tool, missing}] when required keys are absent (the
    required keys minus the present ones) and one [arg_type_issues] entry
    per argument that fails coercion against its declared type.  [valid]
    holds exactly when the three collections are empty. *)
Theorem validate_calls_checks_every_call (repr : value -> string)
  (calls tools : list value) :
  _validate_calls repr calls tools =
  (index <- _tool_index tools ;;
   reports <- mapM (spec_check_call repr index) calls ;;
   Ok (spec_validation reports))
  /\ (forall v : Validation,
        _validate_calls repr calls tools = Ok v ->
        (valid v = true <->
         unknown_tool v = [] /\ missing_required v = []
         /\ arg_type_issues v = []))
  /\ (forall (required : list value) (args : dict),
        forallb hashable required = true ->
        missing_keys required args
        = Ok (filter (fun key => negb (key_present args key)) required)).
Proof.
  split; [|split].
  - unfold _validate_calls.
    destruct (_tool_index tools) as [index|]; cbn [bind]; [|reflexivity].
    rewrite validate_loop_spec.
    destruct (mapM (spec_check_call repr index) calls) as [reports|];
      cbn [bind]; [|reflexivity].
    rewrite fold_add_report. reflexivity.
  - intros v. apply validate_valid_iff.
  - apply missing_keys_filter.
Qed.

Lemma validate_calls_checks_every_call_witness :
  _validate_calls plain_repr sample_calls PAYMENT_TOOLS
  = Ok {| valid := false;
          missing_required :=
            [{| mr_tool := VStr "create_payment_intent";
                mr_missing := [VStr "currency"; VStr "payee"] |}];
          unknown_tool := ["transfer_funds"];
          arg_type_issues :=
            [{| ati_tool := VStr "confirm_payment";
                ati_argument := "confirm";
                ati_expected_type := VStr "boolean";
                ati_actual_type := "str" |}] |}
  /\ missing_keys [VStr "amount"; VStr "currency"; VStr "payee"]
       [("amount", VStr "12.5")]
     = Ok [VStr "currency"; VStr "payee"].
Proof.
  split.
  - rewrite (proj1 (validate_calls_checks_every_call plain_repr sample_calls
                      PAYMENT_TOOLS)).
    vm_compute. reflexivity.
  - rewrite (proj2 (proj2 (validate_calls_checks_every_call plain_repr
                             sample_calls PAYMENT_TOOLS))
               [VStr "amount"; VStr "currency"; VStr "payee"]
               [("amount", VStr "12.5")] eq_refl).
    reflexivity.
Defined.

Example validate_matching_calls :
  _validate_calls plain_repr (payment_plan "Alice" 20) PAYMENT_TOOLS
  = Ok clean_validation.
Proof. vm_compute. reflexivity. Qed.

(** ** Malformed input *)

(** Shapes the guards of the program absorb. *)
Example malformed_shapes_absorbed :
  _tool_index [VInt 7; VDict [("function", VDict [("name", VStr "t");
                                                  ("parameters", VStr "?")])]]
  = Ok [(VStr "t", {| ts_name := VStr "t"; ts_properties := [];
                     ts_required := [] |})]
  /\ call_arguments (VDict [("name", VStr "t"); ("arguments", VInt 3)]) = Ok [].
Proof. split; reflexivity. Qed.

(** C5. Exceptions do propagate: a tool descriptor whose ["function"]
    entry is no mapping, a call-list entry that is no mapping, a call
    whose name is a list, and an integer argument written with a
    superscript digit each make the planning functions raise. *)
Theorem malformed_input_raises (repr : value -> string)
  (perf_counter : nat -> float) (getenv : string -> option string)
  (json_loads : string -> option value) :
  _tool_index stray_function_tools = Raise AttributeError
  /\ _normalize_calls [] stray_function_tools = Raise AttributeError
  /\ _validate_calls repr [] stray_function_tools = Raise AttributeError
  /\ generate_hybrid repr perf_counter getenv json_loads
       (user_message "send $20 to Alice") stray_function_tools 0.99
     = Raise AttributeError
  /\ _normalize_calls [VInt 1] PAYMENT_TOOLS = Raise AttributeError
  /\ _validate_calls repr [VInt 1] PAYMENT_TOOLS = Raise AttributeError
  /\ _validate_calls repr [mk_call (VList []) []] PAYMENT_TOOLS
     = Raise TypeError
  /\ _coerce_argument (VStr (String "178"%char "")) (VStr "integer")
     = Raise ValueError.
Proof.
  repeat split; vm_compute; reflexivity.
Qed.

(** ** Routing orchestrator *)

(** [generate_hybrid], stage by stage. *)
Lemma generate_hybrid_stages (repr : value -> string)
  (perf_counter : nat -> float) (getenv : string -> option string)
  (json_loads : string -> option value)
  (messages tools : list value) (threshold : float) :
  generate_hybrid repr perf_counter getenv json_loads messages tools threshold =
  (payment_context <- _extract_payment_context messages None ;;
   complexity <- _estimate_complexity messages ;;
   pass_a <- local_pass repr perf_counter 1 messages tools 2 false
               complexity payment_context ;;
   let '(local_a, validation_a, fallback_a) := pass_a in
   if pass1_accepts threshold local_a fallback_a
   then Ok (pass1_decision perf_counter local_a validation_a)
   else
     pass_b <- local_pass repr perf_counter 3 messages tools 0 true
                 complexity payment_context ;;
     let '(local_b, validation_b, fallback_b) := pass_b in
     let score_a :=
       _candidate_score validation_a (confidence local_a) complexity in
     let score_b :=
       _candidate_score validation_b (confidence local_b) complexity in
     if pass2_accepts threshold complexity local_a validation_a
          local_b validation_b fallback_b
     then Ok (pass2_decision perf_counter local_a local_b
                (best_of score_a score_b local_a local_b)
                (best_of score_a score_b validation_a validation_b))
     else cloud_stage repr perf_counter getenv json_loads messages tools
            local_a local_b).
Proof.
  unfold generate_hybrid, local_pass.
  destruct (_extract_payment_context messages None) as [ctx|]; cbn [bind];
    [|reflexivity].
  destruct (_estimate_complexity messages) as [cx|]; cbn [bind];
    [|reflexivity].
  destruct (_call_local_planner perf_counter 1 messages tools 2 false)
    as [la|]; cbn [bind]; [|reflexivity].
  destruct (_normalize_calls (function_calls la) tools) as [ca|]; cbn [bind];
    [|reflexivity].
  destruct (_validate_calls repr
              (function_calls (set_function_calls la ca)) tools)
    as [va|]; cbn [bind]; [|reflexivity].
  destruct (_needs_cloud_fallback (set_function_calls la ca) va cx ctx)
    as [fa|]; cbn [bind]; [|reflexivity].
  unfold pass1_accepts.
  destruct (negb fa && _); [reflexivity|].
  destruct (_call_local_planner perf_counter 3 messages tools 0 true)
    as [lb|]; cbn [bind]; [|reflexivity].
  destruct (_normalize_calls (function_calls lb) tools) as [cb|]; cbn [bind];
    [|reflexivity].
  destruct (_validate_calls repr
              (function_calls (set_function_calls lb cb)) tools)
    as [vb|]; cbn [bind]; [|reflexivity].
  destruct (_needs_cloud_fallback (set_function_calls lb cb) vb cx ctx)
    as [fb|]; cbn [bind]; [|reflexivity].
  unfold pass2_accepts, threshold_b.
  destruct (negb fb && _ && _); reflexivity.
Qed.

Lemma heuristic_calls_shape (messages tools : list value) (repair : bool)
  (calls : list value) (c : float) :
  _heuristic_local_calls messages tools repair = Ok (calls, c) ->
  exists text : string,
    user_text messages = Ok text
    /\ c = heuristic_confidence repair (contains "?" text)
             (contains "and" (lower text))
    /\ forall repair' : bool,
         _heuristic_local_calls messages tools repair'
         = Ok (calls, heuristic_confidence repair' (contains "?" text)
                        (contains "and" (lower text))).
Proof.
  unfold _heuristic_local_calls. intros H.
  destruct (user_text messages) as [text|]; cbn [bind] in *;
    [|discriminate H].
  destruct (_tool_index tools) as [index|]; cbn [bind] in *;
    [|discriminate H].
  destruct (_extract_simple_payment text) as [[amount payee]|];
    cbn [bind] in *; [|discriminate H].
  apply bind_ok in H. destruct H as [calls0 [Hc H]].
  inversion H; subst calls0; clear H.
  exists text. split; [reflexivity|]. split; [reflexivity|].
  intros repair'. rewrite Hc. reflexivity.
Qed.

Lemma local_pass_inv (repr : value -> string) (perf_counter : nat -> float)
  (readings : nat) (messages tools : list value) (k : Z) (repair : bool)
  (cx : Complexity) (ctx : dict) (l : LocalResult) (v : Validation)
  (f : bool) :
  local_pass repr perf_counter readings messages tools k repair cx ctx
  = Ok (l, v, f) ->
  exists calls0 : list value,
    _heuristic_local_calls messages tools repair = Ok (calls0, confidence l)
    /\ _normalize_calls calls0 tools = Ok (function_calls l)
    /\ _validate_calls repr (function_calls l) tools = Ok v
    /\ _needs_cloud_fallback l v cx ctx = Ok f.
Proof.
  unfold local_pass, _call_local_planner. intros H.
  destruct (_heuristic_local_calls messages tools repair) as [[calls0 c]|];
    cbn [bind] in H; [|discriminate H].
  cbn [function_calls] in H.
  destruct (_normalize_calls calls0 tools) as [calls|] eqn:Hn;
    cbn [bind] in H; [|discriminate H].
  apply bind_ok in H. destruct H as [v' [Hv H]].
  apply bind_ok in H. destruct H as [f' [Hf H]].
  inversion H; subst; clear H.
  exists calls0. cbn. repeat split; trivial.
Qed.

Lemma repair_outscores_when_valid (v : Validation) (cx : Complexity)
  (q a : bool) :
  valid v = true -> missing_required v = [] -> arg_type_issues v = [] ->
  PrimFloat.leb
    (_candidate_score v (heuristic_confidence false q a) cx)
    (_candidate_score v (heuristic_confidence true q a) cx) = true.
Proof.
  unfold _candidate_score. intros -> -> ->.
  destruct (String.eqb (label cx) "multi_intent"), q, a;
    vm_compute; reflexivity.
Qed.

Lemma cloud_stage_reason (repr : value -> string)
  (perf_counter : nat -> float) (getenv : string -> option string)
  (json_loads : string -> option value)
  (messages tools : list value) (la lb : LocalResult) (r : RoutingDecision) :
  cloud_stage repr perf_counter getenv json_loads messages tools la lb = Ok r ->
  source r = "cloud (fallback)"
  /\ route_reason r = "local-uncertain-or-invalid".
Proof.
  unfold cloud_stage. intros H.
  apply bind_ok in H. destruct H as [cloud [_ H]].
  apply bind_ok in H. destruct H as [calls [_ H]].
  apply bind_ok in H. destruct H as [cv [_ H]].
  inversion H. split; reflexivity.
Qed.

(** The two local passes plan the same calls, so they validate alike; when
    the plan is valid the repair pass has the higher score. *)
Lemma passes_agree (repr : value -> string) (perf_counter : nat -> float)
  (messages tools : list value) (cx : Complexity) (ctx : dict)
  (la lb : LocalResult) (va vb : Validation) (fa fb : bool) :
  local_pass repr perf_counter 1 messages tools 2 false cx ctx
  = Ok (la, va, fa) ->
  local_pass repr perf_counter 3 messages tools 0 true cx ctx
  = Ok (lb, vb, fb) ->
  va = vb
  /\ _needs_cloud_fallback lb vb cx ctx = Ok fb
  /\ (valid vb = true ->
      PrimFloat.leb (_candidate_score va (confidence la) cx)
        (_candidate_score vb (confidence lb) cx) = true).
Proof.
  intros Ha Hb.
  apply local_pass_inv in Ha. destruct Ha as [ca [Hha [Hna [Hva Hfa]]]].
  apply local_pass_inv in Hb. destruct Hb as [cb [Hhb [Hnb [Hvb Hfb]]]].
  apply heuristic_calls_shape in Hha.
  destruct Hha as [text [_ [Hca Hall]]].
  rewrite (Hall true) in Hhb. injection Hhb as Hcb Hconf. subst cb.
  rewrite Hna in Hnb. inversion Hnb as [Hcalls]; clear Hnb.
  rewrite Hcalls in Hva. rewrite Hva in Hvb.
  inversion Hvb; subst vb; clear Hvb.
  split; [reflexivity|]. split; [exact Hfb|].
  intros Hvalid.
  destruct (proj1 (validate_valid_iff repr _ _ _ Hva) Hvalid) as [_ [Hm Hi]].
  rewrite Hca, <- Hconf.
  now apply repair_outscores_when_valid.
Qed.

(** C2. Once pass 1 is not accepted and both candidates are scored, the
    run ends with [route_reason = "pass2-repair-accepted"] exactly when
    the chosen (higher-scoring) candidate is valid, the fallback policy
    does not flag it, and its confidence is at least
    [theta_b = max(confidence_threshold - 0.02, 0.95)]; otherwise the run
    continues with the cloud stage. *)
Theorem pass2_acceptance (repr : value -> string)
  (perf_counter : nat -> float) (getenv : string -> option string)
  (json_loads : string -> option value)
  (messages tools : list value) (threshold : float)
  (ctx : dict) (cx : Complexity)
  (la lb : LocalResult) (va vb : Validation) (fa fb : bool) :
  _extract_payment_context messages None = Ok ctx ->
  _estimate_complexity messages = Ok cx ->
  local_pass repr perf_counter 1 messages tools 2 false cx ctx
  = Ok (la, va, fa) ->
  pass1_accepts threshold la fa = false ->
  local_pass repr perf_counter 3 messages tools 0 true cx ctx
  = Ok (lb, vb, fb) ->
  let score_a := _candidate_score va (confidence la) cx in
  let score_b := _candidate_score vb (confidence lb) cx in
  let chosen := best_of score_a score_b la lb in
  let chosen_validation := best_of score_a score_b va vb in
  exists chosen_fallback : bool,
    _needs_cloud_fallback chosen chosen_validation cx ctx = Ok chosen_fallback
    /\ let accepted :=
         valid chosen_validation && negb chosen_fallback
         && PrimFloat.leb (threshold_b threshold) (confidence chosen) in
       (accepted = true ->
        generate_hybrid repr perf_counter getenv json_loads messages tools
          threshold
        = Ok (pass2_decision perf_counter la lb chosen chosen_validation))
       /\ (accepted = false ->
           generate_hybrid repr perf_counter getenv json_loads messages tools
             threshold
           = cloud_stage repr perf_counter getenv json_loads messages tools
               la lb)
       /\ (forall r : RoutingDecision,
             generate_hybrid repr perf_counter getenv json_loads messages
               tools threshold = Ok r ->
             (route_reason r = "pass2-repair-accepted" <-> accepted = true)).
Proof.
  intros Hctx Hcx Ha H1 Hb score_a score_b chosen chosen_validation.
  destruct (passes_agree _ _ _ _ _ _ _ _ _ _ _ _ Ha Hb) as [Hv [Hfb Hscore]].
  assert (Hgen :
    generate_hybrid repr perf_counter getenv json_loads messages tools threshold
    = if pass2_accepts threshold cx la va lb vb fb
      then Ok (pass2_decision perf_counter la lb chosen chosen_validation)
      else cloud_stage repr perf_counter getenv json_loads messages tools
             la lb).
  { rewrite generate_hybrid_stages, Hctx, Hcx. cbn [bind].
    rewrite Ha. cbn [bind]. rewrite H1, Hb. reflexivity. }
  assert (Hchoice :
    exists chosen_fallback : bool,
      _needs_cloud_fallback chosen chosen_validation cx ctx
      = Ok chosen_fallback
      /\ pass2_accepts threshold cx la va lb vb fb
         = valid chosen_validation && negb chosen_fallback
           && PrimFloat.leb (threshold_b threshold) (confidence chosen)).
  { unfold pass2_accepts. fold score_a score_b chosen chosen_validation.
    destruct (valid vb) eqn:Hvalid.
    - specialize (Hscore eq_refl). fold score_a score_b in Hscore.
      assert (Hc : chosen = lb) by (unfold chosen, best_of; now rewrite Hscore).
      assert (Hcv : chosen_validation = vb)
        by (unfold chosen_validation, best_of; now rewrite Hscore).
      exists fb. rewrite Hc, Hcv, Hvalid. split; [exact Hfb|].
      destruct fb, (PrimFloat.leb (threshold_b threshold) (confidence lb));
        reflexivity.
    - assert (Hcv : chosen_validation = vb)
        by (unfold chosen_validation; rewrite Hv; apply best_of_same).
      exists true. rewrite Hcv, Hvalid. split.
      + unfold _needs_cloud_fallback. now rewrite Hvalid.
      + now rewrite !andb_false_r. }
  destruct Hchoice as [chosen_fallback [Hcf Hacc]].
  exists chosen_fallback. split; [exact Hcf|].
  cbn zeta. rewrite <- Hacc.
  split; [|split].
  - intros E. now rewrite Hgen, E.
  - intros E. now rewrite Hgen, E.
  - intros r Hr. rewrite Hgen in Hr.
    destruct (pass2_accepts threshold cx la va lb vb fb).
    + inversion Hr. cbn. tauto.
    + apply cloud_stage_reason in Hr. destruct Hr as [_ Hr]. rewrite Hr.
      split; discriminate.
Qed.

Lemma pass2_acceptance_witness :
  exists r : RoutingDecision,
    generate_hybrid plain_repr still_clock empty_env no_json
      (user_message "send $20 to Alice") PAYMENT_TOOLS 0.97 = Ok r
    /\ source r = "on-device"
    /\ route_reason r = "pass2-repair-accepted"
    /\ planned_calls r = payment_plan "Alice" 20.
Proof.
  edestruct (pass2_acceptance plain_repr still_clock empty_env no_json
               (user_message "send $20 to Alice") PAYMENT_TOOLS 0.97)
    as [f [Hf [Hacc _]]];
    try (vm_compute; reflexivity).
  vm_compute in Hf. inversion Hf; subst f.
  eexists. split; [apply Hacc; vm_compute; reflexivity|].
  vm_compute. repeat split.
Defined.

(** C4. When neither local pass is accepted the cloud planner is called,
    its calls are normalized and validated, and that is the result:
    [source = "cloud (fallback)"],
    [route_reason = "local-uncertain-or-invalid"], whatever the validation
    of the cloud calls says; nothing follows the cloud stage. *)
Theorem cloud_stage_is_terminal (repr : value -> string)
  (perf_counter : nat -> float) (getenv : string -> option string)
  (json_loads : string -> option value)
  (messages tools : list value) (threshold : float)
  (ctx : dict) (cx : Complexity)
  (la lb : LocalResult) (va vb : Validation) (fa fb : bool)
  (cloud : CloudResult) (calls_c : list value)
  (cloud_validation : Validation) :
  _extract_payment_context messages None = Ok ctx ->
  _estimate_complexity messages = Ok cx ->
  local_pass repr perf_counter 1 messages tools 2 false cx ctx
  = Ok (la, va, fa) ->
  pass1_accepts threshold la fa = false ->
  local_pass repr perf_counter 3 messages tools 0 true cx ctx
  = Ok (lb, vb, fb) ->
  pass2_accepts threshold cx la va lb vb fb = false ->
  _call_cloud_planner getenv json_loads messages tools = Ok cloud ->
  _normalize_calls (cloud_function_calls cloud) tools = Ok calls_c ->
  _validate_calls repr calls_c tools = Ok cloud_validation ->
  exists r : RoutingDecision,
    generate_hybrid repr perf_counter getenv json_loads messages tools threshold
    = Ok r
    /\ source r = "cloud (fallback)"
    /\ route_reason r = "local-uncertain-or-invalid"
    /\ planned_calls r = calls_c
    /\ planned_confidence r = cloud_confidence cloud
    /\ validation r = cloud_validation.
Proof.
  intros Hctx Hcx Ha H1 Hb H2 Hcloud Hn Hv.
  rewrite generate_hybrid_stages, Hctx, Hcx. cbn [bind].
  rewrite Ha. cbn [bind]. rewrite H1, Hb. cbn [bind]. rewrite H2.
  unfold cloud_stage. rewrite Hcloud. cbn [bind]. rewrite Hn. cbn [bind].
  rewrite Hv. cbn [bind].
  eexists. split; [reflexivity|]. cbn. repeat split.
Qed.

(** Against [demanding_tools] the cloud plan is invalid and is returned
    all the same. *)
Lemma cloud_stage_is_terminal_witness :
  exists r : RoutingDecision,
    generate_hybrid plain_repr still_clock empty_env no_json
      (user_message "send $20 to Alice") demanding_tools 0.99 = Ok r
    /\ source r = "cloud (fallback)"
    /\ route_reason r = "local-uncertain-or-invalid"
    /\ valid (validation r) = false.
Proof.
  edestruct (cloud_stage_is_terminal plain_repr still_clock empty_env no_json
               (user_message "send $20 to Alice") demanding_tools 0.99)
    as [r [Hr [Hs [Hreason [_ [_ Hv]]]]]];
    try (vm_compute; reflexivity).
  exists r. repeat split; trivial. rewrite Hv. reflexivity.
Defined.

(** ** End-to-end scenarios *)

(** C1, as the program has it.  For the message "send $20 to Alice", the
    default catalog and [confidence_threshold = 0.99], with no cloud
    override in the environment: pass 1 has confidence 0.93, pass 2 has
    0.965, which is below [theta_b = max(0.99 - 0.02, 0.95) = 0.97]; the
    result comes from the cloud stage with
    [route_reason = "local-uncertain-or-invalid"], confidence 0.99, and
    valid calls that carry payee "Alice" and amount 20.0. *)
Theorem scenario1_falls_back_to_cloud (repr : value -> string)
  (perf_counter : nat -> float) (getenv : string -> option string)
  (json_loads : string -> option value) :
  getenv "VOICEPAY_CLOUD_JSON" = None ->
  let messages := user_message "send $20 to Alice" in
  _heuristic_local_calls messages PAYMENT_TOOLS false
  = Ok (payment_plan "Alice" 20, 0.93%float)
  /\ _heuristic_local_calls messages PAYMENT_TOOLS true
     = Ok (payment_plan "Alice" 20, 0.965%float)
  /\ threshold_b 0.99 = 0.97%float
  /\ PrimFloat.leb (threshold_b 0.99) 0.965 = false
  /\ exists r : RoutingDecision,
       generate_hybrid repr perf_counter getenv json_loads messages
         PAYMENT_TOOLS 0.99 = Ok r
       /\ source r = "cloud (fallback)"
       /\ route_reason r = "local-uncertain-or-invalid"
       /\ planned_calls r = payment_plan "Alice" 20
       /\ planned_confidence r = 0.99%float
       /\ valid (validation r) = true.
Proof.
  intros Henv messages.
  set (plan := payment_plan "Alice" 20).
  set (ctx := [("amount", VFloat 20)] : dict).
  set (cx := complexity_of "single_intent").
  assert (Hov : cloud_override getenv json_loads = None)
    by (unfold cloud_override; now rewrite Henv).
  assert (Ha : _heuristic_local_calls messages PAYMENT_TOOLS false
               = Ok (plan, 0.93%float)) by (vm_compute; reflexivity).
  assert (Hb : _heuristic_local_calls messages PAYMENT_TOOLS true
               = Ok (plan, 0.965%float)) by (vm_compute; reflexivity).
  assert (Hn : _normalize_calls plan PAYMENT_TOOLS = Ok plan)
    by (vm_compute; reflexivity).
  assert (Hv : _validate_calls repr plan PAYMENT_TOOLS = Ok clean_validation)
    by (vm_compute; reflexivity).
  assert (Hctx : _extract_payment_context messages None = Ok ctx)
    by (vm_compute; reflexivity).
  assert (Hcx : _estimate_complexity messages = Ok cx)
    by (vm_compute; reflexivity).
  assert (Hfa : forall (c : float) (lat : float) (k : Z) (m : bool),
            _needs_cloud_fallback
              {| function_calls := plan; confidence := c;
                 local_latency_ms := lat; tool_rag_top_k := k;
                 repair_mode := m |} clean_validation cx ctx
            = Ok (PrimFloat.ltb c 0.96)).
  { intros. reflexivity. }
  split; [exact Ha|]. split; [exact Hb|].
  split; [vm_compute; reflexivity|]. split; [vm_compute; reflexivity|].
  unfold generate_hybrid, _call_local_planner, _call_cloud_planner.
  rewrite Hctx, Hcx. cbn [bind].
  (* pass 1: confidence 0.93 is flagged by the policy *)
  rewrite Ha. cbn [bind function_calls]. rewrite Hn. cbn [bind].
  unfold set_function_calls.
  cbn [function_calls confidence local_latency_ms tool_rag_top_k repair_mode].
  rewrite Hv. cbn [bind]. rewrite Hfa. cbn [bind].
  replace (PrimFloat.ltb 0.93 0.96) with true by (vm_compute; reflexivity).
  cbn [negb andb].
  (* pass 2: confidence 0.965 is not flagged but is below theta_b *)
  rewrite Hb. cbn [bind function_calls]. rewrite Hn. cbn [bind].
  cbn [function_calls confidence local_latency_ms tool_rag_top_k repair_mode].
  rewrite Hv. cbn [bind]. rewrite Hfa. cbn [bind].
  replace (PrimFloat.ltb 0.965 0.96) with false by (vm_compute; reflexivity).
  cbn [negb andb].
  replace (PrimFloat.leb (py_max (0.99 - 0.02) 0.95)
             (confidence
                (best_of
                   (_candidate_score clean_validation 0.93 cx)
                   (_candidate_score clean_validation 0.965 cx) _ _)))
    with false by (vm_compute; reflexivity).
  (* cloud stage *)
  cbn [andb]. rewrite Hov. cbn [bind cloud_function_calls].
  rewrite Hn. cbn [bind]. rewrite Hv. cbn [bind].
  eexists. split; [reflexivity|].
  cbn [source route_reason planned_calls planned_confidence validation
       cloud_confidence].
  repeat split.
Qed.

Lemma scenario1_falls_back_to_cloud_witness :
  exists r : RoutingDecision,
    generate_hybrid plain_repr still_clock empty_env no_json
      (user_message "send $20 to Alice") PAYMENT_TOOLS 0.99 = Ok r
    /\ route_reason r = "local-uncertain-or-invalid".
Proof.
  destruct (scenario1_falls_back_to_cloud plain_repr still_clock empty_env
              no_json eq_refl)
    as [_ [_ [_ [_ [r [Hr [_ [Hreason _]]]]]]]].
  exists r. split; [exact Hr | exact Hreason].
Defined.

(** C1, as the specification words it, fails: the run for
    "send $20 to Alice" at threshold 0.99 is not an on-device result
    accepted by the repair pass. *)
Lemma scenario1_not_repair_accepted :
  ~ (exists r : RoutingDecision,
       generate_hybrid plain_repr still_clock empty_env no_json
         (user_message "send $20 to Alice") PAYMENT_TOOLS 0.99 = Ok r
       /\ source r = "on-device"
       /\ route_reason r = "pass2-repair-accepted").
Proof.
  intros [r [Hr [Hs _]]]. vm_compute in Hr. inversion Hr; subst r.
  discriminate Hs.
Qed.

(** Scenario 2: a high-risk request goes to the cloud. *)
Example scenario2_high_risk_goes_to_cloud :
  exists r : RoutingDecision,
    generate_hybrid plain_repr still_clock empty_env no_json
      (user_message "send $750 to a new payee") PAYMENT_TOOLS 0.99 = Ok r
    /\ source r = "cloud (fallback)"
    /\ route_reason r = "local-uncertain-or-invalid".
Proof. eexists. split; [vm_compute; reflexivity|]. split; reflexivity. Qed.

(* ================================================================= *)
(** ** Routing: what the orchestrator can and cannot return *)

(** The confidence of a local pass is one of the four values of its mode. *)
Lemma local_pass_confidence (repr : value -> string)
  (perf_counter : nat -> float) (readings : nat) (messages tools : list value)
  (k : Z) (repair : bool) (cx : Complexity) (ctx : dict)
  (l : LocalResult) (v : Validation) (f : bool) :
  local_pass repr perf_counter readings messages tools k repair cx ctx
  = Ok (l, v, f) ->
  exists text : string,
    user_text messages = Ok text
    /\ confidence l = heuristic_confidence repair (contains "?" text)
                        (contains "and" (lower text))
    /\ _validate_calls repr (function_calls l) tools = Ok v
    /\ _needs_cloud_fallback l v cx ctx = Ok f.
Proof.
  intros H. apply local_pass_inv in H.
  destruct H as [calls0 [Hh [_ [Hv Hf]]]].
  apply heuristic_calls_shape in Hh. destruct Hh as [text [Ht [Hc _]]].
  exists text. auto.
Qed.

Lemma heuristic_confidence_below_high_floor (r q a : bool) :
  PrimFloat.ltb (heuristic_confidence r q a) 0.995 = true.
Proof. destruct r, q, a; vm_compute; reflexivity. Qed.

Lemma heuristic_confidence_below_floor (r q a : bool) :
  PrimFloat.ltb (heuristic_confidence r q a) 0.96
  = negb (r && negb q && negb a).
Proof. destruct r, q, a; vm_compute; reflexivity. Qed.

(** What it takes for the policy not to flag a candidate of the heuristic
    planner. *)
Lemma unflagged_candidate (l : LocalResult) (v : Validation) (cx : Complexity)
  (ctx : dict) (r q a : bool) :
  confidence l = heuristic_confidence r q a ->
  _needs_cloud_fallback l v cx ctx = Ok false ->
  valid v = true /\ under_decomposed l cx = false
  /\ r = true /\ q = false /\ a = false
  /\ exists amount : float,
       context_amount ctx = Ok amount
       /\ PrimFloat.leb 500 amount = false
       /\ context_new_payee ctx = false
       /\ context_weak_auth ctx = false.
Proof.
  unfold _needs_cloud_fallback, under_decomposed. intros Hc.
  destruct (valid v); cbn [negb]; [|discriminate].
  destruct (_ && _); [discriminate|].
  destruct (context_amount ctx) as [amount|]; cbn [bind]; [|discriminate].
  rewrite Hc.
  destruct (PrimFloat.leb 500 amount || context_new_payee ctx
            || context_weak_auth ctx) eqn:Hr.
  - rewrite heuristic_confidence_below_high_floor. discriminate.
  - rewrite heuristic_confidence_below_floor. intros H. injection H as H.
    apply negb_false_iff in H. rewrite !andb_true_iff, !negb_true_iff in H.
    rewrite !orb_false_iff in Hr.
    destruct H as [[-> ->] ->]. destruct Hr as [[H1 H2] H3].
    repeat split. exists amount. auto.
Qed.

Lemma pass1_always_flagged (repr : value -> string)
  (perf_counter : nat -> float) (readings : nat) (messages tools : list value)
  (k : Z) (cx : Complexity) (ctx : dict)
  (l : LocalResult) (v : Validation) (f : bool) :
  local_pass repr perf_counter readings messages tools k false cx ctx
  = Ok (l, v, f) ->
  f = true.
Proof.
  intros H. apply local_pass_confidence in H.
  destruct H as [text [_ [Hc [_ Hf]]]].
  destruct f; [reflexivity|].
  destruct (unflagged_candidate _ _ _ _ _ _ _ Hc Hf) as [_ [_ [Hr _]]].
  discriminate Hr.
Qed.

(** The results [generate_hybrid] can return. *)
Lemma generate_hybrid_outcome (repr : value -> string)
  (perf_counter : nat -> float) (getenv : string -> option string)
  (json_loads : string -> option value)
  (messages tools : list value) (threshold : float) (r : RoutingDecision) :
  generate_hybrid repr perf_counter getenv json_loads messages tools threshold
  = Ok r ->
  exists (ctx : dict) (cx : Complexity) (la lb : LocalResult)
         (va vb : Validation) (fb : bool),
    _extract_payment_context messages None = Ok ctx
    /\ _estimate_complexity messages = Ok cx
    /\ local_pass repr perf_counter 1 messages tools 2 false cx ctx
       = Ok (la, va, true)
    /\ local_pass repr perf_counter 3 messages tools 0 true cx ctx
       = Ok (lb, vb, fb)
    /\ ((pass2_accepts threshold cx la va lb vb fb = true
         /\ r = pass2_decision perf_counter la lb
                  (best_of (_candidate_score va (confidence la) cx)
                     (_candidate_score vb (confidence lb) cx) la lb)
                  (best_of (_candidate_score va (confidence la) cx)
                     (_candidate_score vb (confidence lb) cx) va vb))
        \/ (pass2_accepts threshold cx la va lb vb fb = false
            /\ cloud_stage repr perf_counter getenv json_loads messages tools
                 la lb = Ok r)).
Proof.
  rewrite generate_hybrid_stages. intros H.
  apply bind_ok in H. destruct H as [ctx [Hctx H]].
  apply bind_ok in H. destruct H as [cx [Hcx H]].
  apply bind_ok in H. destruct H as [[[la va] fa] [Ha H]].
  pose proof (pass1_always_flagged _ _ _ _ _ _ _ _ _ _ _ Ha) as ->.
  unfold pass1_accepts in H. cbn [negb andb] in H.
  apply bind_ok in H. destruct H as [[[lb vb] fb] [Hb H]].
  exists ctx, cx, la, lb, va, vb, fb.
  repeat (split; [assumption|]).
  destruct (pass2_accepts threshold cx la va lb vb fb).
  - left. split; [reflexivity|]. now injection H as <-.
  - right. split; [reflexivity | exact H].
Qed.

(** C10. For every input of [generate_hybrid], the payment context given
    to the fallback policy is [_extract_payment_context messages None].
    Whenever [generate_hybrid] returns, both calls of the policy (pass 1
    and pass 2) received that context; every entry of it is derived from
    the user text, it has no [biometric_strong] key, so [weak_auth] is
    false, and the risk test of the policy can hold only through a
    text-derived amount of at least 500 or through the phrases
    "new payee" and "first time".  The second part says the same of every
    run, also one that raises later: the orchestrator is the extraction
    with [None] followed by the stages, which pass the extracted context
    to the policy. *)
Theorem hybrid_context_from_text (repr : value -> string)
  (perf_counter : nat -> float) (getenv : string -> option string)
  (json_loads : string -> option value)
  (messages tools : list value) (threshold : float) :
  (forall r : RoutingDecision,
     generate_hybrid repr perf_counter getenv json_loads messages tools
       threshold = Ok r ->
     exists (ctx : dict) (cx : Complexity) (la lb : LocalResult)
            (va vb : Validation) (fb : bool) (joined : string),
       user_text messages = Ok joined
       /\ _extract_payment_context messages None = Ok ctx
       /\ local_pass repr perf_counter 1 messages tools 2 false cx ctx
          = Ok (la, va, true)
       /\ local_pass repr perf_counter 3 messages tools 0 true cx ctx
          = Ok (lb, vb, fb)
       /\ _needs_cloud_fallback la va cx ctx = Ok true
       /\ _needs_cloud_fallback lb vb cx ctx = Ok fb
       /\ (forall k v, dict_lookup ctx k = Some v ->
                       text_derived (lower joined) k v)
       /\ dict_mem ctx "biometric_strong" = false
       /\ context_weak_auth ctx = false
       /\ exists amount : float,
            context_amount ctx = Ok amount
            /\ (PrimFloat.leb 500 amount || context_new_payee ctx
                || context_weak_auth ctx = true ->
                (PrimFloat.leb 500 amount = true
                 /\ exists g,
                      Regex.search_group1 Regex.dollar_amount (lower joined)
                      = Some g
                      /\ float_of_string g = Some amount)
                \/ contains "new payee" (lower joined) = true
                \/ contains "first time" (lower joined) = true))
  /\ generate_hybrid repr perf_counter getenv json_loads messages tools
       threshold
     = (payment_context <- _extract_payment_context messages None ;;
        complexity <- _estimate_complexity messages ;;
        pass_a <- local_pass repr perf_counter 1 messages tools 2 false
                    complexity payment_context ;;
        let '(local_a, validation_a, fallback_a) := pass_a in
        if pass1_accepts threshold local_a fallback_a
        then Ok (pass1_decision perf_counter local_a validation_a)
        else
          pass_b <- local_pass repr perf_counter 3 messages tools 0 true
                      complexity payment_context ;;
          let '(local_b, validation_b, fallback_b) := pass_b in
          let score_a :=
            _candidate_score validation_a (confidence local_a) complexity in
          let score_b :=
            _candidate_score validation_b (confidence local_b) complexity in
          if pass2_accepts threshold complexity local_a validation_a
               local_b validation_b fallback_b
          then Ok (pass2_decision perf_counter local_a local_b
                     (best_of score_a score_b local_a local_b)
                     (best_of score_a score_b validation_a validation_b))
          else cloud_stage repr perf_counter getenv json_loads messages tools
                 local_a local_b)
  /\ (forall ctx : dict,
        _extract_payment_context messages None = Ok ctx ->
        dict_mem ctx "biometric_strong" = false
        /\ context_weak_auth ctx = false).
Proof.
  split; [|split; [apply generate_hybrid_stages|]].
  - intros r H. apply generate_hybrid_outcome in H.
    destruct H as [ctx [cx [la [lb [va [vb [fb [Hctx [_ [Ha [Hb _]]]]]]]]]]].
    destruct (extracted_context_from_text _ _ Hctx)
      as [joined [Hj [Hd [Hbio [Hweak Hrisk]]]]].
    exists ctx, cx, la, lb, va, vb, fb, joined.
    destruct (local_pass_inv _ _ _ _ _ _ _ _ _ _ _ _ Ha) as [_ [_ [_ [_ Hfa]]]].
    destruct (local_pass_inv _ _ _ _ _ _ _ _ _ _ _ _ Hb) as [_ [_ [_ [_ Hfb]]]].
    repeat (split; [assumption|]). exact Hrisk.
  - intros ctx H.
    destruct (extracted_context_from_text _ _ H)
      as [joined [_ [_ [Hbio [Hweak _]]]]].
    split; assumption.
Qed.

Lemma hybrid_context_from_text_witness :
  exists ctx : dict,
    _extract_payment_context (user_message "send $750 to a new payee") None
    = Ok ctx
    /\ dict_mem ctx "biometric_strong" = false
    /\ context_weak_auth ctx = false.
Proof.
  assert (Hr : exists r : RoutingDecision,
             generate_hybrid plain_repr still_clock empty_env no_json
               (user_message "send $750 to a new payee") PAYMENT_TOOLS 0.99
             = Ok r)
    by (eexists; vm_compute; reflexivity).
  destruct Hr as [r Hr].
  destruct (proj1 (hybrid_context_from_text plain_repr still_clock
                     empty_env no_json
                     (user_message "send $750 to a new payee")
                     PAYMENT_TOOLS 0.99) r Hr)
    as [ctx [cx [la [lb [va [vb [fb [joined
          [_ [Hctx [_ [_ [_ [_ [_ [Hbio [Hweak _]]]]]]]]]]]]]]]]].
  exists ctx. auto.
Defined.

(** X1. [generate_hybrid] never returns [route_reason = "pass1-accepted"]:
    the pass-1 confidence of the heuristic planner is at most 0.93, below
    the lowest floor 0.96 of the fallback policy, so pass 1 is always
    flagged.  Every result is either the on-device result of the repair
    pass or the cloud result. *)
Theorem pass1_never_accepted (repr : value -> string)
  (perf_counter : nat -> float) (getenv : string -> option string)
  (json_loads : string -> option value)
  (messages tools : list value) (threshold : float) (r : RoutingDecision) :
  generate_hybrid repr perf_counter getenv json_loads messages tools threshold
  = Ok r ->
  route_reason r <> "pass1-accepted"
  /\ (route_reason r = "pass2-repair-accepted" /\ source r = "on-device"
      \/ route_reason r = "local-uncertain-or-invalid"
         /\ source r = "cloud (fallback)").
Proof.
  intros H. apply generate_hybrid_outcome in H.
  destruct H as [ctx [cx [la [lb [va [vb [fb [_ [_ [_ [_ H]]]]]]]]]]].
  destruct H as [[_ ->] | [_ H]].
  - split; [discriminate | left; split; reflexivity].
  - apply cloud_stage_reason in H. destruct H as [Hs Hr]. rewrite Hr, Hs.
    split; [discriminate | right; split; reflexivity].
Qed.

Lemma pass1_never_accepted_witness :
  exists r : RoutingDecision,
    generate_hybrid plain_repr still_clock empty_env no_json
      (user_message "send $20 to Alice") PAYMENT_TOOLS 0.5 = Ok r
    /\ route_reason r <> "pass1-accepted".
Proof.
  eexists. split; [vm_compute; reflexivity|].
  refine (proj1 (pass1_never_accepted plain_repr still_clock empty_env
                   no_json (user_message "send $20 to Alice") PAYMENT_TOOLS
                   0.5 _ _)).
  vm_compute. reflexivity.
Defined.

(** X2. An on-device result always comes from the repair pass: its
    confidence is exactly 0.965, [theta_b] is at most 0.965, the
    validation it carries is the validation of its calls and reports no
    issue, and the user text has no question mark and no "and". *)
Theorem on_device_result_profile (repr : value -> string)
  (perf_counter : nat -> float) (getenv : string -> option string)
  (json_loads : string -> option value)
  (messages tools : list value) (threshold : float) (r : RoutingDecision) :
  generate_hybrid repr perf_counter getenv json_loads messages tools threshold
  = Ok r ->
  source r = "on-device" ->
  route_reason r = "pass2-repair-accepted"
  /\ planned_confidence r = 0.965%float
  /\ PrimFloat.leb (threshold_b threshold) 0.965 = true
  /\ valid (validation r) = true
  /\ unknown_tool (validation r) = []
  /\ missing_required (validation r) = []
  /\ arg_type_issues (validation r) = []
  /\ _validate_calls repr (planned_calls r) tools = Ok (validation r)
  /\ exists text : string,
       user_text messages = Ok text
       /\ contains "?" text = false
       /\ contains "and" (lower text) = false.
Proof.
  intros H Hs. apply generate_hybrid_outcome in H.
  destruct H as [ctx [cx [la [lb [va [vb [fb [_ [_ [Ha [Hb H]]]]]]]]]]].
  destruct H as [[Hacc ->] | [_ H]].
  2:{ apply cloud_stage_reason in H. destruct H as [H _].
      rewrite H in Hs. discriminate Hs. }
  destruct (passes_agree _ _ _ _ _ _ _ _ _ _ _ _ Ha Hb) as [Hv [_ Hscore]].
  apply local_pass_confidence in Hb.
  destruct Hb as [text [Ht [Hc [Hvb Hfb]]]].
  unfold pass2_accepts in Hacc.
  apply andb_prop in Hacc. destruct Hacc as [Hacc Hvalid].
  apply andb_prop in Hacc. destruct Hacc as [Hnf Hleb].
  apply negb_true_iff in Hnf. subst fb.
  destruct (unflagged_candidate _ _ _ _ _ _ _ Hc Hfb)
    as [Hvalid_b [_ [_ [Hq [Hand _]]]]].
  specialize (Hscore Hvalid_b).
  unfold best_of in *. rewrite Hscore in *.
  rewrite Hq, Hand in Hc.
  assert (Hconf : confidence lb = 0.965%float)
    by (rewrite Hc; vm_compute; reflexivity).
  rewrite Hconf in Hleb.
  destruct (proj1 (validate_valid_iff _ _ _ _ Hvb) Hvalid_b) as [Hu [Hm Hi]].
  cbn [route_reason planned_confidence validation planned_calls
       pass2_decision].
  repeat (split; [assumption || reflexivity|]).
  exists text. auto.
Qed.

Lemma on_device_result_profile_witness :
  exists r : RoutingDecision,
    generate_hybrid plain_repr still_clock empty_env no_json
      (user_message "send $20 to Alice") PAYMENT_TOOLS 0.97 = Ok r
    /\ planned_confidence r = 0.965%float.
Proof.
  eexists. split; [vm_compute; reflexivity|].
  refine (proj1 (proj2 (on_device_result_profile plain_repr still_clock
                          empty_env no_json
                          (user_message "send $20 to Alice") PAYMENT_TOOLS
                          0.97 _ _ _))).
  - vm_compute. reflexivity.
  - reflexivity.
Defined.

Lemma default_threshold_b_out_of_reach (r q a : bool) :
  PrimFloat.leb (threshold_b 0.99) (heuristic_confidence r q a) = false.
Proof. destruct r, q, a; vm_compute; reflexivity. Qed.

(** X3. At the default [confidence_threshold = 0.99] no request is
    answered on the device: [theta_b] is 0.97 and the planner's confidence
    never exceeds 0.965, so every result comes from the cloud stage,
    whatever the messages and the tools. *)
Theorem default_threshold_always_cloud (repr : value -> string)
  (perf_counter : nat -> float) (getenv : string -> option string)
  (json_loads : string -> option value)
  (messages tools : list value) (r : RoutingDecision) :
  generate_hybrid repr perf_counter getenv json_loads messages tools 0.99
  = Ok r ->
  source r = "cloud (fallback)"
  /\ route_reason r = "local-uncertain-or-invalid".
Proof.
  intros H. apply generate_hybrid_outcome in H.
  destruct H as [ctx [cx [la [lb [va [vb [fb [_ [_ [Ha [Hb H]]]]]]]]]]].
  destruct H as [[Hacc _] | [_ H]].
  - exfalso.
    apply local_pass_confidence in Ha. destruct Ha as [ta [_ [Hca _]]].
    apply local_pass_confidence in Hb. destruct Hb as [tb [_ [Hcb _]]].
    unfold pass2_accepts in Hacc.
    apply andb_prop in Hacc. destruct Hacc as [Hacc _].
    apply andb_prop in Hacc. destruct Hacc as [_ Hleb].
    unfold best_of in Hleb.
    destruct (PrimFloat.leb (_candidate_score va _ cx)
                (_candidate_score vb _ cx)) in Hleb;
      [rewrite Hcb in Hleb | rewrite Hca in Hleb];
      rewrite default_threshold_b_out_of_reach in Hleb; discriminate Hleb.
  - now apply cloud_stage_reason in H.
Qed.

Lemma default_threshold_always_cloud_witness :
  exists r : RoutingDecision,
    generate_hybrid plain_repr still_clock empty_env no_json
      (user_message "pay Bob") [] 0.99 = Ok r
    /\ source r = "cloud (fallback)".
Proof.
  eexists. split; [vm_compute; reflexivity|].
  refine (proj1 (default_threshold_always_cloud plain_repr still_clock
                   empty_env no_json (user_message "pay Bob") [] _ _)).
  vm_compute. reflexivity.
Defined.

Lemma text_context_new_payee (amount : option float) (np ft : bool) :
  context_new_payee (text_context amount np ft) = np || ft.
Proof. destruct amount, np, ft; reflexivity. Qed.

Lemma text_context_amount_value (f : float) (np ft : bool) :
  context_amount (text_context (Some f) np ft)
  = Ok (if PrimFloat.eqb f 0 then 0%float else f).
Proof.
  destruct np, ft; unfold context_amount, py_or; cbn;
    destruct (PrimFloat.eqb f 0); reflexivity.
Qed.

(** X4. A request whose user text says "new payee" or "first time", or
    whose first dollar amount (the one match of the amount pattern that
    the context extractor reads) is at least 500, is never answered on
    the device, at any confidence threshold: the floor of the fallback
    policy is then 0.995, above every confidence of the heuristic
    planner.  A later amount in the text is not read. *)
Theorem high_risk_always_cloud (repr : value -> string)
  (perf_counter : nat -> float) (getenv : string -> option string)
  (json_loads : string -> option value)
  (messages tools : list value) (threshold : float)
  (joined : string) (r : RoutingDecision) :
  user_text messages = Ok joined ->
  contains "new payee" (lower joined) = true
  \/ contains "first time" (lower joined) = true
  \/ (exists (g : string) (amount : float),
        Regex.search_group1 Regex.dollar_amount (lower joined) = Some g
        /\ float_of_string g = Some amount
        /\ PrimFloat.leb 500 amount = true) ->
  generate_hybrid repr perf_counter getenv json_loads messages tools threshold
  = Ok r ->
  source r = "cloud (fallback)"
  /\ route_reason r = "local-uncertain-or-invalid".
Proof.
  intros Hj Hrisk H. apply generate_hybrid_outcome in H.
  destruct H as [ctx [cx [la [lb [va [vb [fb [Hctx [_ [_ [Hb H]]]]]]]]]]].
  destruct H as [[Hacc _] | [_ H]]; [|now apply cloud_stage_reason in H].
  exfalso.
  apply local_pass_confidence in Hb. destruct Hb as [tb [_ [Hcb [_ Hfb]]]].
  unfold pass2_accepts in Hacc.
  apply andb_prop in Hacc. destruct Hacc as [Hacc _].
  apply andb_prop in Hacc. destruct Hacc as [Hnf _].
  apply negb_true_iff in Hnf. subst fb.
  destruct (unflagged_candidate _ _ _ _ _ _ _ Hcb Hfb)
    as [_ [_ [_ [_ [_ [amount [Hamt [Hlow [Hnp _]]]]]]]]].
  apply extract_payment_context_shape in Hctx.
  destruct Hctx as [joined' [Hj' [amt [Hfound ->]]]].
  rewrite Hj in Hj'. injection Hj' as <-.
  rewrite text_context_new_payee in Hnp. apply orb_false_iff in Hnp.
  destruct Hnp as [Hn Hf].
  destruct Hrisk as [Hr | [Hr | [g [amount' [Hg [Hparse Hhigh]]]]]];
    [congruence | congruence |].
  rewrite Hg in Hfound. destruct Hfound as [Hfound _].
  rewrite Hparse in Hfound. subst amt.
  rewrite text_context_amount_value in Hamt. injection Hamt as <-.
  rewrite high_amount_or_zero in Hlow. congruence.
Qed.

Lemma high_risk_always_cloud_witness :
  exists r : RoutingDecision,
    generate_hybrid plain_repr still_clock empty_env no_json
      (user_message "send $750 to Bob") PAYMENT_TOOLS 0.5 = Ok r
    /\ source r = "cloud (fallback)".
Proof.
  eexists. split; [vm_compute; reflexivity|].
  refine (proj1 (high_risk_always_cloud plain_repr still_clock empty_env
                   no_json (user_message "send $750 to Bob") PAYMENT_TOOLS
                   0.5 "send $750 to Bob" _ eq_refl _ _)).
  - right. right. exists "750", 750%float.
    split; [vm_compute; reflexivity|]. split; vm_compute; reflexivity.
  - vm_compute. reflexivity.
Defined.

(** Only the first dollar amount of the text is read: a later amount of
    750 does not raise the floor. *)
Example later_amount_is_not_read :
  exists r : RoutingDecision,
    generate_hybrid plain_repr still_clock empty_env no_json
      (user_message "send $5 to Bob then $750 to Al") PAYMENT_TOOLS 0.5 = Ok r
    /\ source r = "on-device"
    /\ route_reason r = "pass2-repair-accepted".
Proof. eexists. split; [vm_compute; reflexivity|]. split; reflexivity. Qed.

(** X5. Without an override in [VOICEPAY_CLOUD_JSON] (unset or empty) the
    cloud planner is the heuristic planner again: it returns the calls a
    local pass plans for the same messages and tools, with confidence
    exactly 0.99. *)
Theorem cloud_planner_without_override (getenv : string -> option string)
  (json_loads : string -> option value) (messages tools : list value)
  (repair : bool) (calls : list value) (c : float) :
  getenv "VOICEPAY_CLOUD_JSON" = None
  \/ getenv "VOICEPAY_CLOUD_JSON" = Some "" ->
  _heuristic_local_calls messages tools repair = Ok (calls, c) ->
  _call_cloud_planner getenv json_loads messages tools
  = Ok {| cloud_function_calls := calls; cloud_confidence := 0.99 |}.
Proof.
  intros Henv H. apply heuristic_calls_shape in H.
  destruct H as [text [_ [_ Hall]]].
  unfold _call_cloud_planner, cloud_override.
  destruct Henv as [-> | ->]; cbn [String.eqb negb];
    rewrite (Hall true); cbn [bind];
    destruct (contains "?" text), (contains "and" (lower text));
    vm_compute; reflexivity.
Qed.

Lemma cloud_planner_without_override_witness :
  _call_cloud_planner empty_env no_json (user_message "send $20 to Alice")
    PAYMENT_TOOLS
  = Ok {| cloud_function_calls := payment_plan "Alice" 20;
          cloud_confidence := 0.99 |}.
Proof.
  apply (cloud_planner_without_override empty_env no_json
           (user_message "send $20 to Alice") PAYMENT_TOOLS false
           (payment_plan "Alice" 20) 0.93 (or_introl eq_refl)).
  vm_compute. reflexivity.
Defined.

(* ================================================================= *)
(** ** Normalization and validation *)

Lemma normalize_calls_unfold (calls tools : list value) :
  _normalize_calls calls tools =
  (index <- _tool_index tools ;; mapM (normalized_call index) calls).
Proof. reflexivity. Qed.

(** The three outcomes of a coercion. *)
Lemma coerce_outcome (v t v' : value) (ok : bool) :
  _coerce_argument v t = Ok (v', ok) ->
  (ok = true -> _is_type_compatible v' t = true)
  /\ (ok = false -> v' = v /\ _is_type_compatible v t = false)
  /\ (_is_type_compatible v t = true -> v' = v /\ ok = true).
Proof.
  unfold _coerce_argument.
  destruct (_is_type_compatible v t) eqn:Hc.
  - intros H. injection H as <- <-. repeat split; auto; discriminate.
  - assert (Hfail : Ok (v, false) = Ok (v', ok) ->
              (ok = true -> _is_type_compatible v' t = true)
              /\ (ok = false -> v' = v /\ false = false)
              /\ (false = true -> v' = v /\ ok = true)).
    { intros H. injection H as <- <-. repeat split; discriminate. }
    destruct v; try exact Hfail.
    destruct (eq_str t "number") eqn:Hn.
    { apply eq_str_true in Hn. subst t.
      destruct (float_of_string s); [|exact Hfail].
      intros H. injection H as <- <-. repeat split; discriminate. }
    destruct (eq_str t "integer" && isdigit s) eqn:Hi.
    { apply andb_prop in Hi. destruct Hi as [Hi _].
      apply eq_str_true in Hi. subst t.
      destruct (int_of_digit_string s); cbn [bind]; [|discriminate].
      intros H. injection H as <- <-. repeat split; discriminate. }
    destruct (eq_str t "boolean") eqn:Hb; [|exact Hfail].
    apply eq_str_true in Hb. subst t.
    destruct (one_of _ _).
    { intros H. injection H as <- <-. repeat split; discriminate. }
    destruct (one_of _ _); [|exact Hfail].
    intros H. injection H as <- <-. repeat split; discriminate.
Qed.

(** Coercing the outcome of a coercion gives the same outcome. *)
Lemma coerce_stable (v t v' : value) (ok : bool) :
  _coerce_argument v t = Ok (v', ok) ->
  _coerce_argument v' t = Ok (v', ok).
Proof.
  intros H. destruct (coerce_outcome _ _ _ _ H) as [Hok [Hfail _]].
  destruct ok.
  - unfold _coerce_argument. now rewrite (Hok eq_refl).
  - destruct (Hfail eq_refl) as [-> _]. exact H.
Qed.

(** The type the normalizer looks up is the declared type. *)
Lemma normalizer_type (spec : _ToolSpec) (key : string) :
  (if dict_mem (ts_properties spec) key
   then match dict_get (ts_properties spec) key VNone with
        | VDict schema => dict_get schema "type" VNone
        | _ => VNone
        end
   else VNone) = declared_type spec key.
Proof.
  unfold declared_type, dict_mem, dict_get.
  now destruct (dict_lookup (ts_properties spec) key).
Qed.

Lemma dict_set_fresh (d : dict) (k : string) (v : value) :
  ~ In k (map fst d) -> dict_set d k v = (d ++ [(k, v)])%list.
Proof.
  induction d as [|[k' v'] d IH]; cbn; intros Hn; [reflexivity|].
  destruct (String.eqb_spec k' k) as [->|_]; [tauto|].
  rewrite IH; tauto.
Qed.

Lemma mapM_keys (spec : _ToolSpec) (args next : dict) :
  mapM (coerced_argument spec) args = Ok next ->
  map fst next = map fst args.
Proof.
  revert next. induction args as [|[k v] args IH]; intros next H.
  - injection H as <-. reflexivity.
  - cbn [mapM] in H. unfold coerced_argument at 1 in H. cbn [fst snd] in H.
    destruct (_coerce_argument v (declared_type spec k)) as [cr|];
      cbn [bind] in H; [|discriminate].
    destruct (mapM (coerced_argument spec) args) as [rest|];
      cbn [bind] in H; [|discriminate].
    injection H as <-. cbn. now rewrite (IH rest eq_refl).
Qed.

(** On distinct keys the loop over the arguments coerces them one by one,
    in order. *)
Lemma normalize_arguments_spec (spec : _ToolSpec) (args : dict) :
  NoDup (map fst args) ->
  forall acc : dict,
    (forall k, In k (map fst args) -> ~ In k (map fst acc)) ->
    foldM
      (fun next_args kv =>
         let '(key, v) := kv in
         let expected_type :=
           if dict_mem (ts_properties spec) key
           then match dict_get (ts_properties spec) key VNone with
                | VDict schema => dict_get schema "type" VNone
                | _ => VNone
                end
           else VNone in
         cr <- _coerce_argument v expected_type ;;
         Ok (dict_set next_args key (fst cr)))
      args acc
    = (next <- mapM (coerced_argument spec) args ;; Ok (acc ++ next)%list).
Proof.
  induction args as [|[k v] args IH]; intros Hnd acc Hfresh.
  - cbn. now rewrite app_nil_r.
  - cbn [foldM mapM]. cbv zeta. rewrite normalizer_type.
    unfold coerced_argument at 1. cbn [fst snd].
    destruct (_coerce_argument v (declared_type spec k)) as [[c ok]|];
      cbn [bind fst]; [|reflexivity].
    inversion Hnd as [|? ? Hk Hnd']; subst.
    rewrite dict_set_fresh by (apply Hfresh; now left).
    rewrite IH; trivial.
    + destruct (mapM (coerced_argument spec) args); cbn [bind];
        [|reflexivity].
      now rewrite <- app_assoc.
    + intros k' Hin. rewrite map_app, in_app_iff. cbn.
      intros [Hacc | [-> | []]].
      * apply (Hfresh k'); [now right | exact Hacc].
      * contradiction.
Qed.

Lemma normalized_call_spec (index : tool_index) (call : value) :
  distinct_argument_keys call ->
  normalized_call index call =
  (name <- py_get call "name" VNone ;;
   args <- call_arguments call ;;
   spec <- index_get index name ;;
   match spec with
   | Some spec => next <- mapM (coerced_argument spec) args ;;
                  Ok (mk_call name next)
   | None => Ok (mk_call name args)
   end).
Proof.
  intros Hd. unfold normalized_call.
  destruct (py_get call "name" VNone) as [name|]; cbn [bind]; [|reflexivity].
  destruct (call_arguments call) as [args|] eqn:Ha; cbn [bind];
    [|reflexivity].
  destruct (index_get index name) as [[spec|]|]; cbn [bind]; try reflexivity.
  rewrite normalize_arguments_spec; [| now apply Hd | intros k _ []].
  now destruct (mapM (coerced_argument spec) args).
Qed.

Lemma mk_call_name (name : value) (args : dict) :
  py_get (mk_call name args) "name" VNone = Ok name.
Proof. reflexivity. Qed.

Lemma mk_call_arguments (name : value) (args : dict) :
  call_arguments (mk_call name args) = Ok args.
Proof. reflexivity. Qed.

Lemma dict_mem_keys (d1 d2 : dict) (k : string) :
  map fst d1 = map fst d2 -> dict_mem d1 k = dict_mem d2 k.
Proof.
  unfold dict_mem. revert d2.
  induction d1 as [|[k1 v1] d1 IH]; intros [|[k2 v2] d2] H;
    try discriminate H; [reflexivity|].
  injection H as -> H. cbn.
  destruct (String.eqb k2 k); [reflexivity | now apply IH].
Qed.

Lemma missing_keys_keys (required : list value) (d1 d2 : dict) :
  map fst d1 = map fst d2 -> missing_keys required d1 = missing_keys required d2.
Proof.
  intros H. induction required as [|key required IH]; [reflexivity|].
  cbn [missing_keys]. rewrite IH.
  destruct key; cbn [py_in_dict]; try reflexivity.
  now rewrite (dict_mem_keys d1 d2 s H).
Qed.

(** The report of an argument is the report of its normalized form. *)
Lemma argument_issues_normalized (name : value) (spec : _ToolSpec)
  (args next : dict) :
  mapM (coerced_argument spec) args = Ok next ->
  mapM (spec_argument_issue name spec) next
  = mapM (spec_argument_issue name spec) args
  /\ mapM (coerced_argument spec) next = Ok next.
Proof.
  revert next. induction args as [|[k v] args IH]; intros next H.
  - injection H as <-. split; reflexivity.
  - cbn [mapM] in H. unfold coerced_argument at 1 in H. cbn [fst snd] in H.
    destruct (_coerce_argument v (declared_type spec k)) as [[c ok]|] eqn:Hc;
      cbn [bind fst] in H; [|discriminate].
    destruct (mapM (coerced_argument spec) args) as [rest|];
      cbn [bind] in H; [|discriminate].
    injection H as <-.
    destruct (IH rest eq_refl) as [IH1 IH2].
    pose proof (coerce_stable _ _ _ _ Hc) as Hs.
    cbn [mapM]. unfold spec_argument_issue at 1 3, coerced_argument at 1.
    cbn [fst snd]. rewrite Hs, Hc, IH1, IH2. cbn [bind snd fst].
    split; [|reflexivity].
    destruct ok; [reflexivity|].
    destruct (coerce_outcome _ _ _ _ Hc) as [_ [Hf _]].
    destruct (Hf eq_refl) as [-> _]. reflexivity.
Qed.

(** A function that cannot tell a call from its image gives the same
    traversal on both lists. *)
Lemma mapM_through {A B : Type} (f : A -> result A) (g : A -> result B)
  (l l' : list A) :
  mapM f l = Ok l' ->
  (forall x x', In x l -> f x = Ok x' -> g x' = g x) ->
  mapM g l' = mapM g l.
Proof.
  revert l'. induction l as [|x l IH]; intros l' H Hg.
  - injection H as <-. reflexivity.
  - cbn [mapM] in H.
    destruct (f x) as [x'|] eqn:Hx; cbn [bind] in H; [|discriminate].
    destruct (mapM f l) as [rest|]; cbn [bind] in H; [|discriminate].
    injection H as <-. cbn [mapM].
    rewrite (Hg x x' (or_introl eq_refl) Hx), (IH rest eq_refl);
      [reflexivity|].
    intros y y' Hy. apply Hg. now right.
Qed.

Lemma normalized_call_checked (repr : value -> string) (index : tool_index)
  (call call' : value) :
  distinct_argument_keys call ->
  normalized_call index call = Ok call' ->
  spec_check_call repr index call' = spec_check_call repr index call
  /\ normalized_call index call' = Ok call'
  /\ distinct_argument_keys call'.
Proof.
  intros Hd H. rewrite normalized_call_spec in H by exact Hd.
  unfold spec_check_call.
  destruct (py_get call "name" VNone) as [name|]; cbn [bind] in *;
    [|discriminate].
  destruct (call_arguments call) as [args|] eqn:Ha; cbn [bind] in *;
    [|discriminate].
  specialize (Hd args Ha).
  destruct (index_get index name) as [[spec|]|] eqn:Hi; cbn [bind] in *;
    [| |discriminate].
  - destruct (mapM (coerced_argument spec) args) as [next|] eqn:Hn;
      cbn [bind] in H; [|discriminate].
    injection H as <-.
    pose proof (mapM_keys _ _ _ Hn) as Hk.
    destruct (argument_issues_normalized name spec _ _ Hn) as [Hiss Hfix].
    assert (Hd' : distinct_argument_keys (mk_call name next)).
    { intros a Ha'. rewrite mk_call_arguments in Ha'. injection Ha' as <-.
      now rewrite Hk. }
    split; [|split; [|exact Hd']].
    + rewrite mk_call_name, mk_call_arguments. cbn [bind]. rewrite Hi.
      cbn [bind]. now rewrite (missing_keys_keys _ _ _ Hk), Hiss.
    + rewrite normalized_call_spec by exact Hd'.
      rewrite mk_call_name, mk_call_arguments. cbn [bind]. rewrite Hi.
      cbn [bind]. now rewrite Hfix.
  - injection H as <-.
    assert (Hd' : distinct_argument_keys (mk_call name args)).
    { intros a Ha'. rewrite mk_call_arguments in Ha'. now injection Ha' as <-. }
    split; [|split; [|exact Hd']].
    + rewrite mk_call_name, mk_call_arguments. cbn [bind]. now rewrite Hi.
    + rewrite normalized_call_spec by exact Hd'.
      rewrite mk_call_name, mk_call_arguments. cbn [bind]. now rewrite Hi.
Qed.

(** The validator as one report per call. *)
Lemma validate_calls_reports (repr : value -> string)
  (calls tools : list value) :
  _validate_calls repr calls tools =
  (index <- _tool_index tools ;;
   reports <- mapM (spec_check_call repr index) calls ;;
   Ok (spec_validation reports)).
Proof.
  unfold _validate_calls.
  destruct (_tool_index tools) as [index|]; cbn [bind]; [|reflexivity].
  rewrite validate_loop_spec.
  destruct (mapM (spec_check_call repr index) calls) as [reports|];
    cbn [bind]; [|reflexivity].
  now rewrite fold_add_report.
Qed.

Lemma mapM_fixed {A : Type} (f : A -> result A) (l l' : list A) :
  mapM f l = Ok l' ->
  (forall x x', In x l -> f x = Ok x' -> f x' = Ok x') ->
  mapM f l' = Ok l'.
Proof.
  revert l'. induction l as [|x l IH]; intros l' H Hf.
  - injection H as <-. reflexivity.
  - cbn [mapM] in H.
    destruct (f x) as [x'|] eqn:Hx; cbn [bind] in H; [|discriminate].
    destruct (mapM f l) as [rest|]; cbn [bind] in H; [|discriminate].
    injection H as <-. cbn [mapM].
    rewrite (Hf x x' (or_introl eq_refl) Hx). cbn [bind].
    rewrite (IH rest eq_refl); [reflexivity|].
    intros y y' Hy. apply Hf. now right.
Qed.

Lemma mapM_Forall2 {A B : Type} (f : A -> result B) (R : A -> B -> Prop)
  (l : list A) (l' : list B) :
  mapM f l = Ok l' ->
  (forall x y, In x l -> f x = Ok y -> R x y) ->
  Forall2 R l l'.
Proof.
  revert l'. induction l as [|x l IH]; intros l' H HR.
  - injection H as <-. constructor.
  - cbn [mapM] in H.
    destruct (f x) as [y|] eqn:Hx; cbn [bind] in H; [|discriminate].
    destruct (mapM f l) as [rest|]; cbn [bind] in H; [|discriminate].
    injection H as <-. constructor.
    + apply HR; [now left | exact Hx].
    + apply IH; [reflexivity|]. intros. apply HR; [now right | assumption].
Qed.

Lemma spoken_calls_distinct : Forall distinct_argument_keys spoken_calls.
Proof.
  repeat constructor; intros args H; injection H as <-;
    repeat constructor; cbn; intuition discriminate.
Defined.

(** X6. Normalizing calls never changes what the validator says about
    them: [_validate_calls] returns for the normalized calls exactly what
    it returns for the original ones (the same verdict, the same issue
    lists, or the same exception), because it coerces each argument
    itself. *)
Theorem normalization_preserves_validation (repr : value -> string)
  (calls tools calls' : list value) :
  Forall distinct_argument_keys calls ->
  _normalize_calls calls tools = Ok calls' ->
  _validate_calls repr calls' tools = _validate_calls repr calls tools.
Proof.
  intros Hd H. rewrite normalize_calls_unfold in H.
  rewrite !validate_calls_reports.
  destruct (_tool_index tools) as [index|]; cbn [bind] in *; [|discriminate].
  rewrite (mapM_through (normalized_call index) (spec_check_call repr index)
             calls calls' H); [reflexivity|].
  intros call call' Hin Hc.
  rewrite Forall_forall in Hd.
  now destruct (normalized_call_checked repr index call call' (Hd call Hin) Hc).
Qed.

Lemma normalization_preserves_validation_witness :
  _validate_calls plain_repr typed_calls PAYMENT_TOOLS
  = _validate_calls plain_repr spoken_calls PAYMENT_TOOLS.
Proof.
  apply (normalization_preserves_validation plain_repr spoken_calls
           PAYMENT_TOOLS typed_calls spoken_calls_distinct).
  vm_compute. reflexivity.
Defined.

(** X7. [_normalize_calls] is idempotent: normalizing its own output
    against the same tools returns that output unchanged. *)
Theorem normalization_idempotent (calls tools calls' : list value) :
  Forall distinct_argument_keys calls ->
  _normalize_calls calls tools = Ok calls' ->
  _normalize_calls calls' tools = Ok calls'.
Proof.
  intros Hd H. rewrite normalize_calls_unfold in *.
  destruct (_tool_index tools) as [index|]; cbn [bind] in *; [|discriminate].
  apply (mapM_fixed (normalized_call index) calls calls' H).
  intros call call' Hin Hc.
  rewrite Forall_forall in Hd.
  now destruct (normalized_call_checked plain_repr index call call'
                  (Hd call Hin) Hc) as [_ [Hfix _]].
Qed.

Lemma normalization_idempotent_witness :
  _normalize_calls typed_calls PAYMENT_TOOLS = Ok typed_calls.
Proof.
  apply (normalization_idempotent spoken_calls PAYMENT_TOOLS typed_calls
           spoken_calls_distinct).
  vm_compute. reflexivity.
Defined.

Lemma coerced_arguments_sound (spec : _ToolSpec) (args next : dict) :
  mapM (coerced_argument spec) args = Ok next ->
  Forall2
    (fun kv kv' =>
       snd kv' = snd kv
       \/ _is_type_compatible (snd kv') (declared_type spec (fst kv)) = true)
    args next.
Proof.
  intros H. apply (mapM_Forall2 _ _ _ _ H).
  intros [k v] [k' v'] _. unfold coerced_argument. cbn [fst snd].
  destruct (_coerce_argument v (declared_type spec k)) as [[c ok]|] eqn:Hc;
    cbn [bind fst]; [|discriminate].
  intros E. injection E as <- <-.
  destruct (coerce_outcome _ _ _ _ Hc) as [Hok [Hfail _]].
  destruct ok; [right; now apply Hok | left; now apply Hfail].
Qed.

(** X8. [_normalize_calls] returns one call per input call, in order, with
    the same name and the same argument keys in the same order; the
    arguments of a call to an unknown tool are kept as they are, and every
    other argument is either unchanged or compatible with the type its
    tool declares. *)
Theorem normalization_keeps_calls (calls tools calls' : list value)
  (index : tool_index) :
  Forall distinct_argument_keys calls ->
  _tool_index tools = Ok index ->
  _normalize_calls calls tools = Ok calls' ->
  List.length calls' = List.length calls
  /\ Forall2 (normalized_from index) calls calls'.
Proof.
  intros Hd Hi H. rewrite normalize_calls_unfold, Hi in H. cbn [bind] in H.
  assert (HF : Forall2 (normalized_from index) calls calls').
  { apply (mapM_Forall2 _ _ _ _ H). intros call call' Hin Hc.
    rewrite Forall_forall in Hd.
    rewrite normalized_call_spec in Hc by (now apply Hd).
    unfold normalized_from.
    destruct (py_get call "name" VNone) as [name|]; cbn [bind] in Hc;
      [|discriminate].
    destruct (call_arguments call) as [args|]; cbn [bind] in Hc;
      [|discriminate].
    unfold index_get in Hc.
    destruct (hashable name); cbn [bind] in Hc; [|discriminate].
    destruct (index_lookup index name) as [spec|] eqn:Hl.
    - destruct (mapM (coerced_argument spec) args) as [next|] eqn:Hn;
        cbn [bind] in Hc; [|discriminate].
      injection Hc as <-. exists name, args, next.
      rewrite Hl. repeat split; trivial.
      + now apply mapM_keys with (spec := spec).
      + now apply coerced_arguments_sound.
    - injection Hc as <-. exists name, args, args.
      rewrite Hl. repeat split; trivial. }
  split; [|exact HF].
  symmetry. now apply Forall2_length with (R := normalized_from index).
Qed.

Lemma normalization_keeps_calls_witness :
  List.length typed_calls = List.length spoken_calls
  /\ Forall2 (normalized_from payment_index) spoken_calls typed_calls.
Proof.
  apply (normalization_keeps_calls spoken_calls PAYMENT_TOOLS typed_calls
           payment_index spoken_calls_distinct);
    vm_compute; reflexivity.
Defined.

Lemma flat_map_nil {A B : Type} (f : A -> list B) (l : list A) :
  flat_map f l = [] -> forall x, In x l -> f x = [].
Proof.
  induction l as [|y l IH]; cbn; intros H x Hin; [contradiction|].
  apply app_eq_nil in H. destruct H as [Hy Hl].
  destruct Hin as [<-|Hin]; [exact Hy | now apply IH].
Qed.

Lemma missing_keys_nil (required : list value) (args : dict) :
  missing_keys required args = Ok [] ->
  forall key, In key required -> key_present args key = true.
Proof.
  induction required as [|k required IH]; intros H key Hin; [contradiction|].
  cbn [missing_keys] in H.
  destruct (py_in_dict k args) as [present|] eqn:Hp; cbn [bind] in H;
    [|discriminate].
  destruct (missing_keys required args) as [rest|]; cbn [bind] in H;
    [|discriminate].
  destruct present; [|discriminate].
  injection H as ->.
  destruct Hin as [<-|Hin]; [|now apply IH].
  destruct k; cbn in Hp; try discriminate; now injection Hp.
Qed.

Lemma argument_issues_nil (name : value) (spec : _ToolSpec) (args : dict)
  (issues : list (list ArgTypeIssue)) :
  mapM (spec_argument_issue name spec) args = Ok issues ->
  List.concat issues = [] ->
  forall k v, In (k, v) args ->
    exists v', _coerce_argument v (declared_type spec k) = Ok (v', true).
Proof.
  revert issues.
  induction args as [|[k0 v0] args IH]; intros issues H Hnil k v Hin;
    [contradiction|].
  cbn [mapM] in H. unfold spec_argument_issue at 1 in H. cbn [fst snd] in H.
  destruct (_coerce_argument v0 (declared_type spec k0)) as [[c ok]|] eqn:Hc;
    cbn [bind snd] in H; [|discriminate].
  destruct (mapM (spec_argument_issue name spec) args) as [rest|];
    cbn [bind] in H; [|discriminate].
  injection H as <-. cbn [List.concat] in Hnil.
  apply app_eq_nil in Hnil. destruct Hnil as [Hhead Hrest].
  destruct Hin as [E|Hin].
  - injection E as <- <-. destruct ok; [eauto | discriminate Hhead].
  - now apply (IH rest eq_refl Hrest).
Qed.

Lemma mapM_In {A B : Type} (f : A -> result B) (l : list A) (l' : list B) :
  mapM f l = Ok l' ->
  forall x, In x l -> exists y, f x = Ok y /\ In y l'.
Proof.
  revert l'. induction l as [|a l IH]; intros l' H x Hin; [contradiction|].
  cbn [mapM] in H.
  destruct (f a) as [b|] eqn:Ha; cbn [bind] in H; [|discriminate].
  destruct (mapM f l) as [rest|]; cbn [bind] in H; [|discriminate].
  injection H as <-.
  destruct Hin as [<-|Hin].
  - exists b. split; [exact Ha | now left].
  - destruct (IH rest eq_refl x Hin) as [y [Hy Hiny]].
    exists y. split; [exact Hy | now right].
Qed.

Lemma validate_reports_inv (repr : value -> string) (calls tools : list value)
  (index : tool_index) (v : Validation) :
  _tool_index tools = Ok index ->
  _validate_calls repr calls tools = Ok v ->
  exists reports : list CallReport,
    mapM (spec_check_call repr index) calls = Ok reports
    /\ v = spec_validation reports.
Proof.
  intros Hi H. rewrite validate_calls_reports, Hi in H. cbn [bind] in H.
  destruct (mapM (spec_check_call repr index) calls) as [reports|];
    cbn [bind] in H; [|discriminate].
  injection H as <-. eauto.
Qed.

(** X9. A call whose name is not in the tool index always shows up in the
    result: [str(name)] is in [unknown_tool] and the calls are not valid,
    wherever the call stands in the list and whatever the other calls
    are. *)
Theorem unknown_tool_is_reported (repr : value -> string)
  (calls tools : list value) (index : tool_index) (v : Validation)
  (call name : value) :
  _tool_index tools = Ok index ->
  _validate_calls repr calls tools = Ok v ->
  In call calls ->
  py_get call "name" VNone = Ok name ->
  index_lookup index name = None ->
  exists shown : string,
    py_str repr name = Ok shown
    /\ In shown (unknown_tool v)
    /\ valid v = false.
Proof.
  intros Hi H Hin Hname Hl.
  destruct (validate_reports_inv _ _ _ _ _ Hi H) as [reports [Hr ->]].
  destruct (mapM_In _ _ _ Hr call Hin) as [report [Hc Hrep]].
  unfold spec_check_call in Hc. rewrite Hname in Hc. cbn [bind] in Hc.
  destruct (call_arguments call) as [args|]; cbn [bind] in Hc;
    [|discriminate].
  unfold index_get in Hc.
  destruct (hashable name); cbn [bind] in Hc; [|discriminate].
  rewrite Hl in Hc.
  destruct (py_str repr name) as [shown|]; cbn [bind] in Hc; [|discriminate].
  injection Hc as <-.
  assert (Hshown : In shown (flat_map rep_unknown_tool reports)).
  { apply in_flat_map. eexists. split; [exact Hrep | now left]. }
  exists shown. split; [reflexivity|]. split; [exact Hshown|].
  cbn [valid spec_validation].
  destruct (flat_map rep_unknown_tool reports); [contradiction | reflexivity].
Qed.

Lemma unknown_tool_is_reported_witness :
  exists shown : string,
    py_str plain_repr (VStr "transfer_funds") = Ok shown
    /\ In shown (unknown_tool flawed_validation)
    /\ valid flawed_validation = false.
Proof.
  apply (unknown_tool_is_reported plain_repr stray_calls PAYMENT_TOOLS
           payment_index flawed_validation
           (mk_call (VStr "transfer_funds") []) (VStr "transfer_funds"));
    [ vm_compute; reflexivity
    | vm_compute; reflexivity
    | left; reflexivity
    | reflexivity
    | vm_compute; reflexivity ].
Defined.

Lemma index_lookup_hashable (index : tool_index) (name : value)
  (spec : _ToolSpec) :
  index_lookup index name = Some spec -> hashable name = true.
Proof.
  destruct name; try reflexivity;
    (induction index as [|[k s] index IH]; cbn; [discriminate|];
     destruct k; cbn; exact IH).
Qed.

Lemma missing_keys_all_present (required : list value) (args : dict) :
  (forall key, In key required -> key_present args key = true) ->
  missing_keys required args = Ok [].
Proof.
  induction required as [|k required IH]; intros H; [reflexivity|].
  cbn [missing_keys]. rewrite IH by (intros; apply H; now right).
  pose proof (H k (or_introl eq_refl)) as Hk.
  destruct k; cbn in Hk; try discriminate. cbn. now rewrite Hk.
Qed.

Lemma argument_issues_all_pass (name : value) (spec : _ToolSpec)
  (args : dict) :
  (forall k v, In (k, v) args ->
     exists v', _coerce_argument v (declared_type spec k) = Ok (v', true)) ->
  exists issues : list (list ArgTypeIssue),
    mapM (spec_argument_issue name spec) args = Ok issues
    /\ List.concat issues = [].
Proof.
  induction args as [|[k v] args IH]; intros H.
  - exists []. split; reflexivity.
  - destruct IH as [issues [Hi Hnil]]; [intros; apply H; now right|].
    destruct (H k v (or_introl eq_refl)) as [v' Hc].
    exists ([] :: issues). cbn [mapM]. unfold spec_argument_issue at 1.
    cbn [fst snd]. rewrite Hc, Hi. cbn. split; [reflexivity | exact Hnil].
Qed.

Lemma clean_reports (repr : value -> string) (index : tool_index)
  (calls : list value) :
  Forall (call_checks index) calls ->
  exists reports : list CallReport,
    mapM (spec_check_call repr index) calls = Ok reports
    /\ spec_validation reports = clean_validation.
Proof.
  induction 1 as [|call calls Hc _ IH].
  - exists []. split; reflexivity.
  - destruct IH as [reports [Hr Hv]].
    destruct Hc as [name [args [spec [Hn [Ha [Hl [Hreq Hargs]]]]]]].
    destruct (argument_issues_all_pass name spec args Hargs)
      as [issues [Hi Hnil]].
    exists ({| rep_unknown_tool := []; rep_missing_required := [];
               rep_arg_type_issues := [] |} :: reports).
    cbn [mapM]. unfold spec_check_call at 1. rewrite Hn, Ha. cbn [bind].
    unfold index_get. rewrite (index_lookup_hashable _ _ _ Hl), Hl.
    cbn [bind]. rewrite (missing_keys_all_present _ _ Hreq), Hi.
    cbn [bind is_empty]. rewrite Hnil, Hr. cbn [bind].
    split; [reflexivity | exact Hv].
Qed.

(** X10. [_validate_calls] answers [valid] with three empty issue lists
    exactly when every call names an indexed tool, supplies each of its
    required keys, and has only arguments that coerce to their declared
    type; and a result with [valid = True] never carries an issue. *)
Theorem valid_exactly_when_every_call_checks (repr : value -> string)
  (calls tools : list value) (index : tool_index) :
  _tool_index tools = Ok index ->
  (Forall (call_checks index) calls <->
   _validate_calls repr calls tools = Ok clean_validation)
  /\ (forall v : Validation,
        _validate_calls repr calls tools = Ok v ->
        valid v = true -> v = clean_validation).
Proof.
  intros Hi. split; [split|].
  - intros Hc. rewrite validate_calls_reports, Hi. cbn [bind].
    destruct (clean_reports repr index calls Hc) as [reports [Hr Hv]].
    rewrite Hr. cbn [bind]. now rewrite Hv.
  - intros H.
    destruct (validate_reports_inv _ _ _ _ _ Hi H) as [reports [Hr Hv]].
    apply Forall_forall. intros call Hin.
    assert (Hvalid : valid (spec_validation reports) = true)
      by (now rewrite <- Hv).
    cbn [valid spec_validation] in Hvalid.
    rewrite !andb_true_iff, !is_empty_true in Hvalid.
    destruct Hvalid as [[Hu Hm] Ha].
    destruct (mapM_In _ _ _ Hr call Hin) as [report [Hc Hrep]].
    pose proof (flat_map_nil _ _ Hu report Hrep) as Hu'.
    pose proof (flat_map_nil _ _ Hm report Hrep) as Hm'.
    pose proof (flat_map_nil _ _ Ha report Hrep) as Ha'.
    unfold spec_check_call in Hc. unfold call_checks.
    destruct (py_get call "name" VNone) as [name|]; cbn [bind] in Hc;
      [|discriminate].
    destruct (call_arguments call) as [args|]; cbn [bind] in Hc;
      [|discriminate].
    unfold index_get in Hc.
    destruct (hashable name); cbn [bind] in Hc; [|discriminate].
    destruct (index_lookup index name) as [spec|] eqn:Hl.
    + destruct (missing_keys (ts_required spec) args) as [missing|] eqn:Hmiss;
        cbn [bind] in Hc; [|discriminate].
      destruct (mapM (spec_argument_issue name spec) args) as [issues|] eqn:His;
        cbn [bind] in Hc; [|discriminate].
      injection Hc as <-. cbn in Hm', Ha'.
      destruct missing; [|discriminate Hm'].
      exists name, args, spec. repeat split; trivial.
      * now apply missing_keys_nil.
      * now apply (argument_issues_nil name spec args issues).
    + destruct (py_str repr name); cbn [bind] in Hc; [|discriminate].
      injection Hc as <-. discriminate Hu'.
  - intros v H Hvalid.
    destruct (proj1 (validate_valid_iff _ _ _ _ H) Hvalid) as [Hu [Hm Ha]].
    destruct v as [vl m u a]. cbn in *. now subst.
Qed.

Lemma valid_exactly_when_every_call_checks_witness :
  Forall (call_checks payment_index) (payment_plan "Alice" 20).
Proof.
  assert (Hi : _tool_index PAYMENT_TOOLS = Ok payment_index)
    by (vm_compute; reflexivity).
  apply (proj2 (proj1 (valid_exactly_when_every_call_checks plain_repr
                         (payment_plan "Alice" 20) PAYMENT_TOOLS
                         payment_index Hi))).
  vm_compute. reflexivity.
Defined.

(* ================================================================= *)
(** ** The payment context and the user text *)

Lemma dict_lookup_set (d : dict) (k' : string) (v' : value) (k : string) :
  dict_lookup (dict_set d k' v') k
  = if String.eqb k' k then Some v' else dict_lookup d k.
Proof.
  induction d as [|[k0 v0] d IH]; cbn.
  - reflexivity.
  - destruct (String.eqb_spec k0 k') as [->|Hne]; cbn.
    + now destruct (String.eqb k' k).
    + rewrite IH. destruct (String.eqb_spec k0 k) as [->|_]; [|reflexivity].
      destruct (String.eqb_spec k' k) as [->|_]; [contradiction | reflexivity].
Qed.

(** A guarded store: the key is written only when it is absent. *)
Lemma guarded_set_keeps (d : dict) (k' : string) (v' : value) (b : bool)
  (k : string) (v : value) :
  dict_lookup d k = Some v ->
  dict_lookup (if b && negb (dict_mem d k') then dict_set d k' v' else d) k
  = Some v.
Proof.
  intros H. destruct b; cbn [andb]; [|exact H].
  unfold dict_mem. destruct (dict_lookup d k') eqn:Hk'; cbn [negb]; [exact H|].
  rewrite dict_lookup_set.
  destruct (String.eqb_spec k' k) as [->|_]; [congruence | exact H].
Qed.

Lemma guarded_set_keys (d : dict) (k' : string) (v' : value) (b : bool)
  (k : string) :
  dict_mem (if b && negb (dict_mem d k') then dict_set d k' v' else d) k = true ->
  dict_mem d k = true \/ (k = k' /\ b = true /\ dict_mem d k' = false).
Proof.
  destruct b; cbn [andb]; [|auto].
  destruct (dict_mem d k') eqn:Hk'; cbn [negb]; [auto|].
  unfold dict_mem at 1. rewrite dict_lookup_set.
  destruct (String.eqb_spec k' k) as [->|_]; [auto|].
  intros H. now left.
Qed.

(** X11. A payment context supplied by the caller takes precedence over
    the text: [_extract_payment_context] never changes an entry the
    caller supplied, and the only keys it can add are [amount],
    [new_payee] and [first_time_payee]. *)
Theorem caller_context_takes_precedence (messages : list value)
  (supplied ctx : dict) :
  _extract_payment_context messages (Some supplied) = Ok ctx ->
  (forall k v, dict_lookup supplied k = Some v -> dict_lookup ctx k = Some v)
  /\ (forall k, dict_mem ctx k = true ->
        dict_mem supplied k = true
        \/ k = "amount" \/ k = "new_payee" \/ k = "first_time_payee").
Proof.
  unfold _extract_payment_context. intros H.
  apply bind_ok in H. destruct H as [joined [_ H]].
  set (t := lower joined) in *.
  apply bind_ok in H. destruct H as [ctx1 [H1 H]].
  injection H as <-.
  assert (Hkeep1 : forall k v, dict_lookup supplied k = Some v ->
                     dict_lookup ctx1 k = Some v).
  { intros k v Hk.
    destruct (Regex.search_group1 Regex.dollar_amount t) as [g|];
      [|now injection H1 as <-].
    unfold dict_mem in H1.
    destruct (dict_lookup supplied "amount") eqn:Ha; cbn [negb] in H1;
      [now injection H1 as <-|].
    destruct (float_of_group g); cbn [bind] in H1; [|discriminate].
    injection H1 as <-. rewrite dict_lookup_set.
    destruct (String.eqb_spec "amount" k) as [<-|_]; [congruence | exact Hk]. }
  assert (Hkeys1 : forall k, dict_mem ctx1 k = true ->
                     dict_mem supplied k = true \/ k = "amount").
  { intros k Hk.
    destruct (Regex.search_group1 Regex.dollar_amount t) as [g|];
      [|injection H1 as <-; now left].
    destruct (dict_mem supplied "amount"); cbn [negb] in H1;
      [injection H1 as <-; now left|].
    destruct (float_of_group g); cbn [bind] in H1; [|discriminate].
    injection H1 as <-. unfold dict_mem in Hk. rewrite dict_lookup_set in Hk.
    destruct (String.eqb_spec "amount" k) as [E|_]; [right; now symmetry|].
    now left. }
  split.
  - intros k v Hk. apply guarded_set_keeps, guarded_set_keeps. now apply Hkeep1.
  - intros k Hk.
    apply guarded_set_keys in Hk. destruct Hk as [Hk | [E _]]; [|tauto].
    apply guarded_set_keys in Hk. destruct Hk as [Hk | [E _]]; [|tauto].
    destruct (Hkeys1 k Hk); tauto.
Qed.

Lemma caller_context_takes_precedence_witness :
  dict_lookup [("amount", VFloat 5); ("new_payee", VBool true)] "amount"
  = Some (VFloat 5).
Proof.
  refine (proj1 (caller_context_takes_precedence
                   (user_message "send $750 to a new payee")
                   [("amount", VFloat 5)]
                   [("amount", VFloat 5); ("new_payee", VBool true)] _)
            "amount" (VFloat 5) eq_refl).
  vm_compute. reflexivity.
Defined.

Lemma chars_text (l : list ascii) : chars (text l) = l.
Proof. apply list_ascii_of_string_of_list_ascii. Qed.

Lemma lower_char_dollar (c : ascii) :
  Ascii.eqb "$" (lower_char c) = Ascii.eqb "$" c.
Proof.
  destruct c as [[] [] [] [] [] [] [] []]; vm_compute; reflexivity.
Qed.

Lemma occurs_single (c : ascii) (l : list ascii) :
  occurs [c] l = existsb (Ascii.eqb c) l.
Proof.
  induction l as [|d l IH]; [reflexivity|].
  cbn [occurs starts_with existsb]. rewrite IH.
  now destruct (Ascii.eqb c d).
Qed.

Lemma search_needs_dollar (l : list ascii) (prev : option ascii) :
  existsb (Ascii.eqb "$") l = false ->
  Regex.search_from Regex.dollar_amount prev l = None.
Proof.
  revert prev. induction l as [|d l IH]; intros prev H.
  - reflexivity.
  - cbn [existsb] in H. apply orb_false_iff in H. destruct H as [Hd Hl].
    cbn [Regex.search_from]. rewrite (IH (Some d) Hl).
    unfold Regex.match_at, Regex.dollar_amount. cbn [Regex.run snd].
    now rewrite Hd.
Qed.

Lemma lower_keeps_dollars (l : list ascii) :
  existsb (Ascii.eqb "$") (map lower_char l) = existsb (Ascii.eqb "$") l.
Proof.
  induction l as [|c l IH]; [reflexivity|].
  cbn [map existsb]. now rewrite IH, lower_char_dollar.
Qed.

Lemma no_dollar_no_amount (s : string) :
  contains "$" s = false ->
  Regex.search_group1 Regex.dollar_amount (lower s) = None.
Proof.
  unfold contains, Regex.search_group1, Regex.search, lower. intros H.
  change (chars "$") with ["$"%char] in H. rewrite occurs_single in H.
  rewrite chars_text, search_needs_dollar; [reflexivity|].
  now rewrite lower_keeps_dollars.
Qed.

(** X12. An amount is read only after a dollar sign: when the user text
    has no "$", the planner plans the default amount 20.0, whatever
    numbers the text holds, and the payment context gets no amount, so
    the fallback policy sees the amount 0.0. *)
Theorem amount_needs_dollar_sign (messages : list value) (joined : string) :
  user_text messages = Ok joined ->
  contains "$" joined = false ->
  (exists payee : string,
     _extract_simple_payment joined = Ok (20%float, payee))
  /\ exists ctx : dict,
       _extract_payment_context messages None = Ok ctx
       /\ dict_mem ctx "amount" = false
       /\ context_amount ctx = Ok 0%float.
Proof.
  intros Hj Hd. pose proof (no_dollar_no_amount joined Hd) as Hn. split.
  - unfold _extract_simple_payment. rewrite Hn. cbn [bind]. eauto.
  - unfold _extract_payment_context. rewrite Hj. cbn [bind]. rewrite Hn.
    cbn [bind]. eexists. split; [reflexivity|].
    destruct (contains "new payee" (lower joined)),
             (contains "first time" (lower joined)); split; reflexivity.
Qed.

Lemma amount_needs_dollar_sign_witness :
  _extract_simple_payment "send 750 dollars to Bob" = Ok (20%float, "Bob")
  /\ _estimate_complexity (user_message "send 750 dollars to Bob")
     = Ok {| label := "single_intent"; signal_hits := 0;
             punctuation_hits := 0 |}.
Proof.
  split; [|vm_compute; reflexivity].
  destruct (proj1 (amount_needs_dollar_sign
                     (user_message "send 750 dollars to Bob")
                     "send 750 dollars to Bob" eq_refl eq_refl))
    as [payee Hp].
  rewrite Hp. f_equal. f_equal.
  vm_compute in Hp. now injection Hp.
Defined.

Lemma user_contents_app (l1 l2 : list value) :
  user_contents (l1 ++ l2) = (user_contents l1 ++ user_contents l2)%list.
Proof. unfold user_contents. apply flat_map_app. Qed.

(** X13. [generate_hybrid] reads its messages only through the joined
    text of the user messages: two message lists with the same user text
    give the same result, and a message that is no dict, or whose role is
    not "user" (a system or assistant turn), can be inserted anywhere
    without changing the result. *)
Theorem only_user_text_matters (repr : value -> string)
  (perf_counter : nat -> float) (getenv : string -> option string)
  (json_loads : string -> option value)
  (tools : list value) (threshold : float) :
  (forall m1 m2 : list value,
     user_text m1 = user_text m2 ->
     generate_hybrid repr perf_counter getenv json_loads m1 tools threshold
     = generate_hybrid repr perf_counter getenv json_loads m2 tools threshold)
  /\ (forall (before after : list value) (m : value),
        (forall d, m = VDict d ->
                   eq_str (dict_get d "role" VNone) "user" = false) ->
        generate_hybrid repr perf_counter getenv json_loads
          (before ++ m :: after) tools threshold
        = generate_hybrid repr perf_counter getenv json_loads
            (before ++ after) tools threshold).
Proof.
  assert (Hmain : forall m1 m2 : list value,
     user_text m1 = user_text m2 ->
     generate_hybrid repr perf_counter getenv json_loads m1 tools threshold
     = generate_hybrid repr perf_counter getenv json_loads m2 tools threshold).
  { intros m1 m2 H.
    assert (Hctx : _extract_payment_context m1 None
                   = _extract_payment_context m2 None)
      by (unfold _extract_payment_context; now rewrite H).
    assert (Hcx : _estimate_complexity m1 = _estimate_complexity m2)
      by (unfold _estimate_complexity; now rewrite H).
    assert (Hh : forall repair, _heuristic_local_calls m1 tools repair
                                = _heuristic_local_calls m2 tools repair)
      by (intros; unfold _heuristic_local_calls; now rewrite H).
    unfold generate_hybrid, _call_local_planner, _call_cloud_planner.
    now rewrite Hctx, Hcx, !Hh. }
  split; [exact Hmain|].
  intros before after m Hm. apply Hmain.
  unfold user_text. change (m :: after) with ([m] ++ after)%list.
  rewrite !user_contents_app.
  replace (user_contents [m]) with (@nil value); [reflexivity|].
  destruct m; try reflexivity. cbn. now rewrite (Hm d eq_refl).
Qed.

Lemma only_user_text_matters_witness :
  generate_hybrid plain_repr still_clock empty_env no_json
    ([] ++ VDict [("role", VStr "system"); ("content", VStr "be brief")]
        :: user_message "send $20 to Alice")%list PAYMENT_TOOLS 0.97
  = generate_hybrid plain_repr still_clock empty_env no_json
      ([] ++ user_message "send $20 to Alice")%list PAYMENT_TOOLS 0.97.
Proof.
  apply (proj2 (only_user_text_matters plain_repr still_clock empty_env
                  no_json PAYMENT_TOOLS 0.97) []
           (user_message "send $20 to Alice")
           (VDict [("role", VStr "system"); ("content", VStr "be brief")])).
  intros d H. injection H as <-. reflexivity.
Defined.

(** X14. Against the default catalog the heuristic planner always plans
    the same four calls (resolve the payee, assess the risk, create the
    intent, confirm), for some payee and amount; such a plan is left
    unchanged by normalization and is valid with no issue. *)
Theorem default_catalog_plan (repr : value -> string) :
  (forall (payee : string) (amount : float),
     _normalize_calls (payment_plan payee amount) PAYMENT_TOOLS
     = Ok (payment_plan payee amount)
     /\ _validate_calls repr (payment_plan payee amount) PAYMENT_TOOLS
        = Ok clean_validation)
  /\ (forall (messages : list value) (repair : bool) (calls : list value)
            (c : float),
        _heuristic_local_calls messages PAYMENT_TOOLS repair = Ok (calls, c) ->
        exists (payee : string) (amount : float),
          calls = payment_plan payee amount).
Proof.
  split.
  - intros payee amount. split; vm_compute; reflexivity.
  - intros messages repair calls c. unfold _heuristic_local_calls.
    destruct (user_text messages) as [t|]; cbn [bind]; [|discriminate].
    change (_tool_index PAYMENT_TOOLS)
      with (Ok (A := tool_index) payment_index).
    cbn [bind].
    destruct (_extract_simple_payment t) as [[amount payee]|]; cbn [bind];
      [|discriminate].
    intros H. exists payee, amount.
    vm_compute in H. injection H as <- _. reflexivity.
Qed.

Lemma default_catalog_plan_witness :
  exists (payee : string) (amount : float),
    payment_plan "Alice" 20 = payment_plan payee amount.
Proof.
  apply (proj2 (default_catalog_plan plain_repr)
           (user_message "send $20 to Alice") false
           (payment_plan "Alice" 20) 0.93%float).
  vm_compute. reflexivity.
Defined.

(* ================================================================= *)
(** ** The amount pattern and [float()] *)

Lemma search_from_inv (r : Regex.regex) (l : list ascii)
  (res : Regex.position * option (list ascii)) :
  forall prev : option ascii,
    Regex.search_from r prev l = Some res ->
    exists pos : Regex.position, Regex.match_at r pos = Some res.
Proof.
  induction l as [|c l IH]; intros prev H; cbn [Regex.search_from] in H;
    unfold Regex.or_else in H;
    destruct (Regex.match_at r (prev, _)) eqn:Hm.
  - injection H as <-. eauto.
  - discriminate.
  - injection H as <-. eauto.
  - eauto.
Qed.

Lemma firstn_app_exact {A : Type} (a b : list A) :
  firstn (List.length (a ++ b) - List.length b) (a ++ b) = a.
Proof.
  rewrite length_app. replace (_ + _ - _) with (List.length a) by lia.
  rewrite firstn_app, Nat.sub_diag, firstn_all. cbn. apply app_nil_r.
Qed.

Lemma nonempty_of_length {A : Type} (l : list A) :
  1 <= List.length l -> l <> [].
Proof. destruct l; cbn; [lia | discriminate]. Qed.

(** What group 1 of the amount pattern holds after a match. *)
Lemma dollar_amount_group (pos : Regex.position) (pos' : Regex.position)
  (g : list ascii) :
  Regex.match_at Regex.dollar_amount pos = Some (pos', Some g) ->
  decimal_text g.
Proof.
  unfold Regex.match_at, Regex.dollar_amount. cbn [Regex.run].
  destruct (snd pos) as [|d r1]; [discriminate|].
  destruct (Ascii.eqb "$" d); [|discriminate].
  cbn [fst snd]. intros H.
  apply many_inv in H.
  destruct H as [sp [s1 [p1 [_ [_ [_ H]]]]]]. cbn [fst snd] in H.
  apply many_inv in H.
  destruct H as [ds [s2 [p2 [-> [Hds [Hlen H]]]]]]. cbn [fst snd] in H.
  unfold Regex.or_else in H.
  exists ds. split; [now apply nonempty_of_length|]. split; [exact Hds|].
  destruct s2 as [|c s3].
  - cbn in H. injection H as _ <-. left.
    rewrite app_nil_r. cbn. now rewrite Nat.sub_0_r, firstn_all.
  - destruct (Ascii.eqb_spec "."%char c) as [<-|Hne].
    + destruct (Regex.many is_decimal 1 None (Some "."%char) s3 _) eqn:Hm.
      * injection H as ->. apply many_inv in Hm.
        destruct Hm as [fs [s4 [p4 [-> [Hfs [Hlen' Hk]]]]]].
        injection Hk as _ <-. right. exists fs.
        split; [now apply nonempty_of_length|]. split; [exact Hfs|].
        replace (ds ++ "."%char :: fs ++ s4)%list
          with ((ds ++ "."%char :: fs) ++ s4)%list
          by (now rewrite <- app_assoc).
        apply firstn_app_exact.
      * injection H as _ <-. left.
        apply (firstn_app_exact ds ("."%char :: s3)).
    + injection H as _ <-. left. apply (firstn_app_exact ds (c :: s3)).
Qed.

Lemma decimal_char (d : ascii) :
  is_decimal d = true ->
  lower_char d = d
  /\ is_float_space d = false
  /\ Ascii.eqb d "_" = false
  /\ is_char "-" d = false
  /\ is_char "+" d = false
  /\ is_char "." d = false
  /\ Ascii.eqb d "i" = false
  /\ Ascii.eqb d "n" = false.
Proof.
  destruct d as [[] [] [] [] [] [] [] []]; cbv; intros H;
    try discriminate H; repeat split.
Qed.

Lemma span_all (p : ascii -> bool) (a b : list ascii) :
  forallb p a = true ->
  match b with c :: _ => p c = false | [] => True end ->
  span p (a ++ b) = (a, b).
Proof.
  intros Ha Hb. induction a as [|x a IH]; cbn in *.
  - destruct b as [|c b]; cbn; [reflexivity | now rewrite Hb].
  - apply andb_prop in Ha. destruct Ha as [Hx Ha].
    rewrite Hx, (IH Ha). reflexivity.
Qed.

Lemma drop_while_head (p : ascii -> bool) (c : ascii) (l : list ascii) :
  p c = false -> drop_while p (c :: l) = c :: l.
Proof. intros H. cbn. now rewrite H. Qed.

Lemma strip_with_tight (p : ascii -> bool) (c d : ascii) (l m : list ascii) :
  p c = false -> p d = false -> c :: l = (m ++ [d])%list ->
  strip_with p (c :: l) = c :: l.
Proof.
  intros Hc Hd E. unfold strip_with.
  rewrite (drop_while_head _ _ _ Hc), E, rev_app_distr. cbn [rev app].
  rewrite (drop_while_head _ _ _ Hd).
  change (d :: rev m) with ([d] ++ rev m)%list.
  now rewrite rev_app_distr, rev_involutive.
Qed.

Lemma strip_underscores_none (l : list ascii) :
  forallb (fun c => negb (Ascii.eqb c "_")) l = true ->
  forall prev, strip_underscores prev l = Some l.
Proof.
  induction l as [|c l IH]; intros H prev; [reflexivity|].
  cbn in H. apply andb_prop in H. destruct H as [Hc Hl].
  cbn [strip_underscores]. apply negb_true_iff in Hc. rewrite Hc.
  now rewrite (IH Hl).
Qed.

Lemma digits_no_underscore (ds : list ascii) :
  forallb is_decimal ds = true ->
  forallb (fun c => negb (Ascii.eqb c "_")) ds = true.
Proof.
  intros H. rewrite forallb_forall in *. intros c Hc.
  destruct (decimal_char c (H c Hc)) as [_ [_ [-> _]]]. reflexivity.
Qed.

Lemma last_digit (ds : list ascii) :
  ds <> [] -> forallb is_decimal ds = true ->
  exists m d, ds = (m ++ [d])%list /\ is_decimal d = true.
Proof.
  intros Hne H. destruct (exists_last Hne) as [m [d ->]].
  exists m, d. split; [reflexivity|].
  rewrite forallb_app in H. apply andb_prop in H. destruct H as [_ H].
  cbn in H. now rewrite andb_true_r in H.
Qed.

(** [float()] accepts every text of the form [decimal_text]. *)
Lemma decimal_text_parses (g : list ascii) :
  decimal_text g -> exists f : float, float_of_string (text g) = Some f.
Proof.
  intros [ds [Hne [Hds Hg]]].
  destruct ds as [|c ds']; [congruence|].
  assert (Hc : is_decimal c = true)
    by (cbn in Hds; now apply andb_prop in Hds).
  destruct (decimal_char c Hc)
    as [Hlow [Hsp [Hus [Hminus [Hplus [Hdot [Hi Hn]]]]]]].
  assert (Hshape :
    exists fs, forallb is_decimal fs = true
      /\ exists r1, g = ((c :: ds') ++ r1)%list
         /\ (r1 = [] /\ fs = [] \/ r1 = "."%char :: fs /\ fs <> [])).
  { destruct Hg as [->|[fs [Hfne [Hfs ->]]]].
    - exists []. split; [reflexivity|]. exists []. split.
      + now rewrite app_nil_r.
      + now left.
    - exists fs. split; [exact Hfs|]. exists ("."%char :: fs). split.
      + reflexivity.
      + now right. }
  destruct Hshape as [fs [Hfs [r1 [Eg Hr1]]]].
  assert (Hlast : exists m d, g = (m ++ [d])%list /\ is_decimal d = true).
  { destruct Hr1 as [[-> ->]|[-> Hfne]].
    - rewrite app_nil_r in Eg. subst g. now apply last_digit.
    - destruct (last_digit fs Hfne Hfs) as [m [d [-> Hd]]].
      exists ((c :: ds') ++ "."%char :: m)%list, d. split; [|exact Hd].
      subst g. now rewrite <- app_assoc. }
  destruct Hlast as [m [d [Elast Hd]]].
  assert (Hnus : forallb (fun c => negb (Ascii.eqb c "_")) g = true).
  { subst g. rewrite forallb_app.
    rewrite (digits_no_underscore _ Hds). cbn [andb].
    destruct Hr1 as [[-> _]|[-> _]]; [reflexivity|].
    cbn. now apply digits_no_underscore. }
  unfold float_of_string. rewrite chars_text.
  assert (Estrip : strip_with is_float_space g = g).
  { rewrite Eg in *. cbn [app] in *.
    apply (strip_with_tight _ c d _ m Hsp); [|exact Elast].
    now destruct (decimal_char d Hd) as [_ [-> _]]. }
  rewrite Estrip, (strip_underscores_none g Hnus None).
  rewrite Eg. cbn [app take_sign]. rewrite Hminus, Hplus.
  cbn [map text string_of_list_ascii]. rewrite Hlow.
  cbn [String.eqb]. rewrite Hi, Hn. cbn [orb].
  unfold parse_decimal.
  change (c :: (ds' ++ r1)%list) with ((c :: ds') ++ r1)%list.
  destruct Hr1 as [[-> ->]|[-> Hfne]].
  - rewrite (span_all is_decimal (c :: ds') [] Hds I).
    cbn [app]. eauto.
  - rewrite (span_all is_decimal (c :: ds') ("."%char :: fs) Hds);
      [|reflexivity].
    change (is_char "." ".") with true. cbv iota.
    replace (span is_decimal fs) with (fs, @nil ascii)
      by (rewrite <- (app_nil_r fs) at 2; symmetry;
          now apply span_all).
    cbn [app]. eauto.
Qed.

Lemma dollar_amount_parses (s g : string) :
  Regex.search_group1 Regex.dollar_amount s = Some g ->
  exists f : float, float_of_group g = Ok f.
Proof.
  unfold Regex.search_group1, Regex.search.
  destruct (Regex.search_from _ _ _) as [[pos' [cap|]]|] eqn:Hs;
    try discriminate.
  intros H. injection H as <-.
  destruct (search_from_inv _ _ _ _ Hs) as [pos Hm].
  apply dollar_amount_group in Hm.
  destruct (decimal_text_parses _ Hm) as [f Hf].
  exists f. unfold float_of_group. now rewrite Hf.
Qed.

Lemma extract_simple_payment_total (text : string) :
  exists (amount : float) (payee : string),
    _extract_simple_payment text = Ok (amount, payee).
Proof.
  unfold _extract_simple_payment.
  destruct (Regex.search_group1 Regex.dollar_amount (lower text)) as [g|] eqn:E.
  - destruct (dollar_amount_parses _ _ E) as [f ->]. cbn [bind]. eauto.
  - cbn [bind]. eauto.
Qed.

Lemma user_text_raises (messages : list value) (e : exn) :
  user_text messages = Raise e -> e = TypeError.
Proof.
  unfold user_text, join_values.
  generalize (user_contents messages). intros l.
  assert (H : forall e', mapM (fun v => match v with
                                        | VStr s => Ok s
                                        | _ => Raise TypeError
                                        end) l = Raise e' -> e' = TypeError).
  { induction l as [|v l IH]; intros e'; cbn [mapM]; [discriminate|].
    destruct v; cbn [bind]; try (intros H; now injection H).
    destruct (mapM _ l) as [ys|e0]; cbn [bind]; [discriminate|].
    intros H. injection H as <-. now apply IH. }
  destruct (mapM _ l) as [parts|e0]; cbn [bind]; [discriminate|].
  intros E. injection E as <-. now apply H.
Qed.

Lemma extract_payment_context_total (messages : list value)
  (supplied : option dict) (joined : string) :
  user_text messages = Ok joined ->
  exists ctx : dict, _extract_payment_context messages supplied = Ok ctx.
Proof.
  intros Hj. unfold _extract_payment_context. rewrite Hj. cbn [bind].
  destruct (Regex.search_group1 Regex.dollar_amount (lower joined))
    as [g|] eqn:E.
  - destruct (dollar_amount_parses _ _ E) as [f Hf]. rewrite Hf.
    destruct (negb (dict_mem _ "amount")); cbn [bind]; eauto.
  - cbn [bind]. eauto.
Qed.

(** X15. The [float()] conversions of the captured amount never fail: the
    amount pattern captures only digits with an optional fraction, which
    [float()] accepts.  So [_extract_simple_payment] returns for every
    text, and [_extract_payment_context] raises only the [TypeError] of
    joining a user content that is not a string. *)
Theorem captured_amount_always_parses :
  (forall s g : string,
     Regex.search_group1 Regex.dollar_amount s = Some g ->
     exists f : float, float_of_string g = Some f)
  /\ (forall text : string,
        exists (amount : float) (payee : string),
          _extract_simple_payment text = Ok (amount, payee))
  /\ (forall (messages : list value) (supplied : option dict),
        (exists ctx : dict,
           _extract_payment_context messages supplied = Ok ctx)
        \/ (user_text messages = Raise TypeError
            /\ _extract_payment_context messages supplied = Raise TypeError)).
Proof.
  split; [|split].
  - intros s g H. destruct (dollar_amount_parses _ _ H) as [f Hf].
    unfold float_of_group in Hf.
    destruct (float_of_string g) as [f'|]; [eauto | discriminate].
  - apply extract_simple_payment_total.
  - intros messages supplied.
    destruct (user_text messages) as [joined|e] eqn:Hj.
    + left. now apply (extract_payment_context_total _ _ joined).
    + right. pose proof (user_text_raises _ _ Hj) as ->. split; [reflexivity|].
      unfold _extract_payment_context. now rewrite Hj.
Qed.

Lemma captured_amount_always_parses_witness :
  exists f : float, float_of_string "35.50" = Some f.
Proof.
  apply (proj1 captured_amount_always_parses "send $35.50 to carol" "35.50").
  vm_compute. reflexivity.
Defined.

(* ================================================================= *)
(** ** Planning against the default catalog *)

Lemma text_context_amount (amount : option float) (np ft : bool) :
  exists a : float, context_amount (text_context amount np ft) = Ok a.
Proof.
  destruct amount as [f|], np, ft; unfold context_amount, text_context;
    cbn [app dict_get dict_lookup String.eqb Ascii.eqb Bool.eqb];
    try (cbn; eauto; fail);
    unfold py_or; destruct (truthy (VFloat f)); cbn; eauto.
Qed.

Lemma heuristic_default_plan (messages : list value) (text : string)
  (repair : bool) (amount : float) (payee : string) :
  user_text messages = Ok text ->
  _extract_simple_payment text = Ok (amount, payee) ->
  _heuristic_local_calls messages PAYMENT_TOOLS repair
  = Ok (payment_plan payee amount,
        heuristic_confidence repair (contains "?" text)
          (contains "and" (lower text))).
Proof.
  intros Ht Hp. unfold _heuristic_local_calls. rewrite Ht. cbn [bind].
  change (_tool_index PAYMENT_TOOLS)
    with (Ok (A := tool_index) payment_index).
  cbn [bind]. rewrite Hp. cbn [bind]. reflexivity.
Qed.

Lemma payment_plan_normalized (payee : string) (amount : float) :
  _normalize_calls (payment_plan payee amount) PAYMENT_TOOLS
  = Ok (payment_plan payee amount).
Proof. vm_compute. reflexivity. Qed.

Lemma payment_plan_valid (repr : value -> string) (payee : string)
  (amount : float) :
  _validate_calls repr (payment_plan payee amount) PAYMENT_TOOLS
  = Ok clean_validation.
Proof. vm_compute. reflexivity. Qed.

Lemma local_pass_default (repr : value -> string)
  (perf_counter : nat -> float) (readings : nat) (messages : list value)
  (k : Z) (repair : bool) (cx : Complexity) (ctx : dict)
  (text : string) (amount a : float) (payee : string) :
  user_text messages = Ok text ->
  _extract_simple_payment text = Ok (amount, payee) ->
  context_amount ctx = Ok a ->
  exists (l : LocalResult) (f : bool),
    local_pass repr perf_counter readings messages PAYMENT_TOOLS k repair cx ctx
    = Ok (l, clean_validation, f)
    /\ function_calls l = payment_plan payee amount
    /\ confidence l = heuristic_confidence repair (contains "?" text)
                        (contains "and" (lower text)).
Proof.
  intros Ht Hp Ha. unfold local_pass, _call_local_planner.
  rewrite (heuristic_default_plan _ _ repair _ _ Ht Hp).
  cbn [bind function_calls].
  rewrite payment_plan_normalized. cbn [bind].
  unfold set_function_calls.
  cbn [function_calls confidence local_latency_ms tool_rag_top_k repair_mode].
  rewrite payment_plan_valid. cbn [bind].
  unfold _needs_cloud_fallback.
  cbn [valid clean_validation negb function_calls confidence].
  replace (Nat.ltb (List.length (payment_plan payee amount)) 2) with false
    by reflexivity.
  rewrite andb_false_r, Ha. cbn [bind].
  eexists. eexists. split; [reflexivity|]. split; reflexivity.
Qed.

Lemma cloud_confidence_default (q a : bool) :
  py_max 0.99 (heuristic_confidence true q a) = 0.99%float.
Proof. destruct q, a; vm_compute; reflexivity. Qed.

(** A run against the default catalog without an override. *)
Lemma default_catalog_run (repr : value -> string)
  (perf_counter : nat -> float) (getenv : string -> option string)
  (json_loads : string -> option value) (messages : list value)
  (threshold : float) (text : string) (amount : float) (payee : string) :
  getenv "VOICEPAY_CLOUD_JSON" = None
  \/ getenv "VOICEPAY_CLOUD_JSON" = Some "" ->
  user_text messages = Ok text ->
  _extract_simple_payment text = Ok (amount, payee) ->
  exists r : RoutingDecision,
    generate_hybrid repr perf_counter getenv json_loads messages
      PAYMENT_TOOLS threshold = Ok r
    /\ planned_calls r = payment_plan payee amount
    /\ validation r = clean_validation
    /\ route_reason r <> "pass1-accepted"
    /\ (PrimFloat.leb (threshold_b threshold) 0.965 = false ->
        source r = "cloud (fallback)"
        /\ route_reason r = "local-uncertain-or-invalid"
        /\ planned_confidence r = 0.99%float).
Proof.
  intros Henv Ht Hp.
  destruct (extract_payment_context_total messages None text Ht) as [ctx Hctx].
  destruct (extract_payment_context_shape _ _ Hctx)
    as [joined [_ [amt [_ Ectx]]]].
  destruct (text_context_amount amt (contains "new payee" (lower joined))
              (contains "first time" (lower joined))) as [a Ha].
  rewrite <- Ectx in Ha.
  assert (Hcx : exists cx, _estimate_complexity messages = Ok cx)
    by (unfold _estimate_complexity; rewrite Ht; cbn [bind]; eauto).
  destruct Hcx as [cx Hcx].
  destruct (local_pass_default repr perf_counter 1 messages 2 false cx ctx
              _ _ _ _ Ht Hp Ha) as [la [fa [Hla [Hca Hconfa]]]].
  destruct (local_pass_default repr perf_counter 3 messages 0 true cx ctx
              _ _ _ _ Ht Hp Ha) as [lb [fb [Hlb [Hcb Hconfb]]]].
  pose proof (pass1_always_flagged _ _ _ _ _ _ _ _ _ _ _ Hla) as ->.
  assert (Hcloud : _call_cloud_planner getenv json_loads messages PAYMENT_TOOLS
                   = Ok {| cloud_function_calls := payment_plan payee amount;
                           cloud_confidence := 0.99 |}).
  { unfold _call_cloud_planner, cloud_override.
    destruct Henv as [-> | ->]; cbn [String.eqb negb];
      rewrite (heuristic_default_plan _ _ true _ _ Ht Hp); cbn [bind];
      now rewrite cloud_confidence_default. }
  rewrite generate_hybrid_stages, Hctx, Hcx. cbn [bind]. rewrite Hla.
  cbn [bind]. unfold pass1_accepts. cbn [negb andb]. rewrite Hlb. cbn [bind].
  destruct (pass2_accepts threshold cx la clean_validation lb clean_validation
              fb) eqn:Hacc.
  - eexists. split; [reflexivity|].
    cbn [pass2_decision planned_calls validation route_reason source].
    rewrite !best_of_same.
    split; [|split; [reflexivity|split; [discriminate|]]].
    + unfold best_of. destruct (PrimFloat.leb _ _); congruence.
    + intros Hthr. exfalso. unfold pass2_accepts in Hacc.
      apply andb_prop in Hacc. destruct Hacc as [Hacc _].
      apply andb_prop in Hacc. destruct Hacc as [Hnf Hleb].
      apply negb_true_iff in Hnf. subst fb.
      apply local_pass_confidence in Hlb.
      destruct Hlb as [tb [_ [Hc [_ Hfb]]]].
      destruct (unflagged_candidate _ _ _ _ _ _ _ Hc Hfb)
        as [_ [_ [_ [Hq [Hand _]]]]].
      assert (E : confidence lb = 0.965%float)
        by (rewrite Hc, Hq, Hand; vm_compute; reflexivity).
      assert (Hscore : PrimFloat.leb
                (_candidate_score clean_validation (confidence la) cx)
                (_candidate_score clean_validation (confidence lb) cx) = true).
      { rewrite Hconfa, Hconfb.
        now apply repair_outscores_when_valid. }
      unfold best_of in Hleb. rewrite Hscore, E in Hleb. congruence.
  - unfold cloud_stage. rewrite Hcloud. cbn [bind cloud_function_calls].
    rewrite payment_plan_normalized. cbn [bind].
    rewrite payment_plan_valid. cbn [bind].
    eexists. split; [reflexivity|].
    cbn [planned_calls validation route_reason source planned_confidence
         cloud_confidence].
    repeat split. discriminate.
Qed.

(** X16. Against the default catalog and without an override in
    [VOICEPAY_CLOUD_JSON], [generate_hybrid] returns for every request
    whose user contents are strings, at every threshold: it never raises,
    and its calls are the four-call plan for the payee and the amount
    read in the user text, valid with no issue. *)
Theorem default_catalog_always_plans (repr : value -> string)
  (perf_counter : nat -> float) (getenv : string -> option string)
  (json_loads : string -> option value) (messages : list value)
  (threshold : float) (text : string) :
  getenv "VOICEPAY_CLOUD_JSON" = None
  \/ getenv "VOICEPAY_CLOUD_JSON" = Some "" ->
  user_text messages = Ok text ->
  exists (amount : float) (payee : string) (r : RoutingDecision),
    _extract_simple_payment text = Ok (amount, payee)
    /\ generate_hybrid repr perf_counter getenv json_loads messages
         PAYMENT_TOOLS threshold = Ok r
    /\ planned_calls r = payment_plan payee amount
    /\ validation r = clean_validation.
Proof.
  intros Henv Ht.
  destruct (extract_simple_payment_total text) as [amount [payee Hp]].
  destruct (default_catalog_run repr perf_counter getenv json_loads messages
              threshold text amount payee Henv Ht Hp)
    as [r [Hr [Hcalls [Hv _]]]].
  exists amount, payee, r. auto.
Qed.

Lemma default_catalog_always_plans_witness :
  exists (amount : float) (payee : string) (r : RoutingDecision),
    _extract_simple_payment "send $35.50 to Carol" = Ok (amount, payee)
    /\ generate_hybrid plain_repr still_clock empty_env no_json
         (user_message "send $35.50 to Carol") PAYMENT_TOOLS 0.5 = Ok r
    /\ planned_calls r = payment_plan payee amount
    /\ validation r = clean_validation.
Proof.
  apply (default_catalog_always_plans plain_repr still_clock empty_env
           no_json (user_message "send $35.50 to Carol") 0.5
           "send $35.50 to Carol" (or_introl eq_refl) eq_refl).
Defined.

(* ================================================================= *)
(** ** The payment service *)

(** X17. Without an override in [VOICEPAY_CLOUD_JSON], [pay_plan] answers
    every transcript, and always from the cloud stage: the response has
    [success = True] and [error = None], echoes the transcript, has
    [source = "cloud (fallback)"] and
    [route_reason = "local-uncertain-or-invalid"], and its calls are the
    four-call plan for the payee and the amount read in the transcript. *)
Theorem pay_plan_answers (repr : value -> string)
  (perf_counter : nat -> float) (getenv : string -> option string)
  (json_loads : string -> option value) (uuid4 : nat -> string)
  (transcript : string) :
  getenv "VOICEPAY_CLOUD_JSON" = None
  \/ getenv "VOICEPAY_CLOUD_JSON" = Some "" ->
  exists (amount : float) (payee : string) (response : dict),
    _extract_simple_payment transcript = Ok (amount, payee)
    /\ pay_plan repr perf_counter getenv json_loads uuid4 transcript
       = Ok response
    /\ dict_lookup response "success" = Some (VBool true)
    /\ dict_lookup response "error" = Some VNone
    /\ dict_lookup response "transcript" = Some (VStr transcript)
    /\ dict_lookup response "source" = Some (VStr "cloud (fallback)")
    /\ dict_lookup response "route_reason"
       = Some (VStr "local-uncertain-or-invalid")
    /\ dict_lookup response "function_calls"
       = Some (VList (payment_plan payee amount)).
Proof.
  intros Henv.
  destruct (extract_simple_payment_total transcript) as [amount [payee Hp]].
  destruct (default_catalog_run repr (fun n => perf_counter (S n)) getenv
              json_loads (user_message transcript) 0.99 transcript amount
              payee Henv eq_refl Hp)
    as [r [Hr [Hcalls [_ [_ Hcloud]]]]].
  destruct (Hcloud ltac:(vm_compute; reflexivity)) as [Hs [Hreason _]].
  exists amount, payee. eexists. split; [exact Hp|].
  unfold pay_plan. rewrite Hr. cbn [bind]. rewrite Hs, Hreason, Hcalls.
  split; [reflexivity|]. repeat split.
Qed.

Lemma pay_plan_answers_witness :
  exists response : dict,
    pay_plan plain_repr still_clock empty_env no_json zero_uuid
      "send $20 to Alice" = Ok response
    /\ dict_lookup response "source" = Some (VStr "cloud (fallback)").
Proof.
  destruct (pay_plan_answers plain_repr still_clock empty_env no_json
              zero_uuid "send $20 to Alice" (or_introl eq_refl))
    as [amount [payee [response [_ [Hr [_ [_ [_ [Hs _]]]]]]]]].
  exists response. split; [exact Hr | exact Hs].
Defined.

(** X18. The executor recovers from a plan the amount the planner read:
    for the calls the heuristic planner proposes against the default
    catalog, [_extract_amount_from_calls] returns the amount
    [_extract_simple_payment] found in the user text. *)
Theorem planned_amount_is_executed (messages : list value) (repair : bool)
  (calls : list value) (c : float) :
  _heuristic_local_calls messages PAYMENT_TOOLS repair = Ok (calls, c) ->
  exists (text : string) (amount : float) (payee : string),
    user_text messages = Ok text
    /\ _extract_simple_payment text = Ok (amount, payee)
    /\ _extract_amount_from_calls calls = Ok amount.
Proof.
  intros H.
  destruct (user_text messages) as [text|e] eqn:Ht.
  2:{ unfold _heuristic_local_calls in H. rewrite Ht in H. discriminate H. }
  destruct (extract_simple_payment_total text) as [amount [payee Hp]].
  rewrite (heuristic_default_plan _ _ repair _ _ Ht Hp) in H.
  injection H as <- _.
  exists text, amount, payee. repeat split; trivial.
Qed.

Lemma planned_amount_is_executed_witness :
  exists (text : string) (amount : float) (payee : string),
    user_text (user_message "send $35.50 to Carol") = Ok text
    /\ _extract_simple_payment text = Ok (amount, payee)
    /\ _extract_amount_from_calls (payment_plan "Carol" 35.5) = Ok amount.
Proof.
  apply (planned_amount_is_executed (user_message "send $35.50 to Carol")
           false (payment_plan "Carol" 35.5) 0.93).
  vm_compute. reflexivity.
Defined.

Lemma py_float_raises (x : value) (e : exn) :
  py_float x = Raise e -> e <> AttributeError.
Proof.
  destruct x; cbn [py_float]; try (intros H; injection H as <-; discriminate);
    try discriminate.
  - destruct (is_infinity _); [|discriminate].
    intros H; injection H as <-; discriminate.
  - destruct (float_of_string s); [discriminate|].
    intros H; injection H as <-; discriminate.
Qed.

(** X19. The scan of the calls for an amount skips what [float()] rejects
    with [TypeError] or [ValueError] and nothing else: it returns an
    amount, or raises [AttributeError] (only when some call is not a
    dict), or raises [OverflowError].  Whatever it raises aborts
    [_execute_with_stripe_or_mock], also when the payment context supplies
    the amount, because the scan runs first; an integer amount beyond the
    float range in the first call is such a case. *)
Theorem amount_scan_outcome (repr : value -> string)
  (getenv : string -> option string) (uuid4 : nat -> string)
  (import_stripe : string + (StripeRequest -> StripeReply))
  (calls : list value) :
  ((exists amount : float, _extract_amount_from_calls calls = Ok amount)
   \/ (_extract_amount_from_calls calls = Raise AttributeError
       /\ ~ Forall (fun call => isinstance_dict call = true) calls)
   \/ _extract_amount_from_calls calls = Raise OverflowError)
  /\ (forall (e : exn) (draws : nat) (payment_context : dict),
        _extract_amount_from_calls calls = Raise e ->
        _execute_with_stripe_or_mock repr getenv uuid4 import_stripe draws
          calls payment_context = Raise e)
  /\ (forall (call : dict) (args : dict) (n : Z) (rest : list value),
        calls = VDict call :: rest ->
        dict_lookup call "arguments" = Some (VDict args) ->
        dict_lookup args "amount" = Some (VInt n) ->
        is_infinity (float_of_Z n) = true ->
        _extract_amount_from_calls calls = Raise OverflowError).
Proof.
  split; [|split].
  - induction calls as [|call rest IH]; [left; cbn; eauto|].
    cbn [_extract_amount_from_calls].
    assert (Hrest :
      (exists amount, _extract_amount_from_calls rest = Ok amount)
      \/ (_extract_amount_from_calls rest = Raise AttributeError
          /\ ~ Forall (fun call => isinstance_dict call = true)
                 (call :: rest))
      \/ _extract_amount_from_calls rest = Raise OverflowError).
    { destruct IH as [H|[[E H]|H]]; auto. right. left.
      split; [exact E|]. intros F. apply H. now inversion F. }
    destruct call; cbn [py_get bind];
      try (right; left; split; [reflexivity|];
           intros F; inversion F; discriminate).
    destruct (dict_get d "arguments" (VDict [])); auto.
    destruct (dict_lookup d0 "amount") as [x|]; auto.
    destruct (py_float x) as [amount|e] eqn:E; [eauto|].
    pose proof (py_float_raises _ _ E) as He.
    destruct e; auto. congruence.
  - intros e draws ctx H. unfold _execute_with_stripe_or_mock.
    now rewrite H.
  - intros call args n rest -> Hargs Hamount Hinf.
    cbn [_extract_amount_from_calls py_get bind]. unfold dict_get.
    rewrite Hargs, Hamount. cbn [py_float]. now rewrite Hinf.
Qed.

Lemma amount_scan_outcome_witness :
  _execute_with_stripe_or_mock plain_repr empty_env zero_uuid stripe_accepts 0
    huge_amount_calls [("amount", VFloat 20)] = Raise OverflowError.
Proof.
  apply (proj1 (proj2 (amount_scan_outcome plain_repr empty_env zero_uuid
                         stripe_accepts huge_amount_calls))).
  apply (proj2 (proj2 (amount_scan_outcome plain_repr empty_env zero_uuid
                         stripe_accepts huge_amount_calls))
           [("name", VStr "create_payment_intent");
            ("arguments",
             VDict [("amount", VInt (10 ^ 400)); ("currency", VStr "usd")])]
           [("amount", VInt (10 ^ 400)); ("currency", VStr "usd")]
           (10 ^ 400)%Z []); reflexivity.
Defined.

(** The dicts the [try] block can produce. *)
Lemma stripe_charge_shape (uuid4 : nat -> string)
  (import_stripe : string + (StripeRequest -> StripeReply))
  (draws : nat) (key : string) (amount : float) (currency : string)
  (ctx : dict) :
  (exists message : string,
     stripe_charge uuid4 import_stripe draws key amount currency ctx
     = mock_fallback uuid4 draws amount currency message)
  \/ (exists (create : StripeRequest -> StripeReply) (cents : Z)
             (intent : dict),
        import_stripe = inr create
        /\ py_round (amount * 100) = Ok cents
        /\ create {| sr_api_key := key;
                     sr_amount := cents;
                     sr_currency := currency;
                     sr_payment_method :=
                       dict_get ctx "payment_method_id"
                         (VStr "pm_card_visa") |} = Intent intent
        /\ stripe_charge uuid4 import_stripe draws key amount currency ctx
           = [("executor", VStr "stripe-testmode");
              ("status", dict_get intent "status" (VStr "unknown"));
              ("payment_id", dict_get intent "id" (VStr ""));
              ("amount", VFloat amount);
              ("currency", VStr currency)]).
Proof.
  unfold stripe_charge.
  destruct import_stripe as [message|create]; [left; eauto|].
  destruct (py_round (amount * 100)) as [cents|[]]; try (left; eauto; fail).
  destruct (create _) as [intent|message] eqn:E; [|left; eauto].
  right. exists create, cents, intent. auto.
Qed.

(** X20. Every dict [_execute_with_stripe_or_mock] returns (mock, Stripe
    test mode, or mock fallback) reports the same amount and currency:
    the amount is [float()] of the context's [amount] when the context
    has one and the amount scanned from the calls otherwise, and the
    currency is [str()] of the context's [currency], "usd" by default. *)
Theorem executed_amount_and_currency (repr : value -> string)
  (getenv : string -> option string) (uuid4 : nat -> string)
  (import_stripe : string + (StripeRequest -> StripeReply))
  (draws : nat) (calls : list value) (payment_context result : dict) :
  _execute_with_stripe_or_mock repr getenv uuid4 import_stripe draws calls
    payment_context = Ok result ->
  exists (scanned amount : float) (currency : string),
    _extract_amount_from_calls calls = Ok scanned
    /\ py_float (dict_get payment_context "amount" (VFloat scanned))
       = Ok amount
    /\ py_str repr (dict_get payment_context "currency" (VStr "usd"))
       = Ok currency
    /\ dict_lookup result "amount" = Some (VFloat amount)
    /\ dict_lookup result "currency" = Some (VStr currency)
    /\ (dict_lookup payment_context "amount" = None -> amount = scanned).
Proof.
  unfold _execute_with_stripe_or_mock. intros H.
  apply bind_ok in H. destruct H as [scanned [Hs H]].
  apply bind_ok in H. destruct H as [amount [Ha H]].
  apply bind_ok in H. destruct H as [currency [Hc H]].
  exists scanned, amount, currency.
  repeat (split; [assumption|]).
  assert (Hres : dict_lookup result "amount" = Some (VFloat amount)
                 /\ dict_lookup result "currency" = Some (VStr currency)).
  { destruct (negb (String.prefix "sk_test_" _)); injection H as <-.
    - split; reflexivity.
    - destruct (stripe_charge_shape uuid4 import_stripe draws
                  (stripe_key getenv) amount currency payment_context)
        as [[message ->]|[create [cents [intent [_ [_ [_ ->]]]]]]];
        split; reflexivity. }
  destruct Hres as [H1 H2]. split; [exact H1|]. split; [exact H2|].
  intros Hnone. unfold dict_get in Ha. rewrite Hnone in Ha.
  cbn in Ha. now injection Ha.
Qed.

Lemma executed_amount_and_currency_witness :
  exists (scanned amount : float) (currency : string),
    _extract_amount_from_calls (payment_plan "Alice" 20) = Ok scanned
    /\ py_float (dict_get [("amount", VStr "12.5")] "amount" (VFloat scanned))
       = Ok amount
    /\ py_str plain_repr
         (dict_get [("amount", VStr "12.5")] "currency" (VStr "usd"))
       = Ok currency
    /\ dict_lookup
         (mock_result zero_uuid 0 12.5 "usd") "amount" = Some (VFloat amount)
    /\ dict_lookup
         (mock_result zero_uuid 0 12.5 "usd") "currency" = Some (VStr currency)
    /\ (dict_lookup [("amount", VStr "12.5")] "amount" = None ->
        amount = scanned).
Proof.
  apply (executed_amount_and_currency plain_repr empty_env zero_uuid
           stripe_accepts 0 (payment_plan "Alice" 20)
           [("amount", VStr "12.5")]).
  vm_compute. reflexivity.
Defined.

(** X21. Only a key that starts with "sk_test_" reaches Stripe: with any
    other key, or none, the executor's outcome does not depend on the
    Stripe module at all, and a returned dict is the mock result
    ([executor = "mock"], [status = "succeeded"], no [error] entry). *)
Theorem only_test_keys_reach_stripe (repr : value -> string)
  (getenv : string -> option string) (uuid4 : nat -> string)
  (draws : nat) (calls : list value) (payment_context : dict) :
  String.prefix "sk_test_" (stripe_key getenv) = false ->
  (forall import_stripe import_stripe' :
            string + (StripeRequest -> StripeReply),
     _execute_with_stripe_or_mock repr getenv uuid4 import_stripe draws calls
       payment_context
     = _execute_with_stripe_or_mock repr getenv uuid4 import_stripe' draws
         calls payment_context)
  /\ (forall (import_stripe : string + (StripeRequest -> StripeReply))
             (result : dict),
        _execute_with_stripe_or_mock repr getenv uuid4 import_stripe draws
          calls payment_context = Ok result ->
        dict_lookup result "executor" = Some (VStr "mock")
        /\ dict_lookup result "status" = Some (VStr "succeeded")
        /\ dict_lookup result "error" = None).
Proof.
  intros Hkey. split.
  - intros s s'. unfold _execute_with_stripe_or_mock. now rewrite Hkey.
  - intros s result. unfold _execute_with_stripe_or_mock. rewrite Hkey.
    cbn [negb]. intros H.
    apply bind_ok in H. destruct H as [scanned [_ H]].
    apply bind_ok in H. destruct H as [amount [_ H]].
    apply bind_ok in H. destruct H as [currency [_ H]].
    injection H as <-. repeat split.
Qed.

Lemma only_test_keys_reach_stripe_witness :
  _execute_with_stripe_or_mock plain_repr live_env zero_uuid stripe_accepts 0
    (payment_plan "Alice" 20) []
  = _execute_with_stripe_or_mock plain_repr live_env zero_uuid stripe_declines
      0 (payment_plan "Alice" 20) [].
Proof.
  apply (proj1 (only_test_keys_reach_stripe plain_repr live_env zero_uuid 0
                  (payment_plan "Alice" 20) [] eq_refl)).
Defined.

(** X22. Every response of [pay_execute] has [success = True], also when
    Stripe failed.  It is one of three: the mock result with
    [error = None] (no test key); the Stripe result with [error = None]
    and the intent's status (test key, the intent was created with that
    key); or, when anything in the Stripe block raised, [executor =
    "mock"], [status = "succeeded_with_mock_fallback"] and the exception
    text in [error], which overrides the [None] of the envelope. *)
Theorem pay_execute_reports_success (repr : value -> string)
  (perf_counter : nat -> float) (getenv : string -> option string)
  (uuid4 : nat -> string)
  (import_stripe : string + (StripeRequest -> StripeReply))
  (calls : list value) (payment_context response : dict) :
  pay_execute repr perf_counter getenv uuid4 import_stripe calls
    payment_context = Ok response ->
  dict_lookup response "success" = Some (VBool true)
  /\ ((dict_lookup response "error" = Some VNone
       /\ dict_lookup response "executor" = Some (VStr "mock")
       /\ dict_lookup response "status" = Some (VStr "succeeded")
       /\ String.prefix "sk_test_" (stripe_key getenv) = false)
      \/ (dict_lookup response "error" = Some VNone
          /\ dict_lookup response "executor" = Some (VStr "stripe-testmode")
          /\ String.prefix "sk_test_" (stripe_key getenv) = true
          /\ exists (create : StripeRequest -> StripeReply) (intent : dict)
                    (request : StripeRequest),
               import_stripe = inr create
               /\ create request = Intent intent
               /\ sr_api_key request = stripe_key getenv
               /\ dict_lookup response "status"
                  = Some (dict_get intent "status" (VStr "unknown")))
      \/ (exists message : string,
            dict_lookup response "error" = Some (VStr message)
            /\ dict_lookup response "executor" = Some (VStr "mock")
            /\ dict_lookup response "status"
               = Some (VStr "succeeded_with_mock_fallback")
            /\ String.prefix "sk_test_" (stripe_key getenv) = true)).
Proof.
  unfold pay_execute, _execute_with_stripe_or_mock. intros H.
  apply bind_ok in H. destruct H as [execution [He H]].
  injection H as <-.
  apply bind_ok in He. destruct He as [scanned [_ He]].
  apply bind_ok in He. destruct He as [amount [_ He]].
  apply bind_ok in He. destruct He as [currency [_ He]].
  destruct (String.prefix "sk_test_" (stripe_key getenv)) eqn:Hkey;
    cbn [negb] in He; injection He as <-.
  - destruct (stripe_charge_shape uuid4 import_stripe 0
                (stripe_key getenv) amount currency payment_context)
      as [[message ->]|[create [cents [intent [Hi [_ [Hc ->]]]]]]].
    + split; [reflexivity|]. right. right. exists message.
      repeat split.
    + split; [reflexivity|]. right. left.
      split; [reflexivity|]. split; [reflexivity|]. split; [reflexivity|].
      eexists create, intent, _.
      split; [exact Hi|]. split; [exact Hc|]. split; reflexivity.
  - split; [reflexivity|]. left. repeat split.
Qed.

Lemma pay_execute_reports_success_witness :
  exists response : dict,
    pay_execute plain_repr still_clock test_key_env zero_uuid stripe_declines
      (payment_plan "Alice" 20) [] = Ok response
    /\ dict_lookup response "success" = Some (VBool true)
    /\ dict_lookup response "error" = Some (VStr "Your card was declined.").
Proof.
  eexists. split; [vm_compute; reflexivity|].
  split; [|reflexivity].
  refine (proj1 (pay_execute_reports_success plain_repr still_clock
                   test_key_env zero_uuid stripe_declines
                   (payment_plan "Alice" 20) [] _ _)).
  vm_compute. reflexivity.
Defined.
